(** * The task manager of [src/common/task.c]

    A shallow embedding of the cooperative task scheduler: the process-wide
    globals, the heap objects behind the [task_t*] and [task_scheduler_t*]
    handles, the tick dispatcher, the run loop and the task and scheduler
    life-cycle operations, followed by the properties the specification
    states about them.

    Conventions.
    - A C function [int f(...)] becomes a computation [M Z] in a state and
      failure monad over [world]: [None] stands for undefined behaviour
      (a NULL dereference, an access to a heap block or a queue that was
      released, a double free, a call without a defined outcome) or for a
      thread that can make no further step (relocking its own mutex).
    - [int] is a 32-bit two's complement integer: [int_wrap] writes out what
      [taskmgr_next_task_id++] does at [INT_MAX].
    - [double] is IEEE 754 binary64 as the Standard Library specifies it
      ([spec_float] at precision 53): the subtraction rounds to nearest
      even, and [<] is false when an operand is NaN.
    - Handles are heap addresses ([N], [NULL] is 0); [malloc] always
      succeeds and hands out the address after the highest one handed out so
      far, [free] keeps the last contents of the block and marks it [Freed],
      and any later access through the handle is undefined.
    - The callable behind a function pointer and the clock behind
      [get_current_time] are parameters of the development.  A call through
      a function pointer may have no defined outcome (a pointer that names
      no function, a function that crashes or does not return).  A callable
      is passed what [va_copy] gets out of the stored pointer; for a frame
      that has returned this is indeterminate, and a callable that reads it
      has no defined outcome. *)

From Stdlib Require Import ZArith QArith Qpower Lqa Lia List Bool SpecFloat.
From stdpp Require Import gmap list.
Import ListNotations.

Local Open Scope Z_scope.

(** ** Machine integers *)

Definition INT_MAX : Z := 2147483647.
Definition INT_MIN : Z := -2147483648.

(** The value an [int] holds after a computation whose mathematical result
    is [z] (two's complement wrap-around). *)
Definition int_wrap (z : Z) : Z := (z + 2147483648) mod 4294967296 - 2147483648.

(** ** Time *)

(** [double], with the two operations the dispatcher uses: [a - b] and
    [a < b]. *)
Definition double : Type := spec_float.

Definition double_sub (a b : double) : double := SFsub 53 1024 a b.

Definition double_lt (a b : double) : bool := SFltb a b.

(** The conversion of an integer constant to [double]. *)
Definition double_of_Z (z : Z) : double := binary_normalize 53 1024 z 0 false.

(** The quotient [a / b], used to write down constants such as 0.2. *)
Definition double_div (a b : double) : double := SFdiv 53 1024 a b.

Arguments double_sub : simpl never.
Arguments double_lt : simpl never.
Arguments double_of_Z : simpl never.
Arguments double_div : simpl never.

(** The real number a [double] stands for; none for infinities and NaN. *)
Definition double_value (x : double) : option Q :=
  match x with
  | S754_zero _ => Some 0%Q
  | S754_finite s m e => Some (inject_Z (cond_Zopp s (Z.pos m)) * 2 ^ e)%Q
  | _ => None
  end.

(** [a <= b] as real numbers, for finite [a] and [b]. *)
Definition finite_le (a b : double) : bool :=
  match double_value a, double_value b with
  | Some x, Some y => Qle_bool x y
  | _, _ => false
  end.

(** ** Handles and heap blocks *)

Definition addr : Type := N.
Definition NULL : addr := 0%N.

Inductive block (A : Type) : Type :=
| Live (obj : A)
| Freed (last : A).
Arguments Live {A} obj.
Arguments Freed {A} last.

(** ** [task.h] *)

(** [task_result_t]: the three tags of the enumeration; [TASK_RESULT_OTHER]
    stands for any other integer a callable may return. *)
Inductive task_result_t : Type :=
| TASK_RESULT_CONT
| TASK_RESULT_WAIT
| TASK_RESULT_DONE
| TASK_RESULT_OTHER (tag : Z).

(** [callable_func_t]: function pointers, named by a number. *)
Definition callable_func_t := nat.

Inductive pthread_mutex_t : Type := MutexUnlocked | MutexLocked | MutexDestroyed.

(** [task_t].  [task_args] is a [va_list*]: it names the activation frame
    whose local [va_list] it points to.  [task_delay] is the [double]
    parameter of [add_task], and [task_timestamp] holds what
    [get_current_time] returns, seconds as a [double]. *)
Record task_t : Type := Task {
  task_id : Z;
  task_func : callable_func_t;
  task_args : nat;
  task_delayable : bool;
  task_delay : double;
  task_timestamp : double;
  task_mutex : pthread_mutex_t
}.

(** [task_scheduler_t]. *)
Record task_scheduler_t : Type := Scheduler {
  scheduler_id : Z;
  scheduler_thread : option nat;
  scheduler_thread_attr : bool
}.

(** An activation frame of [add_task] with the variadic arguments its
    [va_list] ranges over. *)
Record frame_t : Type := Frame {
  frame_id : nat;
  frame_va : list Z
}.

(** One invocation of a callable by the dispatcher: the handle passed, the
    function called, and how many times the clock had been read by then. *)
Record event : Type := Invoked {
  ev_task : addr;
  ev_func : callable_func_t;
  ev_reads : nat
}.

(** ** [queue.h] *)

(** Modelled from the spec: [queue.c] is not among the sources.  The Ready
    Queue is "an ordered, growable sequence of task handles supporting
    push-to-front/back, pop-from-front, indexed lookup, identity-based
    removal, and emptiness check"; it "holds references only". *)
Definition queue_t := list addr.

(** Modelled from the spec: [queue_init], a new empty queue. *)
Definition queue_init : queue_t := [].

(** Modelled from the spec: [queue_get_empty], "is_empty() -> bool". *)
Definition queue_get_empty (q : queue_t) : bool :=
  match q with [] => true | _ => false end.

(** Modelled from the spec: [queue_pop_left], "pop_front() -> x | empty";
    on an empty queue the result is [NULL]. *)
Definition queue_pop_left (q : queue_t) : addr * queue_t :=
  match q with [] => (NULL, []) | x :: q' => (x, q') end.

(** Modelled from the spec: [queue_push_right], "push_back(x)". *)
Definition queue_push_right (q : queue_t) (x : addr) : queue_t := q ++ [x].

(** Modelled from the spec: the [max_index] field, the index of the last
    element (-1 when the queue is empty). *)
Definition max_index (q : queue_t) : Z := Z.of_nat (length q) - 1.

(** Modelled from the spec: [queue_get], "get(index) -> x"; [NULL] outside
    the queue. *)
Definition queue_get (q : queue_t) (i : Z) : addr :=
  if (0 <=? i) && (i <=? max_index q) then nth (Z.to_nat i) q NULL else NULL.

(** Modelled from the spec: [queue_get_index],
    "index_of(x) -> position | not-found" by identity; not-found is -1. *)
Fixpoint queue_get_index (q : queue_t) (x : addr) : Z :=
  match q with
  | [] => -1
  | y :: q' =>
      if N.eqb y x then 0
      else let i := queue_get_index q' x in if i =? -1 then -1 else i + 1
  end.

(** Modelled from the spec: [queue_remove_object],
    "remove(x) -> success | not-found" by identity.  The callers in
    [task.c] read a non-zero result as failure. *)
Fixpoint queue_remove_first (q : queue_t) (x : addr) : queue_t :=
  match q with
  | [] => []
  | y :: q' => if N.eqb y x then q' else y :: queue_remove_first q' x
  end.

Definition queue_remove_object (q : queue_t) (x : addr) : Z * queue_t :=
  if queue_get_index q x =? -1 then (1, q) else (0, queue_remove_first q x).

(** ** The process state *)

(** The five globals of [task.c], the heap with the highest address handed
    out so far, the call stack with the number of frames entered, and the
    bookkeeping of the environment: how often the clock was read, the
    threads [pthread_create] started (by the scheduler that owns them) and
    the invocations made by the dispatcher, latest first.  A queue global
    is [None] when it is [NULL] or points to a queue already released. *)
Record world : Type := World {
  taskmgr_next_task_id : Z;
  taskmgr_next_scheduler_id : Z;
  taskmgr_task_queue : option queue_t;
  taskmgr_scheduler_queue : option queue_t;
  taskmgr_running : bool;
  task_heap : gmap N (block task_t);
  scheduler_heap : gmap N (block task_scheduler_t);
  heap_top : N;
  call_stack : list frame_t;
  frame_count : nat;
  clock_reads : nat;
  threads : list addr;
  call_log : list event
}.

(** The state of a process at start-up ([task.c], lines 36-42). *)
Definition initial_world : world :=
  {| taskmgr_next_task_id := -1;
     taskmgr_next_scheduler_id := -1;
     taskmgr_task_queue := None;
     taskmgr_scheduler_queue := None;
     taskmgr_running := false;
     task_heap := ∅;
     scheduler_heap := ∅;
     heap_top := 0%N;
     call_stack := [];
     frame_count := 0%nat;
     clock_reads := 0%nat;
     threads := [];
     call_log := [] |}.

Definition set_next_task_id (v : Z) (w : world) : world :=
  World v (taskmgr_next_scheduler_id w) (taskmgr_task_queue w)
    (taskmgr_scheduler_queue w) (taskmgr_running w) (task_heap w)
    (scheduler_heap w) (heap_top w) (call_stack w) (frame_count w)
    (clock_reads w) (threads w) (call_log w).

Definition set_next_scheduler_id (v : Z) (w : world) : world :=
  World (taskmgr_next_task_id w) v (taskmgr_task_queue w)
    (taskmgr_scheduler_queue w) (taskmgr_running w) (task_heap w)
    (scheduler_heap w) (heap_top w) (call_stack w) (frame_count w)
    (clock_reads w) (threads w) (call_log w).

Definition set_task_queue (v : option queue_t) (w : world) : world :=
  World (taskmgr_next_task_id w) (taskmgr_next_scheduler_id w) v
    (taskmgr_scheduler_queue w) (taskmgr_running w) (task_heap w)
    (scheduler_heap w) (heap_top w) (call_stack w) (frame_count w)
    (clock_reads w) (threads w) (call_log w).

Definition set_scheduler_queue (v : option queue_t) (w : world) : world :=
  World (taskmgr_next_task_id w) (taskmgr_next_scheduler_id w)
    (taskmgr_task_queue w) v (taskmgr_running w) (task_heap w)
    (scheduler_heap w) (heap_top w) (call_stack w) (frame_count w)
    (clock_reads w) (threads w) (call_log w).

Definition set_running (v : bool) (w : world) : world :=
  World (taskmgr_next_task_id w) (taskmgr_next_scheduler_id w)
    (taskmgr_task_queue w) (taskmgr_scheduler_queue w) v (task_heap w)
    (scheduler_heap w) (heap_top w) (call_stack w) (frame_count w)
    (clock_reads w) (threads w) (call_log w).

Definition set_task_heap (v : gmap N (block task_t)) (w : world) : world :=
  World (taskmgr_next_task_id w) (taskmgr_next_scheduler_id w)
    (taskmgr_task_queue w) (taskmgr_scheduler_queue w) (taskmgr_running w) v
    (scheduler_heap w) (heap_top w) (call_stack w) (frame_count w)
    (clock_reads w) (threads w) (call_log w).

Definition set_scheduler_heap (v : gmap N (block task_scheduler_t)) (w : world)
  : world :=
  World (taskmgr_next_task_id w) (taskmgr_next_scheduler_id w)
    (taskmgr_task_queue w) (taskmgr_scheduler_queue w) (taskmgr_running w)
    (task_heap w) v (heap_top w) (call_stack w) (frame_count w)
    (clock_reads w) (threads w) (call_log w).

Definition set_heap_top (v : N) (w : world) : world :=
  World (taskmgr_next_task_id w) (taskmgr_next_scheduler_id w)
    (taskmgr_task_queue w) (taskmgr_scheduler_queue w) (taskmgr_running w)
    (task_heap w) (scheduler_heap w) v (call_stack w) (frame_count w)
    (clock_reads w) (threads w) (call_log w).

Definition set_call_stack (v : list frame_t) (w : world) : world :=
  World (taskmgr_next_task_id w) (taskmgr_next_scheduler_id w)
    (taskmgr_task_queue w) (taskmgr_scheduler_queue w) (taskmgr_running w)
    (task_heap w) (scheduler_heap w) (heap_top w) v (frame_count w)
    (clock_reads w) (threads w) (call_log w).

Definition set_frame_count (v : nat) (w : world) : world :=
  World (taskmgr_next_task_id w) (taskmgr_next_scheduler_id w)
    (taskmgr_task_queue w) (taskmgr_scheduler_queue w) (taskmgr_running w)
    (task_heap w) (scheduler_heap w) (heap_top w) (call_stack w) v
    (clock_reads w) (threads w) (call_log w).

Definition set_clock_reads (v : nat) (w : world) : world :=
  World (taskmgr_next_task_id w) (taskmgr_next_scheduler_id w)
    (taskmgr_task_queue w) (taskmgr_scheduler_queue w) (taskmgr_running w)
    (task_heap w) (scheduler_heap w) (heap_top w) (call_stack w)
    (frame_count w) v (threads w) (call_log w).

Definition set_threads (v : list addr) (w : world) : world :=
  World (taskmgr_next_task_id w) (taskmgr_next_scheduler_id w)
    (taskmgr_task_queue w) (taskmgr_scheduler_queue w) (taskmgr_running w)
    (task_heap w) (scheduler_heap w) (heap_top w) (call_stack w)
    (frame_count w) (clock_reads w) v (call_log w).

Definition set_call_log (v : list event) (w : world) : world :=
  World (taskmgr_next_task_id w) (taskmgr_next_scheduler_id w)
    (taskmgr_task_queue w) (taskmgr_scheduler_queue w) (taskmgr_running w)
    (task_heap w) (scheduler_heap w) (heap_top w) (call_stack w)
    (frame_count w) (clock_reads w) (threads w) v.

(** ** The monad of C computations *)

Definition M (A : Type) : Type := world -> option (A * world).

Definition ret {A} (a : A) : M A := fun w => Some (a, w).
Definition undefined {A} : M A := fun _ => None.
Definition bind {A B} (c : M A) (k : A -> M B) : M B :=
  fun w => match c w with
           | Some (a, w') => k a w'
           | None => None
           end.
Definition gets {A} (f : world -> A) : M A := fun w => Some (f w, w).
Definition modify (f : world -> world) : M unit := fun w => Some (tt, f w).

Notation "x <- c ;; k" := (bind c (fun x => k))
  (at level 62, c at next level, right associativity, only parsing).
Notation "c ;;; k" := (bind c (fun _ => k))
  (at level 62, right associativity, only parsing).

(** ** Memory *)

(** [*task] for reading: defined only while the block is live. *)
Definition load_task (p : addr) : M task_t :=
  fun w => match task_heap w !! p with
           | Some (Live t) => Some (t, w)
           | _ => None
           end.

(** [*task = t]. *)
Definition store_task (p : addr) (t : task_t) : M unit :=
  fun w => match task_heap w !! p with
           | Some (Live _) => Some (tt, set_task_heap (<[p := Live t]> (task_heap w)) w)
           | _ => None
           end.

Definition load_scheduler (p : addr) : M task_scheduler_t :=
  fun w => match scheduler_heap w !! p with
           | Some (Live s) => Some (s, w)
           | _ => None
           end.

Definition store_scheduler (p : addr) (s : task_scheduler_t) : M unit :=
  fun w => match scheduler_heap w !! p with
           | Some (Live _) =>
               Some (tt, set_scheduler_heap (<[p := Live s]> (scheduler_heap w)) w)
           | _ => None
           end.

(** [malloc(sizeof(task_t))] followed by the initialising stores. *)
Definition malloc_task (t : task_t) : M addr :=
  fun w => let p := N.succ (heap_top w) in
           Some (p, set_heap_top p
                      (set_task_heap (<[p := Live t]> (task_heap w)) w)).

Definition malloc_scheduler (s : task_scheduler_t) : M addr :=
  fun w => let p := N.succ (heap_top w) in
           Some (p, set_heap_top p
                      (set_scheduler_heap (<[p := Live s]> (scheduler_heap w)) w)).

(** [free(task)]. *)
Definition free_task_block (p : addr) : M unit :=
  fun w => match task_heap w !! p with
           | Some (Live t) => Some (tt, set_task_heap (<[p := Freed t]> (task_heap w)) w)
           | _ => None
           end.

Definition free_scheduler_block (p : addr) : M unit :=
  fun w => match scheduler_heap w !! p with
           | Some (Live s) =>
               Some (tt, set_scheduler_heap (<[p := Freed s]> (scheduler_heap w)) w)
           | _ => None
           end.

(** The queue behind [taskmgr_task_queue]. *)
Definition the_task_queue : M queue_t :=
  fun w => match taskmgr_task_queue w with
           | Some q => Some (q, w)
           | None => None
           end.

Definition the_scheduler_queue : M queue_t :=
  fun w => match taskmgr_scheduler_queue w with
           | Some q => Some (q, w)
           | None => None
           end.

(** [queue_push_right(taskmgr_task_queue, task)]. *)
Definition push_task (p : addr) : M unit :=
  q <- the_task_queue ;;
  modify (set_task_queue (Some (queue_push_right q p))).

Definition push_scheduler (p : addr) : M unit :=
  q <- the_scheduler_queue ;;
  modify (set_scheduler_queue (Some (queue_push_right q p))).

(** [queue_free]: releases the queue; undefined on a queue that is not
    there. *)
Definition queue_free_task_queue : M unit :=
  the_task_queue ;;; modify (set_task_queue None).

Definition queue_free_scheduler_queue : M unit :=
  the_scheduler_queue ;;; modify (set_scheduler_queue None).

(** What a [va_list] read through a [va_list*] ranges over: the variadic
    arguments of the frame while that frame is on the call stack, and
    nothing determinate ([None]) once it has returned. *)
Definition va_view (w : world) (k : nat) : option (list Z) :=
  frame_va <$> find (fun fr => Nat.eqb (frame_id fr) k) (call_stack w).

(** [va_copy(args, *task->args)]: the copy is indeterminate when the frame
    has returned. *)
Definition va_copy (k : nat) : M (option (list Z)) :=
  gets (fun w => va_view w k).

Definition with_mutex (m : pthread_mutex_t) (t : task_t) : task_t :=
  Task (task_id t) (task_func t) (task_args t) (task_delayable t)
       (task_delay t) (task_timestamp t) m.

Definition with_delayable (b : bool) (t : task_t) : task_t :=
  Task (task_id t) (task_func t) (task_args t) b
       (task_delay t) (task_timestamp t) (task_mutex t).

Definition with_timestamp (ts : double) (t : task_t) : task_t :=
  Task (task_id t) (task_func t) (task_args t) (task_delayable t)
       (task_delay t) ts (task_mutex t).

(** The four stores of [free_task] (lines 219-222). *)
Definition invalidate (t : task_t) : task_t :=
  Task (-1) (task_func t) (task_args t) false (double_of_Z 0) (double_of_Z 0)
       (task_mutex t).

Definition pthread_mutex_lock (p : addr) : M unit :=
  t <- load_task p ;;
  match task_mutex t with
  | MutexUnlocked => store_task p (with_mutex MutexLocked t)
  | _ => undefined
  end.

Definition pthread_mutex_unlock (p : addr) : M unit :=
  t <- load_task p ;;
  match task_mutex t with
  | MutexLocked => store_task p (with_mutex MutexUnlocked t)
  | _ => undefined
  end.

Definition pthread_mutex_destroy (p : addr) : M unit :=
  t <- load_task p ;;
  match task_mutex t with
  | MutexLocked => undefined
  | _ => store_task p (with_mutex MutexDestroyed t)
  end.

(** Outcome of the run loop: it returned [code], or it is still looping
    after the iterations observed. *)
Inductive run_result : Type :=
| Returned (code : Z)
| Looping.

Section TaskManager.

(** [clock n] is what the [n]-th call of [get_current_time] returns. *)
Variable clock : nat -> double.

(** [invoke f task args w] is what calling the function behind [f] with
    [(task, args)] in state [w] returns and the state it leaves; it is
    [None] when the call has no defined outcome: [f] is no function of the
    program, or the function reads an argument list that is indeterminate,
    or it does not return. *)
Variable invoke :
  callable_func_t -> addr -> option (list Z) -> world -> option (task_result_t * world).

Definition get_current_time : M double :=
  fun w => Some (clock (clock_reads w), set_clock_reads (S (clock_reads w)) w).

(** [task->func(task, args)], entered in the log. *)
Definition call (p : addr) (a : option (list Z)) : M task_result_t :=
  t <- load_task p ;;
  fun w =>
    invoke (task_func t) p a
      (set_call_log (Invoked p (task_func t) (clock_reads w) :: call_log w) w).

(** [taskmgr_init], lines 44-55. *)
Definition taskmgr_init : M Z :=
  running <- gets taskmgr_running ;;
  if (running : bool) then ret 1
  else
    modify (set_task_queue (Some queue_init)) ;;;
    modify (set_scheduler_queue (Some queue_init)) ;;;
    ret 0.

(** [free_task], lines 215-227.  The [va_end] of line 217 has no effect
    in the model. *)
Definition free_task (task : addr) : M Z :=
  t <- load_task task ;;
  store_task task (invalidate t) ;;;
  pthread_mutex_destroy task ;;;
  free_task_block task ;;;
  ret 0.

(** [taskmgr_tick], lines 57-106. *)
Definition taskmgr_tick : M Z :=
  q <- the_task_queue ;;
  if queue_get_empty q then ret 0
  else
    let (task, q') := queue_pop_left q in
    modify (set_task_queue (Some q')) ;;;
    if N.eqb task NULL then ret 1
    else
      t <- load_task task ;;
      early <- (if task_delayable t
                then now <- get_current_time ;;
                     ret (double_lt (double_sub now (task_timestamp t)) (task_delay t))
                else ret false) ;;
      if (early : bool) then push_task task ;;; ret 0
      else
        pthread_mutex_lock task ;;;
        t <- load_task task ;;
        args <- va_copy (task_args t) ;;
        result <- call task args ;;
        pthread_mutex_unlock task ;;;
        match result with
        | TASK_RESULT_CONT =>
            t <- load_task task ;;
            store_task task (with_delayable false t) ;;;
            push_task task ;;;
            ret 0
        | TASK_RESULT_WAIT =>
            t <- load_task task ;;
            store_task task (with_delayable true t) ;;;
            now <- get_current_time ;;
            t <- load_task task ;;
            store_task task (with_timestamp now t) ;;;
            push_task task ;;;
            ret 0
        | _ =>
            free_task task ;;;
            ret 0
        end.

(** The [while] loop of [taskmgr_run], observed for [n] iterations. *)
Fixpoint taskmgr_run_loop (n : nat) : M run_result :=
  match n with
  | O => ret Looping
  | S n' =>
      running <- gets taskmgr_running ;;
      if (running : bool) then
        r <- taskmgr_tick ;;
        if r =? 0 then taskmgr_run_loop n' else ret (Returned 1)
      else ret (Returned 0)
  end.

(** [taskmgr_run], lines 108-127. *)
Definition taskmgr_run (n : nat) : M run_result :=
  running <- gets taskmgr_running ;;
  if (running : bool) then ret (Returned 1)
  else
    modify (set_running true) ;;;
    taskmgr_run_loop n.

(** [taskmgr_scheduler_run], lines 129-133: the body of a scheduler
    thread; the result says whether the thread has returned ([NULL]). *)
Definition taskmgr_scheduler_run (n : nat) : M (option addr) :=
  r <- taskmgr_run n ;;
  match r with
  | Returned _ => ret (Some NULL)
  | Looping => ret None
  end.

(** [taskmgr_shutdown], lines 135-148. *)
Definition taskmgr_shutdown : M Z :=
  running <- gets taskmgr_running ;;
  if (running : bool) then
    modify (set_running false) ;;;
    queue_free_task_queue ;;;
    queue_free_scheduler_queue ;;;
    ret 0
  else ret 1.

(** [has_task], lines 150-153. *)
Definition has_task (task : addr) : M Z :=
  q <- the_task_queue ;;
  ret (if queue_get_index q task =? -1 then 0 else 1).

(** The [for] loop of [get_task_by_id]: [n] iterations are left, the next
    index is [i]. *)
Fixpoint get_task_by_id_loop (id : Z) (n : nat) (i : Z) : M addr :=
  match n with
  | O => ret NULL
  | S n' =>
      q <- the_task_queue ;;
      let task := queue_get q i in
      t <- load_task task ;;
      if task_id t =? id then ret task
      else get_task_by_id_loop id n' (i + 1)
  end.

(** [get_task_by_id], lines 180-191. *)
Definition get_task_by_id (id : Z) : M addr :=
  q <- the_task_queue ;;
  get_task_by_id_loop id (Z.to_nat (max_index q + 1)) 0.

(** [has_task_by_id], lines 155-158. *)
Definition has_task_by_id (id : Z) : M Z :=
  task <- get_task_by_id id ;;
  ret (if N.eqb task NULL then 0 else 1).

(** [add_task], lines 160-178, called with the variadic arguments [va]. *)
Definition add_task (func : callable_func_t) (delay : double) (va : list Z) : M addr :=
  k <- gets frame_count ;;
  modify (set_frame_count (S k)) ;;;
  stack <- gets call_stack ;;
  modify (set_call_stack (Frame k va :: stack)) ;;;
  next <- gets taskmgr_next_task_id ;;
  modify (set_next_task_id (int_wrap (next + 1))) ;;;
  id <- gets taskmgr_next_task_id ;;
  now <- get_current_time ;;
  task <- malloc_task (Task id func k true delay now MutexUnlocked) ;;
  push_task task ;;;
  modify (set_call_stack stack) ;;;
  ret task.

(** [remove_task], lines 193-202. *)
Definition remove_task (task : addr) : M Z :=
  q <- the_task_queue ;;
  let (r, q') := queue_remove_object q task in
  modify (set_task_queue (Some q')) ;;;
  if r =? 0 then free_task task ;;; ret 0
  else ret 1.

(** [remove_task_by_id], lines 204-213. *)
Definition remove_task_by_id (id : Z) : M Z :=
  task <- get_task_by_id id ;;
  if N.eqb task NULL then ret 1 else remove_task task.

(** [free_task_by_id], lines 229-238. *)
Definition free_task_by_id (id : Z) : M Z :=
  task <- get_task_by_id id ;;
  if N.eqb task NULL then ret 1 else free_task task.

(** [has_scheduler], lines 240-243. *)
Definition has_scheduler (task_scheduler : addr) : M Z :=
  q <- the_scheduler_queue ;;
  ret (if queue_get_index q task_scheduler =? -1 then 0 else 1).

Fixpoint get_scheduler_by_id_loop (id : Z) (n : nat) (i : Z) : M addr :=
  match n with
  | O => ret NULL
  | S n' =>
      q <- the_scheduler_queue ;;
      let task_scheduler := queue_get q i in
      s <- load_scheduler task_scheduler ;;
      if scheduler_id s =? id then ret task_scheduler
      else get_scheduler_by_id_loop id n' (i + 1)
  end.

(** [get_scheduler_by_id], lines 274-286. *)
Definition get_scheduler_by_id (id : Z) : M addr :=
  q <- the_scheduler_queue ;;
  get_scheduler_by_id_loop id (Z.to_nat (max_index q + 1)) 0.

(** [has_scheduler_by_id], lines 245-248. *)
Definition has_scheduler_by_id (id : Z) : M Z :=
  task_scheduler <- get_scheduler_by_id id ;;
  ret (if N.eqb task_scheduler NULL then 0 else 1).

(** [add_scheduler], lines 250-272.  [attr_ok] and [thread_ok] say whether
    [pthread_attr_init] and [pthread_create] succeed.  The new thread, whose
    body is [taskmgr_scheduler_run], is entered in [threads]. *)
Definition add_scheduler (attr_ok thread_ok : bool) : M addr :=
  next <- gets taskmgr_next_scheduler_id ;;
  modify (set_next_scheduler_id (int_wrap (next + 1))) ;;;
  id <- gets taskmgr_next_scheduler_id ;;
  task_scheduler <- malloc_scheduler (Scheduler id None false) ;;
  if negb attr_ok then ret NULL
  else
    store_scheduler task_scheduler (Scheduler id None true) ;;;
    if negb thread_ok then ret NULL
    else
      ths <- gets threads ;;
      modify (set_threads (ths ++ [task_scheduler])) ;;;
      store_scheduler task_scheduler (Scheduler id (Some (length ths)) true) ;;;
      push_scheduler task_scheduler ;;;
      ret task_scheduler.

(** [free_scheduler], lines 314-320. *)
Definition free_scheduler (task_scheduler : addr) : M Z :=
  s <- load_scheduler task_scheduler ;;
  store_scheduler task_scheduler (Scheduler (-1) (scheduler_thread s) false) ;;;
  free_scheduler_block task_scheduler ;;;
  ret 0.

(** [remove_scheduler], lines 288-301. *)
Definition remove_scheduler (task_scheduler : addr) : M Z :=
  q <- the_scheduler_queue ;;
  let (r, q') := queue_remove_object q task_scheduler in
  modify (set_scheduler_queue (Some q')) ;;;
  if r =? 0 then
    r' <- free_scheduler task_scheduler ;;
    if r' =? 0 then ret 0 else ret 1
  else ret 1.

(** [remove_scheduler_by_id], lines 303-312. *)
Definition remove_scheduler_by_id (id : Z) : M Z :=
  task_scheduler <- get_scheduler_by_id id ;;
  if N.eqb task_scheduler NULL then ret 1 else remove_scheduler task_scheduler.

(** [free_scheduler_by_id], lines 322-331. *)
Definition free_scheduler_by_id (id : Z) : M Z :=
  task_scheduler <- get_scheduler_by_id id ;;
  if N.eqb task_scheduler NULL then ret 1 else free_scheduler task_scheduler.

End TaskManager.

(** * Notions used in the statements *)

(** What the scan of [get_task_by_id] finds in the rest [q] of the queue:
    the first handle whose task has the id, [NULL] when there is none, and
    nothing when it steps on a handle whose block is not live. *)
Fixpoint scan_for_id (w : world) (id : Z) (q : queue_t) : option addr :=
  match q with
  | [] => Some NULL
  | p :: q' =>
      match task_heap w !! p with
      | Some (Live t) => if task_id t =? id then Some p else scan_for_id w id q'
      | _ => None
      end
  end.

(** [respects R c]: whenever [c] is defined, the states before and after
    are related by [R]. *)
Definition respects (R : relation world) {B} (c : M B) : Prop :=
  forall w b w', c w = Some (b, w') -> R w w'.

(** [keeps f]: the relation of leaving the observation [f] as it is. *)
Definition keeps {A} (f : world -> A) : relation world :=
  fun w w' => f w' = f w.

(** The state in which the dispatcher enters the callable of the task [t]
    it popped from the front of [task :: q']: the queue is [q'], the clock
    has been read if the task is delayable, the guard of the task is held
    and the invocation is logged. *)
Definition at_invocation (w : world) (task : addr) (q' : queue_t) (t : task_t)
  : world :=
  let reads := if task_delayable t then S (clock_reads w) else clock_reads w in
  set_call_log (Invoked task (task_func t) reads :: call_log w)
    (set_task_heap (<[task := Live (with_mutex MutexLocked t)]> (task_heap w))
       (set_clock_reads reads (set_task_queue (Some q') w))).

(** [n] calls of [taskmgr_tick] in a row, results ignored, as the poll loop
    of [net_run_server] makes them ([net.c], line 226). *)
Fixpoint drive_ticks (clock : nat -> double)
  (invoke : callable_func_t -> addr -> option (list Z) -> world
            -> option (task_result_t * world))
  (n : nat) : M unit :=
  match n with
  | O => ret tt
  | S n' => taskmgr_tick clock invoke ;;; drive_ticks clock invoke n'
  end.

(** A clock that advances by one second per reading, and callables that
    return the same tag whatever they are called with and touch nothing. *)
Definition second_clock (n : nat) : double := double_of_Z (Z.of_nat n).

Definition always (r : task_result_t)
  : callable_func_t -> addr -> option (list Z) -> world
    -> option (task_result_t * world) :=
  fun _ _ _ w => Some (r, w).


(** Callables that leave the state of the process as they found it,
    whenever they return. *)
Definition pure_callables
  (invoke : callable_func_t -> addr -> option (list Z) -> world
            -> option (task_result_t * world)) : Prop :=
  forall f p a v r v', invoke f p a v = Some (r, v') -> v' = v.

(** Callables that return whatever argument list they are passed, an
    indeterminate one included: they do not read it.  The argument list of
    a task made by [add_task] is indeterminate when the dispatcher calls
    it, so that a tick is defined only for such callables. *)
Definition returning_callables
  (invoke : callable_func_t -> addr -> option (list Z) -> world
            -> option (task_result_t * world)) : Prop :=
  forall f p a v, exists r v', invoke f p a v = Some (r, v').

(** The state after a due task [t], popped from [task :: q'], was run with
    result [result] by a callable that changes nothing. *)
Definition after_invocation (clock : nat -> double) (w : world) (task : addr)
  (q' : queue_t) (t : task_t) (result : task_result_t) : world :=
  let reads := if task_delayable t then S (clock_reads w) else clock_reads w in
  let log := Invoked task (task_func t) reads :: call_log w in
  match result with
  | TASK_RESULT_CONT =>
      set_call_log log
        (set_clock_reads reads
           (set_task_queue (Some (q' ++ [task]))
              (set_task_heap
                 (<[task := Live (with_delayable false t)]> (task_heap w)) w)))
  | TASK_RESULT_WAIT =>
      set_call_log log
        (set_clock_reads (S reads)
           (set_task_queue (Some (q' ++ [task]))
              (set_task_heap
                 (<[task := Live (with_timestamp (clock reads)
                                    (with_delayable true t))]> (task_heap w)) w)))
  | _ =>
      set_call_log log
        (set_clock_reads reads
           (set_task_queue (Some q')
              (set_task_heap
                 (<[task := Freed (with_mutex MutexDestroyed (invalidate t))]>
                    (task_heap w)) w)))
  end.

(** The four ways a tick can go when callables leave the state alone:
    nothing queued, a [NULL] handle at the front, a task that is not yet
    due, and a due task whose callable returned [result]. *)
Inductive tick_case (clock : nat -> double)
  (invoke : callable_func_t -> addr -> option (list Z) -> world
            -> option (task_result_t * world))
  (w : world) : Z -> world -> Prop :=
| tick_idle :
    taskmgr_task_queue w = Some [] ->
    tick_case clock invoke w 0 w
| tick_null q' :
    taskmgr_task_queue w = Some (NULL :: q') ->
    tick_case clock invoke w 1 (set_task_queue (Some q') w)
| tick_requeue task q' t :
    taskmgr_task_queue w = Some (task :: q') ->
    task <> NULL ->
    task_heap w !! task = Some (Live t) ->
    task_delayable t = true ->
    double_lt (double_sub (clock (clock_reads w)) (task_timestamp t))
      (task_delay t) = true ->
    tick_case clock invoke w 0
      (set_task_queue (Some (q' ++ [task]))
         (set_clock_reads (S (clock_reads w)) w))
| tick_run task q' t result :
    taskmgr_task_queue w = Some (task :: q') ->
    task <> NULL ->
    task_heap w !! task = Some (Live t) ->
    task_delayable t = false
      \/ double_lt (double_sub (clock (clock_reads w)) (task_timestamp t))
           (task_delay t) = false ->
    task_mutex t = MutexUnlocked ->
    invoke (task_func t) task (va_view w (task_args t)) (at_invocation w task q' t)
      = Some (result, at_invocation w task q' t) ->
    tick_case clock invoke w 0 (after_invocation clock w task q' t result).

(** The invocations of [task] in a piece of the log, latest first, each
    given by the number of clock readings made before it. *)
Definition invocations_of (task : addr) (log : list event) : list nat :=
  map ev_reads (List.filter (fun e => N.eqb (ev_task e) task) log).

(** [well_spaced clock D k0 rs]: [rs] lists invocations, latest first; the
    reading that precedes an invocation [r] is [clock (r - 1)] and the one
    that follows it is [clock r]; [clock k0] is the reading at creation.
    The [double] difference between the reading that precedes an
    invocation and the reading that follows the invocation before it (or
    the creation) is not below [D]. *)
Fixpoint well_spaced (clock : nat -> double) (D : double) (k0 : nat)
  (rs : list nat) : Prop :=
  match rs with
  | [] => True
  | r :: rest =>
      (hd k0 rest < r)%nat /\
      double_lt (double_sub (clock (r - 1)%nat) (clock (hd k0 rest))) D = false /\
      well_spaced clock D k0 rest
  end.

(** What holds of a task that always waits, in every state the dispatcher
    reaches: [log0] is the log and [k0] the reading at its creation. *)
Definition timer_invariant (clock : nat -> double) (f : callable_func_t)
  (D : double) (task : addr) (log0 : list event) (k0 : nat) (w : world) : Prop :=
  exists evs t,
    call_log w = evs ++ log0 /\
    task_heap w !! task = Some (Live t) /\
    task_func t = f /\
    task_delay t = D /\
    task_delayable t = true /\
    task_timestamp t = clock (hd k0 (invocations_of task evs)) /\
    (hd k0 (invocations_of task evs) < clock_reads w)%nat /\
    well_spaced clock D k0 (invocations_of task evs).

(** A call of one of the functions of [task.c]. *)
Inductive api_call : Type :=
| call_taskmgr_init
| call_taskmgr_tick
| call_taskmgr_run (iterations : nat)
| call_taskmgr_scheduler_run (iterations : nat)
| call_taskmgr_shutdown
| call_has_task (task : addr)
| call_has_task_by_id (id : Z)
| call_add_task (func : callable_func_t) (delay : double) (va : list Z)
| call_get_task_by_id (id : Z)
| call_remove_task (task : addr)
| call_remove_task_by_id (id : Z)
| call_free_task (task : addr)
| call_free_task_by_id (id : Z)
| call_has_scheduler (task_scheduler : addr)
| call_has_scheduler_by_id (id : Z)
| call_add_scheduler (attr_ok thread_ok : bool)
| call_get_scheduler_by_id (id : Z)
| call_remove_scheduler (task_scheduler : addr)
| call_remove_scheduler_by_id (id : Z)
| call_free_scheduler (task_scheduler : addr)
| call_free_scheduler_by_id (id : Z).

Definition perform (clock : nat -> double)
  (invoke : callable_func_t -> addr -> option (list Z) -> world
            -> option (task_result_t * world))
  (c : api_call) : M unit :=
  match c with
  | call_taskmgr_init => taskmgr_init ;;; ret tt
  | call_taskmgr_tick => taskmgr_tick clock invoke ;;; ret tt
  | call_taskmgr_run n => taskmgr_run clock invoke n ;;; ret tt
  | call_taskmgr_scheduler_run n => taskmgr_scheduler_run clock invoke n ;;; ret tt
  | call_taskmgr_shutdown => taskmgr_shutdown ;;; ret tt
  | call_has_task task => has_task task ;;; ret tt
  | call_has_task_by_id id => has_task_by_id id ;;; ret tt
  | call_add_task func delay va => add_task clock func delay va ;;; ret tt
  | call_get_task_by_id id => get_task_by_id id ;;; ret tt
  | call_remove_task task => remove_task task ;;; ret tt
  | call_remove_task_by_id id => remove_task_by_id id ;;; ret tt
  | call_free_task task => free_task task ;;; ret tt
  | call_free_task_by_id id => free_task_by_id id ;;; ret tt
  | call_has_scheduler s => has_scheduler s ;;; ret tt
  | call_has_scheduler_by_id id => has_scheduler_by_id id ;;; ret tt
  | call_add_scheduler attr_ok thread_ok => add_scheduler attr_ok thread_ok ;;; ret tt
  | call_get_scheduler_by_id id => get_scheduler_by_id id ;;; ret tt
  | call_remove_scheduler s => remove_scheduler s ;;; ret tt
  | call_remove_scheduler_by_id id => remove_scheduler_by_id id ;;; ret tt
  | call_free_scheduler s => free_scheduler s ;;; ret tt
  | call_free_scheduler_by_id id => free_scheduler_by_id id ;;; ret tt
  end.

Fixpoint perform_all (clock : nat -> double)
  (invoke : callable_func_t -> addr -> option (list Z) -> world
            -> option (task_result_t * world))
  (cs : list api_call) : M unit :=
  match cs with
  | [] => ret tt
  | c :: cs' => perform clock invoke c ;;; perform_all clock invoke cs'
  end.

(** The calls of [add_task], and of [add_scheduler], in a sequence. *)
Definition creates_task (c : api_call) : bool :=
  match c with call_add_task _ _ _ => true | _ => false end.

Definition creates_scheduler (c : api_call) : bool :=
  match c with call_add_scheduler _ _ => true | _ => false end.

Definition count_calls (P : api_call -> bool) (cs : list api_call) : Z :=
  Z.of_nat (length (List.filter P cs)).

(** [R] holds across every update of a field other than the two id
    counters. *)
Definition off_counters (R : relation world) : Prop :=
  (forall w v, R w (set_task_queue v w)) /\
  (forall w v, R w (set_scheduler_queue v w)) /\
  (forall w v, R w (set_running v w)) /\
  (forall w v, R w (set_task_heap v w)) /\
  (forall w v, R w (set_scheduler_heap v w)) /\
  (forall w v, R w (set_heap_top v w)) /\
  (forall w v, R w (set_call_stack v w)) /\
  (forall w v, R w (set_frame_count v w)) /\
  (forall w v, R w (set_clock_reads v w)) /\
  (forall w v, R w (set_threads v w)) /\
  (forall w v, R w (set_call_log v w)).

(** [n] calls of [add_task] with the same callable, delay and arguments;
    the handles in the order of creation. *)
Fixpoint add_tasks (clock : nat -> double) (func : callable_func_t) (delay : double)
  (va : list Z) (n : nat) : M (list addr) :=
  match n with
  | O => ret []
  | S n' =>
      task <- add_task clock func delay va ;;
      rest <- add_tasks clock func delay va n' ;;
      ret (task :: rest)
  end.

(** The Ready Queue is [ps], without repetition, and holds live tasks of
    callable [f] with delay 0 whose guard is free and whose timestamp is a
    clock reading made since the [r0]-th; one more reading per queued task
    stays below the [B]-th. *)
Definition done_queue (clock : nat -> double) (f : callable_func_t)
  (r0 B : nat) (ps : list addr) (w : world) : Prop :=
  taskmgr_task_queue w = Some ps /\
  NoDup ps /\
  (clock_reads w + length ps <= B)%nat /\
  forall p, In p ps ->
    p <> NULL /\
    exists t, task_heap w !! p = Some (Live t) /\
              task_func t = f /\
              task_mutex t = MutexUnlocked /\
              task_delay t = double_of_Z 0 /\
              exists j, (r0 <= j < clock_reads w)%nat /\
                        task_timestamp t = clock j.

(** The state a computation leaves (the given state if it is undefined). *)
Definition state_after {A} (c : M A) (w : world) : world :=
  match c w with
  | Some (_, w') => w'
  | None => w
  end.

(** After [taskmgr_init()] in a fresh process. *)
Definition started_world : world := state_after taskmgr_init initial_world.

(** After [add_task(f0, delay)] in [started_world]: the task has handle 1
    and id 0, and was stamped with the first clock reading. *)
Definition one_task_world (delay : double) : world :=
  state_after (add_task second_clock 0%nat delay []) started_world.

Definition first_task (delay : double) : task_t :=
  Task 0 0%nat 0%nat true delay (second_clock 0) MutexUnlocked.

(** The state in which [add_task(f0, delay, 42)], called in
    [started_world], is about to return: the task is queued already and
    the frame of the call is still on the stack.  This is how a scheduler
    thread finds the task if it pops it at once. *)
Definition returning_add_task_world (delay : double) : world :=
  set_call_stack [Frame 0 [42]]
    (state_after (add_task second_clock 0%nat delay [42]) started_world).

(** A callable that reads its first argument: it is done when that is 42
    and continues otherwise; on an indeterminate argument list the call has
    no defined outcome. *)
Definition done_on_42
  : callable_func_t -> addr -> option (list Z) -> world
    -> option (task_result_t * world) :=
  fun _ _ a w =>
    match a with
    | Some (42 :: _) => Some (TASK_RESULT_DONE, w)
    | Some _ => Some (TASK_RESULT_CONT, w)
    | None => None
    end.

(** The id stored behind a task handle, when its block is live. *)
Definition id_of (w : world) (p : addr) : option Z :=
  match task_heap w !! p with
  | Some (Live t) => Some (task_id t)
  | _ => None
  end.

Definition scheduler_id_of (w : world) (s : addr) : option Z :=
  match scheduler_heap w !! s with
  | Some (Live x) => Some (scheduler_id x)
  | _ => None
  end.

(** The Ready Queue is in place and in order: its handles are pairwise
    distinct, none is [NULL] or above the highest address handed out, each
    is a live task whose guard is free, and the ids of these tasks are
    pairwise distinct and lie between 0 and the counter. *)
Definition tasks_tidy (w : world) : Prop :=
  exists q,
    taskmgr_task_queue w = Some q /\
    NoDup (id_of w <$> q) /\
    -1 <= taskmgr_next_task_id w /\
    forall p, In p q ->
      p <> NULL /\ (p <= heap_top w)%N /\
      exists t, task_heap w !! p = Some (Live t) /\
                task_mutex t = MutexUnlocked /\
                0 <= task_id t <= taskmgr_next_task_id w.

(** The same of the Scheduler registry. *)
Definition schedulers_tidy (w : world) : Prop :=
  exists q,
    taskmgr_scheduler_queue w = Some q /\
    NoDup (scheduler_id_of w <$> q) /\
    -1 <= taskmgr_next_scheduler_id w /\
    forall s, In s q ->
      s <> NULL /\ (s <= heap_top w)%N /\
      exists x, scheduler_heap w !! s = Some (Live x) /\
                0 <= scheduler_id x <= taskmgr_next_scheduler_id w.

(** A state in which no run loop is active and both queues are tidy. *)
Definition tidy (w : world) : Prop :=
  taskmgr_running w = false /\ tasks_tidy w /\ schedulers_tidy w.

(** What an operation on tasks leaves alone: the Scheduler registry with
    its records and counter, the started threads and the running flag. *)
Definition scheduler_side (w : world) :=
  (taskmgr_scheduler_queue w, scheduler_heap w, taskmgr_next_scheduler_id w,
   threads w, taskmgr_running w).

(** What an operation on schedulers leaves alone: the Ready Queue with the
    task records and counter, the clock, the log and the running flag. *)
Definition task_side (w : world) :=
  (taskmgr_task_queue w, task_heap w, taskmgr_next_task_id w,
   clock_reads w, call_log w, taskmgr_running w).

(** The handles [q] are live tasks, none [NULL], that are not delayable,
    whose guard is free and whose callable returns CONTINUE and leaves the
    state alone. *)
Definition continuing
  (invoke : callable_func_t -> addr -> option (list Z) -> world
            -> option (task_result_t * world))
  (q : queue_t) (w : world) : Prop :=
  forall p, In p q ->
    p <> NULL /\
    exists t, task_heap w !! p = Some (Live t) /\
              task_delayable t = false /\
              task_mutex t = MutexUnlocked /\
              forall a v, invoke (task_func t) p a v = Some (TASK_RESULT_CONT, v).

(** What the scan of [get_scheduler_by_id] finds in the rest [q] of the
    registry (see [scan_for_id]). *)
Fixpoint scan_for_scheduler_id (w : world) (id : Z) (q : queue_t) : option addr :=
  match q with
  | [] => Some NULL
  | s :: q' =>
      match scheduler_heap w !! s with
      | Some (Live x) =>
          if scheduler_id x =? id then Some s else scan_for_scheduler_id w id q'
      | _ => None
      end
  end.

(** Callables that call [taskmgr_shutdown] and return [r]. *)
Definition shutting_down (r : task_result_t)
  : callable_func_t -> addr -> option (list Z) -> world
    -> option (task_result_t * world) :=
  fun _ _ _ w => Some (r, state_after taskmgr_shutdown w).

(** * [net.c]: the server switch and the resync task *)

(** The globals of [net.c] (lines 45-49) on top of the task manager, and
    the number of server threads [net_start_server] has started. *)
Record net_world : Type := NetWorld {
  tm : world;
  g_net_server_running : bool;
  g_net_seed_mode : Z;
  g_net_gossip : addr;
  g_net_resync_chain_task : addr;
  net_threads : nat
}.

Definition NM (A : Type) : Type := net_world -> option (A * net_world).

(** A call into [task.c] from [net.c]. *)
Definition in_tm {A} (c : M A) : NM A :=
  fun nw =>
    match c (tm nw) with
    | Some (a, w') =>
        Some (a, NetWorld w' (g_net_server_running nw) (g_net_seed_mode nw)
                   (g_net_gossip nw) (g_net_resync_chain_task nw) (net_threads nw))
    | None => None
    end.

Section NetServer.

Variable clock : nat -> double.

(** [RESYNC_CHAIN_TASK_DELAY], a constant of [net.h], and the function
    pointer [resync_chain]. *)
Variable RESYNC_CHAIN_TASK_DELAY : double.
Variable resync_chain : callable_func_t.

(** [net_run_server], lines 147-239: the poll loop over the gossip
    library, which is not part of the model. *)
Variable net_run_server : NM Z.

(** [net_start_server], lines 247-269.  [pthread_create] of the server
    thread is counted in [net_threads]. *)
Definition net_start_server (threaded : bool) (seed_mode : Z) : NM Z :=
  fun nw =>
    if g_net_server_running nw then Some (1, nw)
    else
      match in_tm (add_task clock resync_chain RESYNC_CHAIN_TASK_DELAY [])
              (NetWorld (tm nw) true seed_mode (g_net_gossip nw)
                 (g_net_resync_chain_task nw) (net_threads nw)) with
      | Some (task, nw1) =>
          let nw2 := NetWorld (tm nw1) (g_net_server_running nw1)
                       (g_net_seed_mode nw1) (g_net_gossip nw1) task
                       (net_threads nw1) in
          if threaded then
            Some (0, NetWorld (tm nw2) (g_net_server_running nw2)
                       (g_net_seed_mode nw2) (g_net_gossip nw2)
                       (g_net_resync_chain_task nw2) (S (net_threads nw2)))
          else net_run_server nw2
      | None => None
      end.

(** [net_stop_server], lines 271-278. *)
Definition net_stop_server : NM unit :=
  fun nw =>
    if g_net_server_running nw then
      Some (tt, NetWorld (tm nw) false (g_net_seed_mode nw) (g_net_gossip nw)
                  (g_net_resync_chain_task nw) (net_threads nw))
    else Some (tt, nw).

End NetServer.

(** [resync_chain], lines 280-284, as the dispatcher sees it: it returns
    WAIT, and the broadcast it makes does not touch the task manager. *)
Definition resync_chain_waits
  (invoke : callable_func_t -> addr -> option (list Z) -> world
            -> option (task_result_t * world))
  (resync_chain : callable_func_t) : Prop :=
  forall p a v, invoke resync_chain p a v = Some (TASK_RESULT_WAIT, v).

(** * Properties *)

(** ** Basic facts about the model *)

Lemma iter_xO_pow (m d : positive) :
  Z.pos (Pos.iter xO m d) = Z.pos m * 2 ^ Z.pos d.
Proof.
  induction d as [|d IH] using Pos.peano_ind.
  - simpl. lia.
  - rewrite Pos.iter_succ, Pos2Z.inj_succ, Z.pow_succ_r by lia.
    rewrite Pos2Z.inj_xO, IH. ring.
Qed.

Lemma shl_align_value (m : positive) (e ez : Z) :
  ez <= e -> Z.pos (fst (shl_align m e ez)) = Z.pos m * 2 ^ (e - ez).
Proof.
  intros H. unfold shl_align.
  destruct (ez - e) as [|d|d] eqn:E; simpl.
  - replace (e - ez) with 0 by lia. rewrite Z.pow_0_r. lia.
  - lia.
  - replace (e - ez) with (Z.pos d) by lia. apply iter_xO_pow.
Qed.

(** The value of a finite double, read at a smaller exponent. *)
Lemma aligned_value (s : bool) (m : positive) (e ez : Z) :
  ez <= e ->
  (inject_Z (cond_Zopp s (Z.pos m)) * 2 ^ e
   == inject_Z (cond_Zopp s (Z.pos (fst (shl_align m e ez)))) * 2 ^ ez)%Q.
Proof.
  intros H. rewrite (shl_align_value m e ez H).
  replace (cond_Zopp s (Z.pos m * 2 ^ (e - ez)))
    with (cond_Zopp s (Z.pos m) * 2 ^ (e - ez))
    by (unfold cond_Zopp; destruct s; ring).
  rewrite inject_Z_mult, Zpower_Qpower by lia.
  replace e with ((e - ez) + ez) at 1 by lia.
  rewrite Qpower_plus by discriminate.
  change (inject_Z 2) with 2%Q. ring.
Qed.

(** Rounding keeps the sign. *)
Lemma binary_round_sign (s : bool) (m : positive) (e : Z) :
  match binary_round 53 1024 s m e with
  | S754_zero s' | S754_infinity s' | S754_finite s' _ _ => s' = s
  | S754_nan => True
  end.
Proof.
  unfold binary_round, binary_round_aux.
  destruct (shl_align m e _) as [mz ez].
  destruct (shr_fexp 53 1024 (Z.pos mz) ez loc_Exact) as [mrs1 e1].
  destruct (shr_fexp 53 1024 _ e1 loc_Exact) as [mrs2 e2].
  destruct (shr_m mrs2); [reflexivity | | exact I].
  destruct (e2 <=? 1024 - 53); reflexivity.
Qed.

Lemma not_negative_not_lt_zero (x : double) :
  match x with
  | S754_zero _ | S754_nan => True
  | S754_infinity s | S754_finite s _ _ => s = false
  end ->
  double_lt x (double_of_Z 0) = false.
Proof. destruct x as [s|s| |s m e]; simpl; intros H; subst; reflexivity. Qed.

(** When the clock has not run backwards between two finite readings, the
    elapsed time the dispatcher computes is not below zero. *)
Lemma double_sub_not_negative (a b : double) :
  finite_le b a = true -> double_lt (double_sub a b) (double_of_Z 0) = false.
Proof.
  unfold finite_le. intros H. apply not_negative_not_lt_zero.
  destruct a as [sa|sa| |sa ma ea], b as [sb|sb| |sb mb eb];
    simpl in H; try discriminate.
  - simpl. destruct sa, sb; exact I.
  - simpl. apply Qle_bool_iff in H. destruct sb; [reflexivity|]. exfalso.
    assert (0 < 2 ^ eb)%Q by (apply Qpower_0_lt; reflexivity).
    assert (0 < inject_Z (Z.pos mb))%Q by reflexivity.
    change (cond_Zopp false (Z.pos mb)) with (Z.pos mb) in H. nra.
  - simpl. apply Qle_bool_iff in H. destruct sa; [|reflexivity]. exfalso.
    assert (0 < 2 ^ ea)%Q by (apply Qpower_0_lt; reflexivity).
    assert (inject_Z (Z.neg ma) < 0)%Q by reflexivity.
    change (cond_Zopp true (Z.pos ma)) with (Z.neg ma) in H. nra.
  - apply Qle_bool_iff in H.
    unfold double_sub, SFsub.
    set (ez := Z.min ea eb).
    rewrite (aligned_value sa ma ea ez), (aligned_value sb mb eb ez) in H
      by (subst ez; lia).
    set (A := cond_Zopp sa (Z.pos (fst (shl_align ma ea ez)))) in *.
    set (B := cond_Zopp sb (Z.pos (fst (shl_align mb eb ez)))) in *.
    assert (Hpow : (0 < 2 ^ ez)%Q) by (apply Qpower_0_lt; reflexivity).
    assert (HAB : (inject_Z B <= inject_Z A)%Q) by nra.
    rewrite <- Zle_Qle in HAB.
    unfold binary_normalize.
    destruct (A - B) as [|p|p] eqn:E; [exact I | | lia].
    pose proof (binary_round_sign false p ez) as Hs.
    destruct (binary_round 53 1024 false p ez); auto.
Qed.

Lemma finite_le_trans (a b c : double) :
  finite_le a b = true -> finite_le b c = true -> finite_le a c = true.
Proof.
  unfold finite_le.
  destruct (double_value a), (double_value b), (double_value c);
    try discriminate.
  rewrite !Qle_bool_iff. apply Qle_trans.
Qed.

Lemma set_task_queue_same w v :
  taskmgr_task_queue w = v -> set_task_queue v w = w.
Proof. destruct w; simpl; intros ->; reflexivity. Qed.

Lemma int_wrap_small z : INT_MIN <= z <= INT_MAX -> int_wrap z = z.
Proof.
  unfold INT_MIN, INT_MAX, int_wrap. intros H.
  rewrite Z.mod_small by lia. lia.
Qed.

Lemma int_wrap_range z : INT_MIN <= int_wrap z <= INT_MAX.
Proof.
  unfold INT_MIN, INT_MAX, int_wrap.
  pose proof (Z.mod_pos_bound (z + 2147483648) 4294967296). lia.
Qed.

(** Unfolding of the monad. *)
Ltac monad_unfold :=
  unfold bind, ret, gets, modify, undefined in *.

(** ** The queue *)

Lemma queue_get_index_range q x : -1 <= queue_get_index q x.
Proof.
  induction q as [|y q IH]; simpl; [lia|].
  destruct (N.eqb y x); [lia|].
  destruct (Z.eqb_spec (queue_get_index q x) (-1)); lia.
Qed.

Lemma queue_get_index_absent q x :
  queue_get_index q x = -1 <-> ~ In x q.
Proof.
  induction q as [|y q IH]; simpl.
  - split; [tauto | reflexivity].
  - destruct (N.eqb_spec y x) as [->|Hne].
    + split; [lia | tauto].
    + pose proof (queue_get_index_range q x).
      destruct (Z.eqb_spec (queue_get_index q x) (-1)) as [E|E].
      * split; [|reflexivity]. intros _ [H'|H']; [congruence | tauto].
      * split; [lia|]. intros Hn. exfalso. apply E, IH. tauto.
Qed.

Lemma queue_get_nth q (i : nat) :
  (i < length q)%nat -> queue_get q (Z.of_nat i) = nth i q NULL.
Proof.
  intros H. unfold queue_get, max_index.
  replace (0 <=? Z.of_nat i) with true by (symmetry; apply Z.leb_le; lia).
  replace (Z.of_nat i <=? Z.of_nat (length q) - 1) with true
    by (symmetry; apply Z.leb_le; lia).
  simpl. rewrite Nat2Z.id. reflexivity.
Qed.

(** ** Lookup by id *)

Lemma get_task_by_id_loop_scan w id q :
  taskmgr_task_queue w = Some q ->
  forall suf pre,
    q = pre ++ suf ->
    get_task_by_id_loop id (length suf) (Z.of_nat (length pre)) w
    = (fun p => (p, w)) <$> scan_for_id w id suf.
Proof.
  intros Hq. induction suf as [|p suf IH]; intros pre Heq.
  - reflexivity.
  - simpl. monad_unfold. unfold the_task_queue, load_task. rewrite Hq.
    rewrite queue_get_nth by (subst q; rewrite length_app; simpl; lia).
    subst q. rewrite app_nth2 by lia. rewrite Nat.sub_diag. simpl.
    destruct (task_heap w !! p) as [[t|t]|]; try reflexivity.
    destruct (task_id t =? id); [reflexivity|].
    specialize (IH (pre ++ [p])).
    rewrite length_app in IH. simpl in IH.
    replace (Z.of_nat (length pre) + 1) with (Z.of_nat (length pre + 1)) by lia.
    apply IH. rewrite <- app_assoc. reflexivity.
Qed.

Lemma get_task_by_id_scan w id q :
  taskmgr_task_queue w = Some q ->
  get_task_by_id id w = (fun p => (p, w)) <$> scan_for_id w id q.
Proof.
  intros Hq.
  unfold get_task_by_id. monad_unfold. unfold the_task_queue at 1. rewrite Hq.
  unfold max_index.
  replace (Z.to_nat (Z.of_nat (length q) - 1 + 1)) with (length q) by lia.
  apply (get_task_by_id_loop_scan w id q Hq q []). reflexivity.
Qed.

(** ** Relating the state before and after a computation *)

#[local] Instance keeps_preorder {A} (f : world -> A) : PreOrder (keeps f).
Proof.
  split.
  - intros w. reflexivity.
  - intros a b c Hab Hbc. unfold keeps in *. congruence.
Qed.

Section Respects.
Context (R : relation world) `{!PreOrder R}.

Lemma respects_ret {B} (b : B) : respects R (ret b).
Proof. intros w b' w' [= _ <-]. reflexivity. Qed.

Lemma respects_undefined {B} : respects R (@undefined B).
Proof. intros w b w' [=]. Qed.

Lemma respects_gets {B} (f : world -> B) : respects R (gets f).
Proof. intros w b' w' [= _ <-]. reflexivity. Qed.

Lemma respects_modify (g : world -> world) :
  (forall w, R w (g w)) -> respects R (modify g).
Proof. intros H w b' w' [= _ <-]. apply H. Qed.

Lemma respects_bind {A B} (c : M A) (k : A -> M B) :
  respects R c -> (forall a, respects R (k a)) -> respects R (bind c k).
Proof.
  intros Hc Hk w b w'. unfold bind.
  destruct (c w) as [[a w1]|] eqn:E; [|discriminate].
  intros H. transitivity w1; [eapply Hc | eapply Hk]; eassumption.
Qed.

Lemma respects_state {B} (c : M B) :
  (forall w b w', c w = Some (b, w') -> R w w') -> respects R c.
Proof. intros H. exact H. Qed.
End Respects.

(** Breaks a computation into its primitive steps. *)
Ltac respects_steps :=
  repeat match goal with
    | |- respects _ (ret _) => apply respects_ret; [typeclasses eauto]
    | |- respects _ undefined => apply respects_undefined
    | |- respects _ (gets _) => apply respects_gets; [typeclasses eauto]
    | |- respects _ (bind _ _) =>
        apply respects_bind; [typeclasses eauto | | intros ?]
    | |- respects _ (if ?b then _ else _) => destruct b
    | |- respects _ (match ?x with _ => _ end) => destruct x
    | |- respects _ (let (_, _) := ?x in _) => destruct x
    end.

(** The primitive steps that touch one part of the state. *)
Lemma load_task_state p w t w' : load_task p w = Some (t, w') -> w' = w.
Proof.
  unfold load_task. destruct (task_heap w !! p) as [[?|?]|]; congruence.
Qed.

Lemma load_scheduler_state p w t w' :
  load_scheduler p w = Some (t, w') -> w' = w.
Proof.
  unfold load_scheduler. destruct (scheduler_heap w !! p) as [[?|?]|]; congruence.
Qed.

Lemma the_task_queue_state w q w' : the_task_queue w = Some (q, w') -> w' = w.
Proof. unfold the_task_queue. destruct (taskmgr_task_queue w); congruence. Qed.

Lemma the_scheduler_queue_state w q w' :
  the_scheduler_queue w = Some (q, w') -> w' = w.
Proof.
  unfold the_scheduler_queue. destruct (taskmgr_scheduler_queue w); congruence.
Qed.

Lemma store_task_state p t w u w' :
  store_task p t w = Some (u, w') ->
  w' = set_task_heap (<[p := Live t]> (task_heap w)) w.
Proof.
  unfold store_task. destruct (task_heap w !! p) as [[?|?]|]; congruence.
Qed.

Lemma free_task_block_state p w u w' :
  free_task_block p w = Some (u, w') ->
  exists t, w' = set_task_heap (<[p := Freed t]> (task_heap w)) w.
Proof.
  unfold free_task_block. destruct (task_heap w !! p) as [[?|?]|]; try congruence.
  intros [= _ <-]. eauto.
Qed.

Lemma store_scheduler_state p s w u w' :
  store_scheduler p s w = Some (u, w') ->
  w' = set_scheduler_heap (<[p := Live s]> (scheduler_heap w)) w.
Proof.
  unfold store_scheduler. destruct (scheduler_heap w !! p) as [[?|?]|]; congruence.
Qed.

Lemma free_scheduler_block_state p w u w' :
  free_scheduler_block p w = Some (u, w') ->
  exists s, w' = set_scheduler_heap (<[p := Freed s]> (scheduler_heap w)) w.
Proof.
  unfold free_scheduler_block.
  destruct (scheduler_heap w !! p) as [[?|?]|]; try congruence.
  intros [= _ <-]. eauto.
Qed.

(** Closes [respects R c] for a primitive [c], given that [R] holds
    across every single field update ([solve_field]). *)
Ltac respects_prim solve_field :=
  lazymatch goal with
  | |- respects _ (load_task _) =>
      intros ? ? ? ->%load_task_state; reflexivity
  | |- respects _ (load_scheduler _) =>
      intros ? ? ? ->%load_scheduler_state; reflexivity
  | |- respects _ the_task_queue =>
      intros ? ? ? ->%the_task_queue_state; reflexivity
  | |- respects _ the_scheduler_queue =>
      intros ? ? ? ->%the_scheduler_queue_state; reflexivity
  | |- respects _ (store_task _ _) =>
      intros ? ? ? ->%store_task_state; solve_field
  | |- respects _ (store_scheduler _ _) =>
      intros ? ? ? ->%store_scheduler_state; solve_field
  | |- respects _ (free_task_block _) =>
      intros ? ? ? [? ->]%free_task_block_state; solve_field
  | |- respects _ (free_scheduler_block _) =>
      intros ? ? ? [? ->]%free_scheduler_block_state; solve_field
  | |- respects _ (malloc_task _) =>
      intros ? ? ? [= _ <-]; solve_field
  | |- respects _ (malloc_scheduler _) =>
      intros ? ? ? [= _ <-]; solve_field
  | |- respects _ (modify _) =>
      apply respects_modify; intros ?; solve_field
  end.

Ltac respects_auto solve_field :=
  respects_steps; try (respects_prim solve_field).

(** ** Life-cycle guards *)

(** C9, as amended.  The guard of [taskmgr_init] is the running flag,
    which only [taskmgr_run] sets: called while a run loop is active,
    [taskmgr_init] returns 1, and [taskmgr_shutdown] called while none is
    active returns 1; either call is defined (nothing fatal happens) and
    leaves the whole state, the two queues and the flag included, as it
    was.  Whenever no run loop is active, an initialised manager included,
    [taskmgr_init] returns 0 and installs two new empty queues in place of
    the ones there were, leaving everything else as it was. *)
Theorem taskmgr_init_shutdown_guard (w : world) :
  (taskmgr_running w = true ->
     taskmgr_init w = Some (1, w)) /\
  (taskmgr_running w = false ->
     taskmgr_shutdown w = Some (1, w)) /\
  (taskmgr_running w = false ->
     taskmgr_init w
     = Some (0, set_scheduler_queue (Some []) (set_task_queue (Some []) w))).
Proof.
  split; [|split]; intros H.
  - unfold taskmgr_init. monad_unfold. rewrite H. reflexivity.
  - unfold taskmgr_shutdown. monad_unfold. rewrite H. reflexivity.
  - unfold taskmgr_init. monad_unfold. rewrite H. reflexivity.
Qed.

(** C9, counterexample.  [taskmgr_init] is no guard against a second
    initialisation: after [taskmgr_init(); add_task(f, 0.0)] a second
    [taskmgr_init()] reports success (0) and changes the state: the Ready
    Queue that held the task is replaced by an empty one, while the task
    stays allocated. *)
Lemma second_taskmgr_init_succeeds :
  exists task w1 w2 t,
    (taskmgr_init ;;; add_task second_clock 0%nat (double_of_Z 0) []) initial_world
      = Some (task, w1) /\
    taskmgr_running w1 = false /\
    taskmgr_task_queue w1 = Some [task] /\
    taskmgr_init w1 = Some (0, w2) /\
    w2 <> w1 /\
    taskmgr_task_queue w2 = Some [] /\
    task_heap w2 !! task = Some (Live t) /\
    has_task task w2 = Some (0, w2).
Proof.
  let r := eval vm_compute in
      ((taskmgr_init ;;; add_task second_clock 0%nat (double_of_Z 0) [])
         initial_world) in
  lazymatch r with
  | Some (?task, ?w1) =>
      let r2 := eval vm_compute in (taskmgr_init w1) in
      lazymatch r2 with
      | Some (_, ?w2) =>
          let b := eval vm_compute in (task_heap w2 !! task) in
          lazymatch b with
          | Some (Live ?t) => exists task, w1, w2, t
          end
      end
  end.
  split; [vm_compute; reflexivity|].
  split; [reflexivity|]. split; [reflexivity|].
  split; [vm_compute; reflexivity|].
  split; [intros E; apply (f_equal taskmgr_task_queue) in E; discriminate E|].
  split; [reflexivity|].
  split; vm_compute; reflexivity.
Qed.

Lemma taskmgr_init_shutdown_guard_witness :
  taskmgr_init
    (state_after (taskmgr_run second_clock (always TASK_RESULT_CONT) 3)
       (one_task_world (double_of_Z 0)))
    = Some (1, state_after (taskmgr_run second_clock (always TASK_RESULT_CONT) 3)
                 (one_task_world (double_of_Z 0)))
  /\ taskmgr_shutdown (one_task_world (double_of_Z 0))
     = Some (1, one_task_world (double_of_Z 0))
  /\ taskmgr_init (one_task_world (double_of_Z 0))
     = Some (0, set_scheduler_queue (Some [])
                  (set_task_queue (Some []) (one_task_world (double_of_Z 0)))).
Proof.
  split; [|split].
  - apply (proj1 (taskmgr_init_shutdown_guard
                    (state_after
                       (taskmgr_run second_clock (always TASK_RESULT_CONT) 3)
                       (one_task_world (double_of_Z 0))))).
    vm_compute. reflexivity.
  - apply (proj1 (proj2 (taskmgr_init_shutdown_guard
                           (one_task_world (double_of_Z 0))))).
    vm_compute. reflexivity.
  - apply (proj2 (proj2 (taskmgr_init_shutdown_guard
                           (one_task_world (double_of_Z 0))))).
    vm_compute. reflexivity.
Defined.

Lemma add_scheduler_running attr_ok thread_ok :
  respects (keeps taskmgr_running) (add_scheduler attr_ok thread_ok).
Proof.
  unfold add_scheduler, push_scheduler.
  respects_auto ltac:(unfold keeps; reflexivity).
Qed.

(** C7.  Called while the running flag is set, [taskmgr_run] returns 1 with
    the state untouched, before the first iteration of its loop (the result
    is there however few iterations are observed, none included): no tick is
    executed.  Hence the body [taskmgr_scheduler_run] of a scheduler thread
    that starts while a run loop is active returns at once, and so does the
    thread of a scheduler that [add_scheduler] creates in such a state. *)
Theorem taskmgr_run_while_running
  (clock : nat -> double)
  (invoke : callable_func_t -> addr -> option (list Z) -> world
            -> option (task_result_t * world))
  (n : nat) (w : world) :
  taskmgr_running w = true ->
  taskmgr_run clock invoke n w = Some (Returned 1, w) /\
  taskmgr_scheduler_run clock invoke n w = Some (Some NULL, w) /\
  (forall attr_ok thread_ok h w',
      add_scheduler attr_ok thread_ok w = Some (h, w') ->
      taskmgr_run clock invoke n w' = Some (Returned 1, w') /\
      taskmgr_scheduler_run clock invoke n w' = Some (Some NULL, w')).
Proof.
  intros Hrun.
  assert (Hgen : forall v, taskmgr_running v = true ->
            taskmgr_run clock invoke n v = Some (Returned 1, v) /\
            taskmgr_scheduler_run clock invoke n v = Some (Some NULL, v)).
  { intros v Hv.
    assert (E : taskmgr_run clock invoke n v = Some (Returned 1, v)).
    { unfold taskmgr_run. monad_unfold. rewrite Hv. reflexivity. }
    split; [exact E|].
    unfold taskmgr_scheduler_run. monad_unfold. rewrite E. reflexivity. }
  destruct (Hgen w Hrun) as [H1 H2].
  repeat split; try assumption.
  - apply Hgen. erewrite (add_scheduler_running _ _ w) by eassumption. assumption.
  - apply Hgen. erewrite (add_scheduler_running _ _ w) by eassumption. assumption.
Qed.

(** ** Removal of what is not queued *)

Lemma scan_for_id_absent w id q :
  (forall p, In p q ->
     exists t, task_heap w !! p = Some (Live t) /\ task_id t <> id) ->
  scan_for_id w id q = Some NULL.
Proof.
  induction q as [|p q IH]; intros H; simpl; [reflexivity|].
  destruct (H p (or_introl eq_refl)) as (t & -> & Hne).
  destruct (Z.eqb_spec (task_id t) id); [contradiction|].
  apply IH. intros p' Hp'. apply H. right. assumption.
Qed.

(** C10.  When no task in the Ready Queue has the id, [remove_task_by_id]
    returns 1 and leaves the queue (and everything else) unchanged; and for
    a handle that is not in the queue [remove_task] returns 1, is defined,
    and does not free the task: the heap is as before. *)
Theorem remove_task_not_queued (w : world) (q : queue_t) :
  taskmgr_task_queue w = Some q ->
  (forall id,
      (forall p, In p q ->
         exists t, task_heap w !! p = Some (Live t) /\ task_id t <> id) ->
      remove_task_by_id id w = Some (1, w)) /\
  (forall task,
      ~ In task q ->
      remove_task task w = Some (1, w)).
Proof.
  intros Hq. split.
  - intros id Hid. unfold remove_task_by_id. monad_unfold.
    rewrite (get_task_by_id_scan w id q Hq).
    rewrite (scan_for_id_absent w id q Hid). reflexivity.
  - intros task Hnot. unfold remove_task, queue_remove_object. monad_unfold.
    unfold the_task_queue. rewrite Hq.
    apply queue_get_index_absent in Hnot. rewrite Hnot. simpl.
    rewrite set_task_queue_same by assumption. reflexivity.
Qed.

(** ** Computation rules for the primitive steps *)

Lemma bind_some {A B} (c : M A) (k : A -> M B) w a w' :
  c w = Some (a, w') -> bind c k w = k a w'.
Proof. unfold bind. intros ->. reflexivity. Qed.

Lemma load_task_live p w t :
  task_heap w !! p = Some (Live t) -> load_task p w = Some (t, w).
Proof. unfold load_task. intros ->. reflexivity. Qed.

Lemma store_task_live p w t t' :
  task_heap w !! p = Some (Live t) ->
  store_task p t' w = Some (tt, set_task_heap (<[p := Live t']> (task_heap w)) w).
Proof. unfold store_task. intros ->. reflexivity. Qed.

Lemma store_scheduler_live p w s s' :
  scheduler_heap w !! p = Some (Live s) ->
  store_scheduler p s' w
  = Some (tt, set_scheduler_heap (<[p := Live s']> (scheduler_heap w)) w).
Proof. unfold store_scheduler. intros ->. reflexivity. Qed.

Lemma the_task_queue_some w q :
  taskmgr_task_queue w = Some q -> the_task_queue w = Some (q, w).
Proof. unfold the_task_queue. intros ->. reflexivity. Qed.

Lemma push_task_some p w q :
  taskmgr_task_queue w = Some q ->
  push_task p w = Some (tt, set_task_queue (Some (q ++ [p])) w).
Proof.
  intros H. unfold push_task.
  rewrite (bind_some _ _ _ _ _ (the_task_queue_some w q H)). reflexivity.
Qed.

Lemma pthread_mutex_lock_unlocked p w t :
  task_heap w !! p = Some (Live t) ->
  task_mutex t = MutexUnlocked ->
  pthread_mutex_lock p w
  = Some (tt, set_task_heap (<[p := Live (with_mutex MutexLocked t)]> (task_heap w)) w).
Proof.
  intros H Hm. unfold pthread_mutex_lock.
  rewrite (bind_some _ _ _ _ _ (load_task_live p w t H)). rewrite Hm.
  apply store_task_live with t. assumption.
Qed.

Lemma pthread_mutex_unlock_locked p w t :
  task_heap w !! p = Some (Live t) ->
  task_mutex t = MutexLocked ->
  pthread_mutex_unlock p w
  = Some (tt, set_task_heap (<[p := Live (with_mutex MutexUnlocked t)]> (task_heap w)) w).
Proof.
  intros H Hm. unfold pthread_mutex_unlock.
  rewrite (bind_some _ _ _ _ _ (load_task_live p w t H)). rewrite Hm.
  apply store_task_live with t. assumption.
Qed.

(** [free_task] on a live task whose mutex is not held: the block is
    released with the id set to -1 and the timing fields cleared. *)
Lemma free_task_live p w t :
  task_heap w !! p = Some (Live t) ->
  task_mutex t <> MutexLocked ->
  free_task p w
  = Some (0, set_task_heap
               (<[p := Freed (with_mutex MutexDestroyed (invalidate t))]> (task_heap w)) w).
Proof.
  intros H Hm. unfold free_task, pthread_mutex_destroy, free_task_block.
  rewrite (bind_some _ _ _ _ _ (load_task_live p w t H)).
  rewrite (bind_some _ _ _ _ _ (store_task_live p w t _ H)).
  monad_unfold. unfold load_task, store_task. simpl.
  rewrite !lookup_insert_eq. simpl.
  destruct (task_mutex t) eqn:E; try congruence; simpl;
    repeat (rewrite ?lookup_insert_eq, ?insert_insert_eq; simpl); reflexivity.
Qed.

Lemma call_live invoke p a w t :
  task_heap w !! p = Some (Live t) ->
  call invoke p a w
  = invoke (task_func t) p a
      (set_call_log (Invoked p (task_func t) (clock_reads w) :: call_log w) w).
Proof.
  intros H. unfold call.
  rewrite (bind_some _ _ _ _ _ (load_task_live p w t H)). reflexivity.
Qed.

(** ** The tick dispatcher *)

Lemma taskmgr_tick_empty clock invoke w :
  taskmgr_task_queue w = Some [] ->
  taskmgr_tick clock invoke w = Some (0, w).
Proof.
  intros Hq. unfold taskmgr_tick.
  rewrite (bind_some _ _ _ _ _ (the_task_queue_some w _ Hq)). reflexivity.
Qed.

(** The tick up to the decision whether the popped task is due. *)
Lemma taskmgr_tick_early clock invoke w task q' t :
  taskmgr_task_queue w = Some (task :: q') ->
  task <> NULL ->
  task_heap w !! task = Some (Live t) ->
  task_delayable t = true ->
  double_lt (double_sub (clock (clock_reads w)) (task_timestamp t))
    (task_delay t) = true ->
  taskmgr_tick clock invoke w
  = Some (0, set_task_queue (Some (q' ++ [task]))
               (set_clock_reads (S (clock_reads w)) w)).
Proof.
  intros Hq Hnull Ht Hd Hlt. unfold taskmgr_tick.
  rewrite (bind_some _ _ _ _ _ (the_task_queue_some w _ Hq)). simpl.
  rewrite (bind_some _ _ _ _ (set_task_queue (Some q') w) eq_refl).
  apply N.eqb_neq in Hnull. rewrite Hnull.
  erewrite bind_some by (apply load_task_live; simpl; eassumption).
  rewrite Hd.
  unfold get_current_time. monad_unfold. simpl. rewrite Hlt.
  unfold push_task, the_task_queue. monad_unfold. simpl. reflexivity.
Qed.

(** The due check of a task that is due: no early return, and the clock
    has been read exactly when the task is delayable. *)
Lemma due_check_passed clock (t : task_t) w :
  task_delayable t = false
    \/ double_lt (double_sub (clock (clock_reads w)) (task_timestamp t))
         (task_delay t) = false ->
  (if task_delayable t
   then now <- get_current_time clock ;;
        ret (double_lt (double_sub now (task_timestamp t)) (task_delay t))
   else ret false) w
  = Some (false,
          set_clock_reads
            (if task_delayable t then S (clock_reads w) else clock_reads w) w).
Proof.
  intros Hdue. destruct (task_delayable t) eqn:Hd.
  - destruct Hdue as [Hdue|Hdue]; [discriminate|].
    unfold get_current_time. monad_unfold. simpl. rewrite Hdue. reflexivity.
  - destruct w; reflexivity.
Qed.

Lemma taskmgr_tick_due clock invoke w task q' t result w2 t2 q2 :
  taskmgr_task_queue w = Some (task :: q') ->
  task <> NULL ->
  task_heap w !! task = Some (Live t) ->
  task_delayable t = false
    \/ double_lt (double_sub (clock (clock_reads w)) (task_timestamp t))
         (task_delay t) = false ->
  task_mutex t = MutexUnlocked ->
  invoke (task_func t) task (va_view w (task_args t)) (at_invocation w task q' t)
    = Some (result, w2) ->
  task_heap w2 !! task = Some (Live t2) ->
  task_mutex t2 = MutexLocked ->
  taskmgr_task_queue w2 = Some q2 ->
  taskmgr_tick clock invoke w
  = Some (0,
      match result with
      | TASK_RESULT_CONT =>
          set_task_queue (Some (q2 ++ [task]))
            (set_task_heap
               (<[task := Live (with_delayable false
                                   (with_mutex MutexUnlocked t2))]> (task_heap w2))
               w2)
      | TASK_RESULT_WAIT =>
          set_task_queue (Some (q2 ++ [task]))
            (set_task_heap
               (<[task := Live (with_timestamp (clock (clock_reads w2))
                                  (with_delayable true
                                     (with_mutex MutexUnlocked t2)))]> (task_heap w2))
               (set_clock_reads (S (clock_reads w2)) w2))
      | _ =>
          set_task_heap
            (<[task := Freed (with_mutex MutexDestroyed
                                (invalidate (with_mutex MutexUnlocked t2)))]>
               (task_heap w2))
            w2
      end).
Proof.
  intros Hq Hnull Ht Hdue Hm Hinv Ht2 Hm2 Hq2. unfold taskmgr_tick.
  rewrite (bind_some _ _ _ _ _ (the_task_queue_some w _ Hq)). simpl.
  rewrite (bind_some _ _ _ _ (set_task_queue (Some q') w) eq_refl).
  apply N.eqb_neq in Hnull. rewrite Hnull.
  erewrite bind_some by (apply load_task_live; simpl; eassumption).
  set (reads := if task_delayable t then S (clock_reads w) else clock_reads w).
  set (w0 := set_clock_reads reads (set_task_queue (Some q') w)).
  erewrite (bind_some _ _ _ false w0) by (apply due_check_passed; exact Hdue).
  erewrite bind_some
    by (apply pthread_mutex_lock_unlocked with (t := t); [exact Ht | exact Hm]).
  erewrite bind_some by (apply load_task_live; simpl; apply lookup_insert_eq).
  rewrite (bind_some _ _ _ _ _ eq_refl).
  erewrite (bind_some _ _ _ result w2).
  2:{ erewrite call_live by (simpl; apply lookup_insert_eq).
      rewrite <- Hinv. reflexivity. }
  erewrite bind_some
    by (apply pthread_mutex_unlock_locked with (t := t2); [exact Ht2 | exact Hm2]).
  assert (Hlive : task_heap
            (set_task_heap
               (<[task := Live (with_mutex MutexUnlocked t2)]> (task_heap w2)) w2)
          !! task = Some (Live (with_mutex MutexUnlocked t2)))
    by (simpl; apply lookup_insert_eq).
  destruct result.
  - erewrite bind_some by (apply load_task_live; exact Hlive).
    erewrite bind_some by (eapply store_task_live; exact Hlive).
    erewrite bind_some by (apply push_task_some; simpl; exact Hq2).
    simpl. rewrite insert_insert_eq. reflexivity.
  - erewrite bind_some by (apply load_task_live; exact Hlive).
    erewrite bind_some by (eapply store_task_live; exact Hlive).
    rewrite (bind_some _ _ _ _ _ eq_refl).
    erewrite bind_some by (apply load_task_live; simpl; apply lookup_insert_eq).
    erewrite bind_some by (eapply store_task_live; simpl; apply lookup_insert_eq).
    erewrite bind_some by (apply push_task_some; simpl; exact Hq2).
    simpl. rewrite !insert_insert_eq. reflexivity.
  - erewrite bind_some by (apply free_task_live; [exact Hlive | discriminate]).
    simpl. rewrite insert_insert_eq. reflexivity.
  - erewrite bind_some by (apply free_task_live; [exact Hlive | discriminate]).
    simpl. rewrite insert_insert_eq. reflexivity.
Qed.

(** A callable without a defined outcome leaves the tick without one. *)
Lemma taskmgr_tick_no_outcome clock invoke w task q' t :
  taskmgr_task_queue w = Some (task :: q') ->
  task <> NULL ->
  task_heap w !! task = Some (Live t) ->
  task_delayable t = false
    \/ double_lt (double_sub (clock (clock_reads w)) (task_timestamp t))
         (task_delay t) = false ->
  task_mutex t = MutexUnlocked ->
  invoke (task_func t) task (va_view w (task_args t)) (at_invocation w task q' t)
    = None ->
  taskmgr_tick clock invoke w = None.
Proof.
  intros Hq Hnull Ht Hdue Hm Hinv. unfold taskmgr_tick.
  rewrite (bind_some _ _ _ _ _ (the_task_queue_some w _ Hq)). simpl.
  rewrite (bind_some _ _ _ _ (set_task_queue (Some q') w) eq_refl).
  apply N.eqb_neq in Hnull. rewrite Hnull.
  erewrite bind_some by (apply load_task_live; simpl; eassumption).
  set (reads := if task_delayable t then S (clock_reads w) else clock_reads w).
  set (w0 := set_clock_reads reads (set_task_queue (Some q') w)).
  erewrite (bind_some _ _ _ false w0) by (apply due_check_passed; exact Hdue).
  erewrite bind_some
    by (apply pthread_mutex_lock_unlocked with (t := t); [exact Ht | exact Hm]).
  erewrite bind_some by (apply load_task_live; simpl; apply lookup_insert_eq).
  rewrite (bind_some _ _ _ _ _ eq_refl).
  unfold bind at 1.
  erewrite call_live by (simpl; apply lookup_insert_eq).
  match goal with
  | |- match ?x with _ => _ end = None =>
      replace x with (@None (task_result_t * world)) by (symmetry; exact Hinv)
  end.
  reflexivity.
Qed.

(** C1.  One call of [taskmgr_tick] does one unit of scheduling work.  On an
    empty Ready Queue it returns 0 and the state is as before.  Otherwise it
    pops the task at the front.  If the task is delayable and
    [now - timestamp < delay] in [double] arithmetic, the tick returns 0
    with the task at the back of the queue and its record untouched (only
    the clock has been read).  Otherwise its callable is invoked once, with
    the handle and a copy of the argument list the stored pointer refers to
    (the arguments of the frame it names while that frame is on the stack,
    nothing determinate otherwise), in a state where the task is off the
    queue and its guard is held.  When the call has no defined outcome,
    neither has the tick.  When the callable leaves the task live,
    its guard held and the queue in place, the tick releases the guard and
    returns 0 after: on CONTINUE, clearing [delayable] and pushing the task
    to the back; on WAIT, setting [delayable], storing the next clock
    reading in [timestamp] and pushing the task to the back; on DONE or any
    other result, storing -1, 0, 0, 0 in [id], [delayable], [delay] and
    [timestamp], destroying the guard and releasing the block without
    requeueing the task.  The other fields of the record are as the
    callable left them. *)
Theorem taskmgr_tick_one_unit
  (clock : nat -> double)
  (invoke : callable_func_t -> addr -> option (list Z) -> world
            -> option (task_result_t * world))
  (w : world) :
  (taskmgr_task_queue w = Some [] ->
     taskmgr_tick clock invoke w = Some (0, w)) /\
  (forall task q' t,
     taskmgr_task_queue w = Some (task :: q') ->
     task <> NULL ->
     task_heap w !! task = Some (Live t) ->
     (task_delayable t = true ->
      double_lt (double_sub (clock (clock_reads w)) (task_timestamp t))
        (task_delay t) = true ->
      taskmgr_tick clock invoke w
      = Some (0, set_task_queue (Some (q' ++ [task]))
                   (set_clock_reads (S (clock_reads w)) w))) /\
     (forall l st,
        call_stack w = Frame (task_args t) l :: st ->
        va_view w (task_args t) = Some l) /\
     ((forall fr, In fr (call_stack w) -> frame_id fr <> task_args t) ->
        va_view w (task_args t) = None) /\
     (task_delayable t = false
        \/ double_lt (double_sub (clock (clock_reads w)) (task_timestamp t))
             (task_delay t) = false ->
      task_mutex t = MutexUnlocked ->
      (invoke (task_func t) task (va_view w (task_args t))
         (set_call_log
            (Invoked task (task_func t)
               (if task_delayable t then S (clock_reads w) else clock_reads w)
             :: call_log w)
            (set_task_heap
               (<[task := Live (Task (task_id t) (task_func t) (task_args t)
                                  (task_delayable t) (task_delay t)
                                  (task_timestamp t) MutexLocked)]>
                  (task_heap w))
               (set_clock_reads
                  (if task_delayable t then S (clock_reads w) else clock_reads w)
                  (set_task_queue (Some q') w))))
       = None ->
       taskmgr_tick clock invoke w = None) /\
      forall result w2 t2 q2,
        invoke (task_func t) task (va_view w (task_args t))
          (set_call_log
             (Invoked task (task_func t)
                (if task_delayable t then S (clock_reads w) else clock_reads w)
              :: call_log w)
             (set_task_heap
                (<[task := Live (Task (task_id t) (task_func t) (task_args t)
                                   (task_delayable t) (task_delay t)
                                   (task_timestamp t) MutexLocked)]>
                   (task_heap w))
                (set_clock_reads
                   (if task_delayable t then S (clock_reads w) else clock_reads w)
                   (set_task_queue (Some q') w))))
        = Some (result, w2) ->
        task_heap w2 !! task = Some (Live t2) ->
        task_mutex t2 = MutexLocked ->
        taskmgr_task_queue w2 = Some q2 ->
        taskmgr_tick clock invoke w
        = Some (0,
            match result with
            | TASK_RESULT_CONT =>
                set_task_queue (Some (q2 ++ [task]))
                  (set_task_heap
                     (<[task := Live (Task (task_id t2) (task_func t2)
                                        (task_args t2) false (task_delay t2)
                                        (task_timestamp t2) MutexUnlocked)]>
                        (task_heap w2))
                     w2)
            | TASK_RESULT_WAIT =>
                set_task_queue (Some (q2 ++ [task]))
                  (set_task_heap
                     (<[task := Live (Task (task_id t2) (task_func t2)
                                        (task_args t2) true (task_delay t2)
                                        (clock (clock_reads w2)) MutexUnlocked)]>
                        (task_heap w2))
                     (set_clock_reads (S (clock_reads w2)) w2))
            | _ =>
                set_task_heap
                  (<[task := Freed (Task (-1) (task_func t2) (task_args t2)
                                      false (double_of_Z 0) (double_of_Z 0)
                                      MutexDestroyed)]>
                     (task_heap w2))
                  w2
            end))).
Proof.
  split.
  - apply taskmgr_tick_empty.
  - intros task q' t Hq Hnull Ht. split; [|split; [|split]].
    + intros Hd Hlt. eapply taskmgr_tick_early; eassumption.
    + intros l st Hst. unfold va_view. rewrite Hst. simpl.
      rewrite Nat.eqb_refl. reflexivity.
    + intros Hno. unfold va_view.
      destruct (find (fun fr => Nat.eqb (frame_id fr) (task_args t)) (call_stack w))
        as [fr|] eqn:E; [|reflexivity].
      apply find_some in E. destruct E as [Hin Heq].
      apply Nat.eqb_eq in Heq. exfalso. exact (Hno fr Hin Heq).
    + intros Hdue Hm. split.
      * intros Hinv.
        exact (taskmgr_tick_no_outcome clock invoke w task q' t
                 Hq Hnull Ht Hdue Hm Hinv).
      * intros result w2 t2 q2 Hinv Ht2 Hm2 Hq2.
        rewrite (taskmgr_tick_due clock invoke w task q' t result w2 t2 q2
                   Hq Hnull Ht Hdue Hm Hinv Ht2 Hm2 Hq2).
        destruct result; reflexivity.
Qed.

(** The due case for a callable that leaves the state as it found it. *)
Lemma taskmgr_tick_due_pure clock invoke w task q' t result :
  taskmgr_task_queue w = Some (task :: q') ->
  task <> NULL ->
  task_heap w !! task = Some (Live t) ->
  task_delayable t = false
    \/ double_lt (double_sub (clock (clock_reads w)) (task_timestamp t))
         (task_delay t) = false ->
  task_mutex t = MutexUnlocked ->
  invoke (task_func t) task (va_view w (task_args t)) (at_invocation w task q' t)
    = Some (result, at_invocation w task q' t) ->
  let reads := if task_delayable t then S (clock_reads w) else clock_reads w in
  let log := Invoked task (task_func t) reads :: call_log w in
  taskmgr_tick clock invoke w
  = Some (0,
      match result with
      | TASK_RESULT_CONT =>
          set_call_log log
            (set_clock_reads reads
               (set_task_queue (Some (q' ++ [task]))
                  (set_task_heap
                     (<[task := Live (with_delayable false t)]> (task_heap w)) w)))
      | TASK_RESULT_WAIT =>
          set_call_log log
            (set_clock_reads (S reads)
               (set_task_queue (Some (q' ++ [task]))
                  (set_task_heap
                     (<[task := Live (with_timestamp (clock reads)
                                        (with_delayable true t))]> (task_heap w)) w)))
      | _ =>
          set_call_log log
            (set_clock_reads reads
               (set_task_queue (Some q')
                  (set_task_heap
                     (<[task := Freed (with_mutex MutexDestroyed (invalidate t))]>
                        (task_heap w)) w)))
      end).
Proof.
  intros Hq Hnull Ht Hdue Hm Hinv reads log.
  rewrite (taskmgr_tick_due clock invoke w task q' t result
             (at_invocation w task q' t) (with_mutex MutexLocked t) q'
             Hq Hnull Ht Hdue Hm Hinv);
    [ | simpl; apply lookup_insert_eq | reflexivity | reflexivity ].
  f_equal. f_equal. subst reads log.
  destruct t as [i f a d dl ts m]. simpl in Hm. subst m.
  destruct result; simpl; rewrite insert_insert_eq; reflexivity.
Qed.

(** ** Driving the dispatcher *)

(** [add_task] with the Ready Queue in place. *)
Lemma add_task_some clock func delay va w q :
  taskmgr_task_queue w = Some q ->
  let task := N.succ (heap_top w) in
  let id := int_wrap (taskmgr_next_task_id w + 1) in
  let t := Task id func (frame_count w) true delay (clock (clock_reads w))
             MutexUnlocked in
  add_task clock func delay va w
  = Some (task,
      set_task_queue (Some (q ++ [task]))
        (set_heap_top task
           (set_task_heap (<[task := Live t]> (task_heap w))
              (set_clock_reads (S (clock_reads w))
                 (set_next_task_id id
                    (set_frame_count (S (frame_count w)) w)))))).
Proof.
  intros Hq task id t.
  unfold add_task, push_task, the_task_queue, malloc_task, get_current_time.
  monad_unfold. simpl. rewrite Hq. subst task id t.
  destruct w; reflexivity.
Qed.

(** [add_task] is defined exactly when the Ready Queue is in place. *)
Lemma add_task_defined clock func delay va w task w1 :
  add_task clock func delay va w = Some (task, w1) ->
  exists q, taskmgr_task_queue w = Some q.
Proof.
  destruct (taskmgr_task_queue w) as [q|] eqn:Hq; [eauto|].
  unfold add_task, push_task, the_task_queue, malloc_task, get_current_time.
  monad_unfold. simpl. rewrite Hq. discriminate.
Qed.

Lemma drive_ticks_empty clock invoke n w :
  taskmgr_task_queue w = Some [] ->
  drive_ticks clock invoke n w = Some (tt, w).
Proof.
  intros Hq. induction n as [|n IH]; [reflexivity|].
  simpl. rewrite (bind_some _ _ _ _ _ (taskmgr_tick_empty clock invoke w Hq)).
  exact IH.
Qed.

(** ** Scenario 1: a task that is done at its first call *)

(** C3.  In a manager that is not running, [taskmgr_init] followed by
    [add_task(f, 0, ...)] for a callable [f] that returns DONE (and leaves
    the state alone) yields a task such that any [n >= 1] ticks, under a
    clock that does not run backwards between the creation and the first
    tick (two finite readings), are defined and end in a state where
    the log has exactly one entry more than before, the invocation of [f] on
    that task; the block of the task is freed (its id set to -1); the Ready
    Queue is empty; [has_task_by_id] of the id the task was given returns 0
    and [get_task_by_id] returns [NULL]. *)
Theorem done_task_runs_once
  (clock : nat -> double)
  (invoke : callable_func_t -> addr -> option (list Z) -> world
            -> option (task_result_t * world))
  (f : callable_func_t) (va : list Z) (w : world) :
  finite_le (clock (clock_reads w)) (clock (S (clock_reads w))) = true ->
  (forall p a v, invoke f p a v = Some (TASK_RESULT_DONE, v)) ->
  taskmgr_running w = false ->
  exists task t w1,
    (taskmgr_init ;;; add_task clock f (double_of_Z 0) va) w = Some (task, w1) /\
    task_heap w1 !! task = Some (Live t) /\
    taskmgr_task_queue w1 = Some [task] /\
    forall n, (1 <= n)%nat ->
      exists wn t',
        drive_ticks clock invoke n w1 = Some (tt, wn) /\
        call_log wn = Invoked task f (S (S (clock_reads w))) :: call_log w /\
        task_heap wn !! task = Some (Freed t') /\
        task_id t' = -1 /\
        taskmgr_task_queue wn = Some [] /\
        has_task_by_id (task_id t) wn = Some (0, wn) /\
        get_task_by_id (task_id t) wn = Some (NULL, wn).
Proof.
  intros Hclock Hdone Hrun.
  set (w0 := set_scheduler_queue (Some queue_init)
               (set_task_queue (Some queue_init) w)).
  assert (Hinit : taskmgr_init w = Some (0, w0)).
  { unfold taskmgr_init. monad_unfold. rewrite Hrun. reflexivity. }
  assert (Hq0 : taskmgr_task_queue w0 = Some []) by reflexivity.
  pose proof (add_task_some clock f (double_of_Z 0) va w0 [] Hq0) as Hadd.
  simpl in Hadd.
  eexists _, _, _. split; [|split; [|split]].
  - rewrite (bind_some _ _ _ _ _ Hinit). exact Hadd.
  - simpl. apply lookup_insert_eq.
  - reflexivity.
  - intros n Hn. destruct n as [|n]; [lia|].
    simpl drive_ticks.
    erewrite bind_some.
    2:{ eapply taskmgr_tick_due_pure with (result := TASK_RESULT_DONE).
        - reflexivity.
        - unfold NULL. lia.
        - simpl. apply lookup_insert_eq.
        - right. simpl. apply double_sub_not_negative. exact Hclock.
        - reflexivity.
        - apply Hdone. }
    simpl. eexists _, _. split; [apply drive_ticks_empty; reflexivity|].
    split; [reflexivity|].
    split; [simpl; apply lookup_insert_eq|].
    split; [reflexivity|].
    split; [reflexivity|].
    assert (Hget : forall id v, taskmgr_task_queue v = Some [] ->
              get_task_by_id id v = Some (NULL, v)).
    { intros id v Hv. rewrite (get_task_by_id_scan v id [] Hv). reflexivity. }
    split.
    + unfold has_task_by_id.
      erewrite bind_some by (apply Hget; reflexivity). reflexivity.
    + apply Hget. reflexivity.
Qed.

(** ** Every defined tick is one of the cases above *)

Lemma taskmgr_tick_cases clock invoke w r w' :
  pure_callables invoke ->
  taskmgr_tick clock invoke w = Some (r, w') ->
  tick_case clock invoke w r w'.
Proof.
  intros Hpure H.
  destruct (taskmgr_task_queue w) as [[|task q']|] eqn:Hq.
  - rewrite (taskmgr_tick_empty clock invoke w Hq) in H.
    injection H as <- <-. apply tick_idle. assumption.
  - destruct (N.eq_dec task NULL) as [->|Hnull].
    { unfold taskmgr_tick in H.
      rewrite (bind_some _ _ _ _ _ (the_task_queue_some w _ Hq)) in H.
      simpl in H. injection H as <- <-. apply tick_null. assumption. }
    destruct (task_heap w !! task) as [[t|t]|] eqn:Ht.
    2,3: exfalso; unfold taskmgr_tick in H;
      rewrite (bind_some _ _ _ _ _ (the_task_queue_some w _ Hq)) in H;
      simpl in H;
      rewrite (bind_some _ _ _ _ (set_task_queue (Some q') w) eq_refl) in H;
      apply N.eqb_neq in Hnull; rewrite Hnull in H;
      unfold bind at 1, load_task in H; simpl in H; rewrite Ht in H;
      discriminate.
    assert (Hcase :
      (task_delayable t = true /\
       double_lt (double_sub (clock (clock_reads w)) (task_timestamp t))
         (task_delay t) = true) \/
      (task_delayable t = false
        \/ double_lt (double_sub (clock (clock_reads w)) (task_timestamp t))
             (task_delay t) = false)).
    { destruct (task_delayable t); [|right; left; reflexivity].
      destruct (double_lt (double_sub (clock (clock_reads w)) (task_timestamp t))
                  (task_delay t)) eqn:Hlt;
        [left; split; reflexivity | right; right; reflexivity]. }
    destruct Hcase as [[Hd Hlt]|Hdue].
    { rewrite (taskmgr_tick_early clock invoke w task q' t Hq Hnull Ht Hd Hlt) in H.
      injection H as <- <-. eapply tick_requeue; eassumption. }
    destruct (task_mutex t) eqn:Hm.
    + destruct (invoke (task_func t) task (va_view w (task_args t))
                  (at_invocation w task q' t)) as [[result w2]|] eqn:Hinv.
      * assert (w2 = at_invocation w task q' t) by (eapply Hpure; exact Hinv).
        subst w2.
        rewrite (taskmgr_tick_due_pure clock invoke w task q' t result
                   Hq Hnull Ht Hdue Hm Hinv) in H.
        injection H as <- <-. eapply tick_run; eassumption.
      * rewrite (taskmgr_tick_no_outcome clock invoke w task q' t
                   Hq Hnull Ht Hdue Hm Hinv) in H.
        discriminate.
    + exfalso. revert H. unfold taskmgr_tick.
      rewrite (bind_some _ _ _ _ _ (the_task_queue_some w _ Hq)). simpl.
      rewrite (bind_some _ _ _ _ (set_task_queue (Some q') w) eq_refl).
      apply N.eqb_neq in Hnull. rewrite Hnull.
      erewrite bind_some by (apply load_task_live; simpl; eassumption).
      erewrite bind_some by (apply due_check_passed; exact Hdue).
      unfold bind at 1, pthread_mutex_lock, bind, load_task. simpl.
      rewrite Ht, Hm. discriminate.
    + exfalso. revert H. unfold taskmgr_tick.
      rewrite (bind_some _ _ _ _ _ (the_task_queue_some w _ Hq)). simpl.
      rewrite (bind_some _ _ _ _ (set_task_queue (Some q') w) eq_refl).
      apply N.eqb_neq in Hnull. rewrite Hnull.
      erewrite bind_some by (apply load_task_live; simpl; eassumption).
      erewrite bind_some by (apply due_check_passed; exact Hdue).
      unfold bind at 1, pthread_mutex_lock, bind, load_task. simpl.
      rewrite Ht, Hm. discriminate.
  - unfold taskmgr_tick, bind, the_task_queue in H. rewrite Hq in H.
    discriminate.
Qed.

(** ** Scenario 2: a recurring timer *)

Lemma timer_invariant_tick clock invoke f D task log0 k0 w r w' :
  (forall p a v r v', invoke f p a v = Some (r, v') -> r = TASK_RESULT_WAIT) ->
  tick_case clock invoke w r w' ->
  timer_invariant clock f D task log0 k0 w ->
  timer_invariant clock f D task log0 k0 w'.
Proof.
  intros Hwait Hcase (evs & t & Hlog & Ht & Hf & HD & Hd & Hts & Hlt & Hsp).
  destruct Hcase as [Hq | q' Hq | task' q' t' Hq Hnull Ht' Hd' Hearly
                    | task' q' t' result Hq Hnull Ht' Hdue Hm Hinv].
  - exists evs, t. repeat split; assumption.
  - exists evs, t. repeat split; assumption.
  - exists evs, t. simpl. repeat split; try assumption. lia.
  - destruct (N.eq_dec task' task) as [->|Hne].
    + assert (t' = t) by congruence. subst t'.
      rewrite Hf in Hinv. apply Hwait in Hinv. subst result.
      unfold after_invocation. rewrite Hd.
      exists (Invoked task f (S (clock_reads w)) :: evs),
             (with_timestamp (clock (S (clock_reads w))) (with_delayable true t)).
      unfold invocations_of in *. simpl. rewrite N.eqb_refl. simpl.
      rewrite Hf.
      repeat split; try assumption.
      * rewrite Hlog. reflexivity.
      * apply lookup_insert_eq.
      * lia.
      * lia.
      * rewrite Nat.sub_0_r.
        destruct Hdue as [Hdue|Hdue]; [congruence|].
        rewrite HD, Hts in Hdue. exact Hdue.
    + assert (Hfilter : invocations_of task
                (Invoked task' (task_func t')
                   (if task_delayable t' then S (clock_reads w) else clock_reads w)
                 :: evs) = invocations_of task evs).
      { unfold invocations_of. simpl.
        apply N.eqb_neq in Hne. rewrite Hne. reflexivity. }
      exists (Invoked task' (task_func t')
                (if task_delayable t' then S (clock_reads w) else clock_reads w)
              :: evs), t.
      rewrite Hfilter.
      unfold after_invocation.
      destruct result; simpl;
        rewrite lookup_insert_ne by assumption;
        rewrite Hlog;
        (repeat split; try assumption; try reflexivity);
        destruct (task_delayable t'); lia.
Qed.

Lemma timer_invariant_drive clock invoke f D task log0 k0 n :
  pure_callables invoke ->
  (forall p a v r v', invoke f p a v = Some (r, v') -> r = TASK_RESULT_WAIT) ->
  forall w wn,
    timer_invariant clock f D task log0 k0 w ->
    drive_ticks clock invoke n w = Some (tt, wn) ->
    timer_invariant clock f D task log0 k0 wn.
Proof.
  intros Hpure Hwait. induction n as [|n IH]; intros w wn Hinv Hrun.
  - injection Hrun as <-. assumption.
  - simpl in Hrun. unfold bind in Hrun at 1.
    destruct (taskmgr_tick clock invoke w) as [[r w1]|] eqn:Htick; [|discriminate].
    apply (IH w1 wn); [|assumption].
    eapply timer_invariant_tick; [exact Hwait | | exact Hinv].
    apply taskmgr_tick_cases; eassumption.
Qed.




(** ** The interface of [task.c] as a whole *)

(** ** What the operations leave alone *)

Lemma respects_call R `{!PreOrder R} invoke p a :
  pure_callables invoke ->
  (forall w l, R w (set_call_log l w)) ->
  respects R (call invoke p a).
Proof.
  intros Hpure HR w r w'. unfold call, bind.
  destruct (load_task p w) as [[t v]|] eqn:E; [|discriminate].
  apply load_task_state in E. subst v.
  intros Hinv. apply Hpure in Hinv. subst w'. apply HR.
Qed.

Lemma respects_get_current_time R clock :
  (forall w k, R w (set_clock_reads k w)) ->
  respects R (get_current_time clock).
Proof. intros HR w r w' [= _ <-]. apply HR. Qed.

Ltac off_counters_field H :=
  destruct H as (?&?&?&?&?&?&?&?&?&?&?);
  repeat match goal with
         | |- ?R _ (set_heap_top _ ?w) => transitivity w; [|solve [auto]]
         end;
  solve [auto].

Section OffCounters.
Context (R : relation world) `{!PreOrder R} (HR : off_counters R).
Context (clock : nat -> double).
Context (invoke : callable_func_t -> addr -> option (list Z) -> world
                  -> option (task_result_t * world)).
Context (Hpure : pure_callables invoke).

Ltac fld := off_counters_field HR.

Ltac prim :=
  first
    [ respects_prim fld
    | apply respects_get_current_time; intros; fld
    | apply respects_call; [typeclasses eauto | exact Hpure | intros; fld] ].

Lemma free_task_off task : respects R (free_task task).
Proof using HR PreOrder0.
  unfold free_task, pthread_mutex_destroy. respects_steps; prim.
Qed.

Lemma taskmgr_tick_off : respects R (taskmgr_tick clock invoke).
Proof using HR PreOrder0 Hpure.
  unfold taskmgr_tick, push_task, pthread_mutex_lock, pthread_mutex_unlock,
    va_copy.
  respects_steps; try prim; apply free_task_off.
Qed.

Lemma taskmgr_run_loop_off n : respects R (taskmgr_run_loop clock invoke n).
Proof using HR PreOrder0 Hpure.
  induction n as [|n IH]; simpl; respects_steps; try prim;
    first [apply taskmgr_tick_off | exact IH].
Qed.

Lemma taskmgr_run_off n : respects R (taskmgr_run clock invoke n).
Proof using HR PreOrder0 Hpure.
  unfold taskmgr_run. respects_steps; try prim. apply taskmgr_run_loop_off.
Qed.

Lemma get_task_by_id_loop_off id n i : respects R (get_task_by_id_loop id n i).
Proof using HR PreOrder0.
  revert i. induction n as [|n IH]; intros i; simpl;
    respects_steps; try prim. apply IH.
Qed.

Lemma get_task_by_id_off id : respects R (get_task_by_id id).
Proof using HR PreOrder0.
  unfold get_task_by_id. respects_steps; try prim.
  apply get_task_by_id_loop_off.
Qed.

Lemma remove_task_off task : respects R (remove_task task).
Proof using HR PreOrder0.
  unfold remove_task. respects_steps; try prim; apply free_task_off.
Qed.

Lemma get_scheduler_by_id_loop_off id n i :
  respects R (get_scheduler_by_id_loop id n i).
Proof using HR PreOrder0.
  revert i. induction n as [|n IH]; intros i; simpl;
    respects_steps; try prim. apply IH.
Qed.

Lemma get_scheduler_by_id_off id : respects R (get_scheduler_by_id id).
Proof using HR PreOrder0.
  unfold get_scheduler_by_id. respects_steps; try prim.
  apply get_scheduler_by_id_loop_off.
Qed.

Lemma free_scheduler_off s : respects R (free_scheduler s).
Proof using HR PreOrder0.
  unfold free_scheduler. respects_steps; prim.
Qed.

Lemma remove_scheduler_off s : respects R (remove_scheduler s).
Proof using HR PreOrder0.
  unfold remove_scheduler. respects_steps; try prim; apply free_scheduler_off.
Qed.

Lemma add_task_off func delay va :
  (forall w v, R w (set_next_task_id v w)) ->
  respects R (add_task clock func delay va).
Proof using HR PreOrder0.
  intros Hid. unfold add_task, push_task. respects_steps; prim.
Qed.

Lemma add_scheduler_off attr_ok thread_ok :
  (forall w v, R w (set_next_scheduler_id v w)) ->
  respects R (add_scheduler attr_ok thread_ok).
Proof using HR PreOrder0.
  intros Hid. unfold add_scheduler, push_scheduler. respects_steps; prim.
Qed.

(** Every call respects [R], the two creating calls provided that [R]
    also holds across an update of the counter they increment. *)
Lemma perform_off c :
  (forall func delay va, c = call_add_task func delay va ->
     forall w v, R w (set_next_task_id v w)) ->
  (forall attr_ok thread_ok, c = call_add_scheduler attr_ok thread_ok ->
     forall w v, R w (set_next_scheduler_id v w)) ->
  respects R (perform clock invoke c).
Proof using HR PreOrder0 Hpure.
  intros Htask Hsched.
  destruct c; simpl;
    (apply respects_bind;
     [typeclasses eauto | | intros ?; apply respects_ret; typeclasses eauto]).
  - unfold taskmgr_init. respects_steps; prim.
  - apply taskmgr_tick_off.
  - apply taskmgr_run_off.
  - unfold taskmgr_scheduler_run. respects_steps; try prim. apply taskmgr_run_off.
  - unfold taskmgr_shutdown, queue_free_task_queue, queue_free_scheduler_queue.
    respects_steps; prim.
  - unfold has_task. respects_steps; prim.
  - unfold has_task_by_id. respects_steps; try prim. apply get_task_by_id_off.
  - apply add_task_off. eapply Htask. reflexivity.
  - apply get_task_by_id_off.
  - apply remove_task_off.
  - unfold remove_task_by_id. respects_steps; try prim;
      first [apply get_task_by_id_off | apply remove_task_off].
  - apply free_task_off.
  - unfold free_task_by_id. respects_steps; try prim;
      first [apply get_task_by_id_off | apply free_task_off].
  - unfold has_scheduler. respects_steps; prim.
  - unfold has_scheduler_by_id. respects_steps; try prim.
    apply get_scheduler_by_id_off.
  - apply add_scheduler_off. eapply Hsched. reflexivity.
  - apply get_scheduler_by_id_off.
  - apply remove_scheduler_off.
  - unfold remove_scheduler_by_id. respects_steps; try prim;
      first [apply get_scheduler_by_id_off | apply remove_scheduler_off].
  - apply free_scheduler_off.
  - unfold free_scheduler_by_id. respects_steps; try prim;
      first [apply get_scheduler_by_id_off | apply free_scheduler_off].
Qed.
End OffCounters.

(** ** The id counters *)

Lemma keeps_off_counters {A} (f : world -> A) :
  (forall w v, f (set_task_queue v w) = f w) ->
  (forall w v, f (set_scheduler_queue v w) = f w) ->
  (forall w v, f (set_running v w) = f w) ->
  (forall w v, f (set_task_heap v w) = f w) ->
  (forall w v, f (set_scheduler_heap v w) = f w) ->
  (forall w v, f (set_heap_top v w) = f w) ->
  (forall w v, f (set_call_stack v w) = f w) ->
  (forall w v, f (set_frame_count v w) = f w) ->
  (forall w v, f (set_clock_reads v w) = f w) ->
  (forall w v, f (set_threads v w) = f w) ->
  (forall w v, f (set_call_log v w) = f w) ->
  off_counters (keeps f).
Proof. unfold off_counters, keeps. intuition. Qed.

Lemma task_counter_off : off_counters (keeps taskmgr_next_task_id).
Proof. apply keeps_off_counters; reflexivity. Qed.

Lemma scheduler_counter_off : off_counters (keeps taskmgr_next_scheduler_id).
Proof. apply keeps_off_counters; reflexivity. Qed.

(** The id [add_task] assigns is the incremented counter. *)
Lemma add_task_counter clock func delay va w task w1 :
  add_task clock func delay va w = Some (task, w1) ->
  taskmgr_next_task_id w1 = int_wrap (taskmgr_next_task_id w + 1) /\
  exists t, task_heap w1 !! task = Some (Live t) /\
            task_id t = int_wrap (taskmgr_next_task_id w + 1).
Proof.
  intros H. destruct (add_task_defined _ _ _ _ _ _ _ H) as [q Hq].
  rewrite (add_task_some clock func delay va w q Hq) in H.
  injection H as <- <-. simpl. split; [reflexivity|].
  eexists. split; [apply lookup_insert_eq | reflexivity].
Qed.

(** The id [add_scheduler] assigns to the record it allocates is the
    incremented counter, whether or not the thread could be started. *)
Lemma add_scheduler_counter attr_ok thread_ok w h w1 :
  add_scheduler attr_ok thread_ok w = Some (h, w1) ->
  taskmgr_next_scheduler_id w1 = int_wrap (taskmgr_next_scheduler_id w + 1) /\
  (h = NULL \/ h = N.succ (heap_top w)) /\
  exists s, scheduler_heap w1 !! N.succ (heap_top w) = Some (Live s) /\
            scheduler_id s = int_wrap (taskmgr_next_scheduler_id w + 1).
Proof.
  unfold add_scheduler, malloc_scheduler, push_scheduler.
  unfold bind at 1 2 3 4. unfold gets, modify. simpl.
  destruct attr_ok; simpl.
  2:{ intros [= <- <-]. simpl. split; [reflexivity|]. split; [left; reflexivity|].
      eexists. split; [apply lookup_insert_eq | reflexivity]. }
  erewrite bind_some by (eapply store_scheduler_live; simpl; apply lookup_insert_eq).
  destruct thread_ok; simpl.
  2:{ intros [= <- <-]. simpl. split; [reflexivity|]. split; [left; reflexivity|].
      eexists. split; [apply lookup_insert_eq | reflexivity]. }
  unfold bind at 1 2. unfold gets, modify. simpl.
  erewrite bind_some by (eapply store_scheduler_live; simpl; apply lookup_insert_eq).
  unfold bind, the_scheduler_queue, modify, ret. simpl.
  destruct (taskmgr_scheduler_queue w); [|discriminate].
  intros [= <- <-]. simpl. split; [reflexivity|]. split; [right; reflexivity|].
  eexists. split; [apply lookup_insert_eq | reflexivity].
Qed.

(** A call increments a counter exactly when it is the creating call of
    that counter. *)
Lemma perform_counters clock invoke c w w' :
  pure_callables invoke ->
  perform clock invoke c w = Some (tt, w') ->
  taskmgr_next_task_id w'
    = (if creates_task c then int_wrap (taskmgr_next_task_id w + 1)
       else taskmgr_next_task_id w) /\
  taskmgr_next_scheduler_id w'
    = (if creates_scheduler c then int_wrap (taskmgr_next_scheduler_id w + 1)
       else taskmgr_next_scheduler_id w).
Proof.
  intros Hpure H. split.
  - destruct c; simpl creates_task; cbv iota;
      try (refine (perform_off (keeps taskmgr_next_task_id) task_counter_off
                     clock invoke Hpure _ _ _ w tt w' H);
           [discriminate | reflexivity]).
    simpl in H. unfold bind in H.
    destruct (add_task clock func delay va w) as [[task w1]|] eqn:E; [|discriminate].
    injection H as <-. apply (add_task_counter _ _ _ _ _ _ _ E).
  - destruct c; simpl creates_scheduler; cbv iota;
      try (refine (perform_off (keeps taskmgr_next_scheduler_id)
                     scheduler_counter_off clock invoke Hpure _ _ _ w tt w' H);
           [reflexivity | discriminate]).
    simpl in H. unfold bind in H.
    destruct (add_scheduler attr_ok thread_ok w) as [[h w1]|] eqn:E; [|discriminate].
    injection H as <-. apply (add_scheduler_counter _ _ _ _ _ E).
Qed.

(** While a counter stays below [INT_MAX], a sequence of calls raises it
    by the number of creating calls in it. *)
Lemma perform_all_counters clock invoke cs :
  pure_callables invoke ->
  forall w w',
    perform_all clock invoke cs w = Some (tt, w') ->
    (INT_MIN <= taskmgr_next_task_id w ->
     taskmgr_next_task_id w + count_calls creates_task cs <= INT_MAX ->
     taskmgr_next_task_id w'
       = taskmgr_next_task_id w + count_calls creates_task cs) /\
    (INT_MIN <= taskmgr_next_scheduler_id w ->
     taskmgr_next_scheduler_id w + count_calls creates_scheduler cs <= INT_MAX ->
     taskmgr_next_scheduler_id w'
       = taskmgr_next_scheduler_id w + count_calls creates_scheduler cs).
Proof.
  intros Hpure. unfold count_calls.
  induction cs as [|c cs IH]; intros w w' H.
  - injection H as <-. simpl. lia.
  - simpl perform_all in H. unfold bind in H at 1.
    destruct (perform clock invoke c w) as [[[] w1]|] eqn:E; [|discriminate].
    destruct (perform_counters clock invoke c w w1 Hpure E) as [Ht Hs].
    destruct (IH w1 w' H) as [IHt IHs].
    simpl List.filter. split; intros Hlo Hhi.
    + destruct (creates_task c); simpl length in *.
      * rewrite int_wrap_small in Ht by lia. rewrite Ht in IHt. lia.
      * rewrite Ht in IHt. lia.
    + destruct (creates_scheduler c); simpl length in *.
      * rewrite int_wrap_small in Hs by lia. rewrite Hs in IHs. lia.
      * rewrite Hs in IHs. lia.
Qed.

Lemma free_task_sentinel task w r w' :
  free_task task w = Some (r, w') ->
  exists t', task_heap w' !! task = Some (Freed t') /\ task_id t' = -1.
Proof.
  intros H.
  destruct (task_heap w !! task) as [[t|t]|] eqn:Ht;
    try (unfold free_task, bind, load_task in H; rewrite Ht in H; discriminate).
  destruct (task_mutex t) eqn:Hm.
  - rewrite (free_task_live task w t Ht) in H by congruence.
    injection H as <- <-. eexists. split; [simpl; apply lookup_insert_eq | reflexivity].
  - exfalso. revert H. unfold free_task, pthread_mutex_destroy.
    rewrite (bind_some _ _ _ _ _ (load_task_live task w t Ht)).
    rewrite (bind_some _ _ _ _ _ (store_task_live task w t _ Ht)).
    unfold bind, load_task. simpl. rewrite lookup_insert_eq. simpl.
    rewrite Hm. discriminate.
  - rewrite (free_task_live task w t Ht) in H by congruence.
    injection H as <- <-. eexists. split; [simpl; apply lookup_insert_eq | reflexivity].
Qed.

Lemma free_scheduler_sentinel s w r w' :
  free_scheduler s w = Some (r, w') ->
  exists s', scheduler_heap w' !! s = Some (Freed s') /\ scheduler_id s' = -1.
Proof.
  unfold free_scheduler, bind, load_scheduler, store_scheduler,
    free_scheduler_block, ret.
  destruct (scheduler_heap w !! s) as [[x|x]|] eqn:Hs; try discriminate.
  simpl. rewrite Hs. simpl. rewrite lookup_insert_eq. simpl.
  intros [= <- <-]. simpl. rewrite insert_insert_eq.
  eexists. split; [apply lookup_insert_eq | reflexivity].
Qed.

(** C8, as amended.  For calls made one after the other, and callables
    that leave the state of the process alone: while a counter has not
    reached [INT_MAX], ids are assigned in strictly increasing order.  Of
    two [add_task] calls with any calls of the interface in between, the
    later one gives its task an id strictly greater than the earlier one,
    and each id is the counter plus one at the time of the call, provided
    that the counter is still below [INT_MAX] when the later call is made
    (it is the counter before the earlier call, plus one, plus the number of
    [add_task] calls in between); the same holds of the records
    [add_scheduler] allocates.  Destruction stores -1 in the id field
    before the block is released. *)
Theorem ids_increase_below_INT_MAX
  (clock : nat -> double)
  (invoke : callable_func_t -> addr -> option (list Z) -> world
            -> option (task_result_t * world)) :
  pure_callables invoke ->
  (forall w f1 d1 va1 t1 w1 cs w2 f2 d2 va2 t2 w3,
      INT_MIN <= taskmgr_next_task_id w + 1 ->
      taskmgr_next_task_id w + 1 + count_calls creates_task cs < INT_MAX ->
      add_task clock f1 d1 va1 w = Some (t1, w1) ->
      perform_all clock invoke cs w1 = Some (tt, w2) ->
      add_task clock f2 d2 va2 w2 = Some (t2, w3) ->
      exists a b,
        task_heap w1 !! t1 = Some (Live a) /\
        task_heap w3 !! t2 = Some (Live b) /\
        task_id a = taskmgr_next_task_id w + 1 /\
        taskmgr_next_task_id w2
          = taskmgr_next_task_id w + 1 + count_calls creates_task cs /\
        task_id b = taskmgr_next_task_id w2 + 1 /\
        task_id a < task_id b) /\
  (forall w x1 y1 h1 w1 cs w2 x2 y2 h2 w3,
      INT_MIN <= taskmgr_next_scheduler_id w + 1 ->
      taskmgr_next_scheduler_id w + 1 + count_calls creates_scheduler cs
        < INT_MAX ->
      add_scheduler x1 y1 w = Some (h1, w1) ->
      perform_all clock invoke cs w1 = Some (tt, w2) ->
      add_scheduler x2 y2 w2 = Some (h2, w3) ->
      exists a b,
        scheduler_heap w1 !! N.succ (heap_top w) = Some (Live a) /\
        scheduler_heap w3 !! N.succ (heap_top w2) = Some (Live b) /\
        scheduler_id a = taskmgr_next_scheduler_id w + 1 /\
        taskmgr_next_scheduler_id w2
          = taskmgr_next_scheduler_id w + 1 + count_calls creates_scheduler cs /\
        scheduler_id b = taskmgr_next_scheduler_id w2 + 1 /\
        scheduler_id a < scheduler_id b) /\
  (forall w task r w',
      free_task task w = Some (r, w') ->
      exists t', task_heap w' !! task = Some (Freed t') /\ task_id t' = -1) /\
  (forall w s r w',
      free_scheduler s w = Some (r, w') ->
      exists s', scheduler_heap w' !! s = Some (Freed s') /\ scheduler_id s' = -1).
Proof.
  intros Hpure.
  assert (Hcount : forall P cs, 0 <= count_calls P cs)
    by (intros; unfold count_calls; lia).
  split; [|split; [|split]].
  - intros w f1 d1 va1 t1 w1 cs w2 f2 d2 va2 t2 w3 Hlo Hhi H1 Hcs H2.
    pose proof (Hcount creates_task cs) as Hc0.
    destruct (add_task_counter _ _ _ _ _ _ _ H1) as (Hc1 & a & Ha & Hida).
    destruct (add_task_counter _ _ _ _ _ _ _ H2) as (Hc2 & b & Hb & Hidb).
    rewrite int_wrap_small in Hc1, Hida by lia.
    destruct (perform_all_counters clock invoke cs Hpure w1 w2 Hcs) as [Hbound _].
    specialize (Hbound ltac:(lia) ltac:(lia)).
    rewrite int_wrap_small in Hidb by lia.
    exists a, b. repeat split; try assumption; lia.
  - intros w x1 y1 h1 w1 cs w2 x2 y2 h2 w3 Hlo Hhi H1 Hcs H2.
    pose proof (Hcount creates_scheduler cs) as Hc0.
    destruct (add_scheduler_counter _ _ _ _ _ H1) as (Hc1 & _ & a & Ha & Hida).
    destruct (add_scheduler_counter _ _ _ _ _ H2) as (Hc2 & _ & b & Hb & Hidb).
    rewrite int_wrap_small in Hc1, Hida by lia.
    destruct (perform_all_counters clock invoke cs Hpure w1 w2 Hcs) as [_ Hbound].
    specialize (Hbound ltac:(lia) ltac:(lia)).
    rewrite int_wrap_small in Hidb by lia.
    exists a, b. repeat split; try assumption; lia.
  - intros w task r w'. apply free_task_sentinel.
  - intros w s r w'. apply free_scheduler_sentinel.
Qed.

(** ** The counter at [INT_MAX] *)

Lemma perform_all_app clock invoke cs1 cs2 w w1 :
  perform_all clock invoke cs1 w = Some (tt, w1) ->
  perform_all clock invoke (cs1 ++ cs2) w = perform_all clock invoke cs2 w1.
Proof.
  revert w. induction cs1 as [|c cs1 IH]; intros w H.
  - injection H as <-. reflexivity.
  - simpl in *. unfold bind in *.
    destruct (perform clock invoke c w) as [[[] v]|]; [|discriminate].
    apply IH. assumption.
Qed.

(** A process can create any number of tasks: after [taskmgr_init] and [n]
    calls of [add_task], with [n] up to [INT_MAX + 1], the counter is
    [n - 1]. *)
Lemma counter_after_n_tasks clock invoke (n : nat) :
  Z.of_nat n <= INT_MAX + 1 ->
  exists w q,
    perform_all clock invoke
      (call_taskmgr_init :: repeat (call_add_task 0%nat (double_of_Z 0) []) n) initial_world
    = Some (tt, w) /\
    taskmgr_next_task_id w = Z.of_nat n - 1 /\
    taskmgr_task_queue w = Some q.
Proof.
  induction n as [|n IH]; intros Hn.
  - eexists _, _. split; [reflexivity|]. split; reflexivity.
  - destruct IH as (w & q & Hw & Hc & Hq); [lia|].
    simpl repeat. rewrite repeat_cons.
    change (call_taskmgr_init :: repeat (call_add_task 0%nat (double_of_Z 0) []) n
              ++ [call_add_task 0%nat (double_of_Z 0) []])
      with ((call_taskmgr_init :: repeat (call_add_task 0%nat (double_of_Z 0) []) n)
              ++ [call_add_task 0%nat (double_of_Z 0) []]).
    rewrite (perform_all_app _ _ _ _ _ _ Hw).
    simpl. unfold bind at 1 2.
    rewrite (add_task_some clock 0%nat (double_of_Z 0) [] w q Hq).
    eexists _, _. split; [reflexivity|]. simpl. split; [|reflexivity].
    rewrite Hc. rewrite int_wrap_small by (unfold INT_MIN; lia). lia.
Qed.

(** C8, counterexample.  A process that has created [INT_MAX] tasks (ids 0
    to [INT_MAX - 1]) gives the next task the id [INT_MAX] and the one after
    it the id [INT_MIN]: the later id is the smaller one. *)
Lemma task_id_wraps_at_INT_MAX :
  exists cs w t1 w1 t2 w2 a b,
    perform_all second_clock (always TASK_RESULT_DONE) cs initial_world
      = Some (tt, w) /\
    add_task second_clock 0%nat (double_of_Z 0) [] w = Some (t1, w1) /\
    add_task second_clock 0%nat (double_of_Z 0) [] w1 = Some (t2, w2) /\
    task_heap w2 !! t1 = Some (Live a) /\
    task_heap w2 !! t2 = Some (Live b) /\
    task_id a = INT_MAX /\
    task_id b = INT_MIN /\
    task_id b < task_id a.
Proof.
  destruct (counter_after_n_tasks second_clock (always TASK_RESULT_DONE)
              (Z.to_nat INT_MAX)) as (w & q & Hw & Hc & Hq).
  { rewrite Z2Nat.id by (unfold INT_MAX; lia). lia. }
  rewrite Z2Nat.id in Hc by (unfold INT_MAX; lia).
  pose proof (add_task_some second_clock 0%nat (double_of_Z 0) [] w q Hq) as H1.
  cbv zeta in H1.
  match type of H1 with _ = Some (_, ?v) => set (w1 := v) in * end.
  assert (Hq1 : taskmgr_task_queue w1 = Some (q ++ [N.succ (heap_top w)]))
    by reflexivity.
  pose proof (add_task_some second_clock 0%nat (double_of_Z 0) [] w1 _ Hq1) as H2.
  cbv zeta in H2.
  eexists _, w, _, w1, _, _, _, _.
  split; [exact Hw|]. split; [exact H1|]. split; [exact H2|].
  split; [|split; [|split; [|split]]].
  - simpl. rewrite lookup_insert_ne by lia. apply lookup_insert_eq.
  - simpl. apply lookup_insert_eq.
  - simpl. rewrite Hc. reflexivity.
  - simpl. rewrite Hc. reflexivity.
  - simpl. rewrite Hc. reflexivity.
Qed.

(** ** Arguments and destroyed tasks *)

(** C4, the code at [add_task(f, 0.0, 42)].  What [add_task] returns and
    the state it leaves do not depend on the variadic arguments: nothing of
    them is stored.  The [args] field of the new task names the frame of
    the [add_task] call itself, which is off the call stack when the call
    has returned, so that reading through it yields nothing determinate. *)
Theorem add_task_keeps_frame_pointer :
  (forall clock func delay va va' w,
      add_task clock func delay va w = add_task clock func delay va' w) /\
  (exists task t w1,
      (taskmgr_init ;;; add_task second_clock 7%nat (double_of_Z 0) [42]) initial_world
        = Some (task, w1) /\
      task_heap w1 !! task = Some (Live t) /\
      task_args t = 0%nat /\
      frame_count w1 = 1%nat /\
      call_stack w1 = [] /\
      va_view w1 (task_args t) = None).
Proof.
  split.
  - intros clock func delay va va' w.
    unfold add_task, push_task, the_task_queue, malloc_task, get_current_time.
    monad_unfold. simpl. destruct (taskmgr_task_queue w); reflexivity.
  - let r := eval vm_compute in
        ((taskmgr_init ;;; add_task second_clock 7%nat (double_of_Z 0) [42]) initial_world) in
    lazymatch r with
    | Some (?task, ?w1) =>
        let b := eval vm_compute in (task_heap w1 !! task) in
        lazymatch b with
        | Some (Live ?t) => exists task, t, w1
        end
    end.
    repeat split; vm_compute; reflexivity.
Qed.

(** C5, the code at [taskmgr_init(); add_task(f, 0.0); free_task_by_id(0)].
    [free_task_by_id] (and [free_task] on the handle) returns 0 and releases
    the block, its id set to -1, but the handle stays in the Ready Queue:
    [has_task] still answers 1 for the destroyed task, and the lookups by id
    and the next tick read the released block, which is undefined. *)
Theorem freed_task_stays_queued :
  exists task w1 w2 t,
    (taskmgr_init ;;; add_task second_clock 7%nat (double_of_Z 0) []) initial_world
      = Some (task, w1) /\
    free_task_by_id 0 w1 = Some (0, w2) /\
    free_task task w1 = Some (0, w2) /\
    task_heap w2 !! task = Some (Freed t) /\
    task_id t = -1 /\
    taskmgr_task_queue w2 = Some [task] /\
    has_task task w2 = Some (1, w2) /\
    get_task_by_id (-1) w2 = None /\
    has_task_by_id 0 w2 = None /\
    taskmgr_tick second_clock (always TASK_RESULT_DONE) w2 = None.
Proof.
  let r := eval vm_compute in
      ((taskmgr_init ;;; add_task second_clock 7%nat (double_of_Z 0) []) initial_world) in
  lazymatch r with
  | Some (?task, ?w1) =>
      let r2 := eval vm_compute in (free_task_by_id 0 w1) in
      lazymatch r2 with
      | Some (_, ?w2) =>
          let b := eval vm_compute in (task_heap w2 !! task) in
          lazymatch b with
          | Some (Freed ?t) => exists task, w1, w2, t
          end
      end
  end.
  repeat split; vm_compute; reflexivity.
Qed.

(** ** Scenario 3: schedulers and a queue of tasks that are done at once *)

Lemma clock_monotone (clock : nat -> double) (r0 B : nat) :
  (forall k, (r0 <= k < B)%nat -> finite_le (clock k) (clock (S k)) = true) ->
  forall j k, (r0 <= j < k)%nat -> (k <= B)%nat ->
    finite_le (clock j) (clock k) = true.
Proof.
  intros H j k. induction k as [|k IH]; intros Hjk HkB; [lia|].
  destruct (Nat.eq_dec j k) as [->|Hne].
  - apply H. lia.
  - apply finite_le_trans with (b := clock k); [apply IH; lia | apply H; lia].
Qed.

(** One tick on such a queue runs the task at the front and frees it. *)
Lemma done_queue_tick clock invoke f r0 B p ps w :
  (forall k, (r0 <= k < B)%nat -> finite_le (clock k) (clock (S k)) = true) ->
  (forall q a v, invoke f q a v = Some (TASK_RESULT_DONE, v)) ->
  done_queue clock f r0 B (p :: ps) w ->
  exists w',
    taskmgr_tick clock invoke w = Some (0, w') /\
    done_queue clock f r0 B ps w' /\
    taskmgr_running w' = taskmgr_running w /\
    (exists e, call_log w' = e :: call_log w /\ ev_task e = p) /\
    (exists t', task_heap w' !! p = Some (Freed t')).
Proof.
  intros Hclock Hdone (Hq & Hnd & Hbound & Hall).
  destruct (Hall p (or_introl eq_refl))
    as (Hnull & t & Ht & Hf & Hm & HD & j & Hj & Hts).
  simpl in Hbound.
  eexists. split.
  - eapply taskmgr_tick_due_pure with (result := TASK_RESULT_DONE);
      try eassumption.
    + right. rewrite HD, Hts. apply double_sub_not_negative.
      apply (clock_monotone clock r0 B Hclock); lia.
    + rewrite Hf. apply Hdone.
  - apply NoDup_cons in Hnd. destruct Hnd as [Hnotin Hnd].
    rewrite list_elem_of_In in Hnotin.
    split; [|split; [reflexivity | split]].
    + split; [reflexivity|]. split; [assumption|].
      split; [simpl; destruct (task_delayable t); lia|].
      intros p' Hp'.
      destruct (Hall p' (or_intror Hp'))
        as (Hnull' & t' & Ht' & Hf' & Hm' & HD' & j' & Hj' & Hts').
      split; [assumption|]. exists t'. simpl.
      rewrite lookup_insert_ne by (intros ->; contradiction).
      repeat split; try assumption.
      exists j'. split; [|assumption].
      destruct (task_delayable t); lia.
    + eexists. split; reflexivity.
    + eexists. simpl. apply lookup_insert_eq.
Qed.

(** The loop of [taskmgr_run] on such a queue: after [k] iterations the
    first [k] tasks have been run, each once and in queue order, and the
    others are still queued. *)
Lemma taskmgr_run_loop_drains clock invoke f r0 B :
  (forall k, (r0 <= k < B)%nat -> finite_le (clock k) (clock (S k)) = true) ->
  (forall q a v, invoke f q a v = Some (TASK_RESULT_DONE, v)) ->
  forall k ps w,
    done_queue clock f r0 B ps w ->
    taskmgr_running w = true ->
    exists wk,
      taskmgr_run_loop clock invoke k w = Some (Looping, wk) /\
      done_queue clock f r0 B (skipn k ps) wk /\
      taskmgr_running wk = true /\
      map ev_task (call_log wk) = rev (firstn k ps) ++ map ev_task (call_log w).
Proof.
  intros Hclock Hdone. induction k as [|k IH]; intros ps w Hinv Hrun.
  - exists w. split; [reflexivity|].
    split; [exact Hinv | split; [exact Hrun | reflexivity]].
  - destruct ps as [|p ps].
    + assert (Hq : taskmgr_task_queue w = Some []) by apply Hinv.
      destruct (IH [] w Hinv Hrun) as (wk & Hloop & Hinv' & Hrun' & Hlog).
      exists wk. split; [|split; [|split]].
      * simpl. unfold bind at 1. unfold gets. rewrite Hrun.
        rewrite (bind_some _ _ _ _ _ (taskmgr_tick_empty clock invoke w Hq)).
        exact Hloop.
      * rewrite skipn_nil in *. exact Hinv'.
      * exact Hrun'.
      * rewrite firstn_nil in *. exact Hlog.
    + destruct (done_queue_tick clock invoke f r0 B p ps w Hclock Hdone Hinv)
        as (w1 & Htick & Hinv1 & Hrun1 & (e & Hlog1 & He) & _).
      rewrite Hrun in Hrun1.
      destruct (IH ps w1 Hinv1 Hrun1) as (wk & Hloop & Hinv' & Hrun' & Hlog).
      exists wk. split; [|split; [|split]].
      * simpl. unfold bind at 1. unfold gets. rewrite Hrun.
        rewrite (bind_some _ _ _ _ _ Htick). exact Hloop.
      * exact Hinv'.
      * exact Hrun'.
      * rewrite Hlog, Hlog1. simpl. rewrite He.
        rewrite <- app_assoc. reflexivity.
Qed.

(** [add_tasks] extends such a queue by [n] fresh tasks. *)
Lemma add_tasks_done_queue clock f va r0 B :
  forall n ps0 w,
    done_queue clock f r0 B ps0 w ->
    (r0 <= clock_reads w)%nat ->
    (clock_reads w + length ps0 + 2 * n <= B)%nat ->
    (forall p, In p ps0 -> (p <= heap_top w)%N) ->
    exists ps w',
      add_tasks clock f (double_of_Z 0) va n w = Some (ps, w') /\
      done_queue clock f r0 B (ps0 ++ ps) w' /\
      (forall p, In p (ps0 ++ ps) -> (p <= heap_top w')%N) /\
      length ps = n /\
      call_log w' = call_log w /\
      taskmgr_running w' = taskmgr_running w.
Proof.
  induction n as [|n IH]; intros ps0 w Hinv Hr0 HB Htop.
  - exists [], w. rewrite app_nil_r.
    split; [reflexivity|]. split; [exact Hinv|]. split; [exact Htop|].
    repeat split.
  - destruct Hinv as (Hq & Hnd & Hbound & Hall).
    pose proof (add_task_some clock f (double_of_Z 0) va w ps0 Hq) as Hadd.
    cbv zeta in Hadd.
    set (task := N.succ (heap_top w)) in *.
    match type of Hadd with _ = Some (_, ?v) => set (w1 := v) in * end.
    assert (Hfresh : ~ In task ps0).
    { intros Hin. apply Htop in Hin. subst task. lia. }
    assert (Hinv1 : done_queue clock f r0 B (ps0 ++ [task]) w1).
    { split; [reflexivity|]. split.
      - apply NoDup_app. split; [assumption|]. split.
        + intros x Hx Hx'. apply list_elem_of_In in Hx, Hx'.
          destruct Hx' as [<-|[]]. contradiction.
        + apply NoDup_singleton.
      - split; [simpl; rewrite length_app; simpl; lia|].
        intros p Hp. apply in_app_or in Hp. destruct Hp as [Hp|[<-|[]]].
        + destruct (Hall p Hp) as (Hnull & t & Ht & Hf & Hm & HD & j & Hj & Hts).
          split; [assumption|]. exists t. simpl.
          rewrite lookup_insert_ne by (intros <-; contradiction).
          repeat split; try assumption. exists j. split; [lia | assumption].
        + split; [subst task; unfold NULL; lia|].
          eexists. simpl. split; [apply lookup_insert_eq|].
          repeat split. exists (clock_reads w). split; [lia | reflexivity]. }
    assert (Htop1 : forall p, In p (ps0 ++ [task]) -> (p <= heap_top w1)%N).
    { intros p Hp. apply in_app_or in Hp. simpl.
      destruct Hp as [Hp|[<-|[]]]; [apply Htop in Hp; subst task; lia | lia]. }
    destruct (IH (ps0 ++ [task]) w1 Hinv1)
      as (ps & w' & Hrest & Hinv' & Htop' & Hlen & Hlog & Hrun).
    { simpl. lia. }
    { simpl. rewrite length_app. simpl. lia. }
    { exact Htop1. }
    exists (task :: ps), w'.
    rewrite <- app_assoc in Hinv', Htop'. simpl in Hinv', Htop'.
    split; [|split; [exact Hinv'|]; split; [exact Htop'|];
              repeat split; try assumption; simpl; congruence].
    simpl. rewrite (bind_some _ _ _ _ _ Hadd).
    rewrite (bind_some _ _ _ _ _ Hrest). reflexivity.
Qed.

(** [add_scheduler] leaves the tasks, the clock, the log and the running
    flag alone. *)
Lemma add_scheduler_tasks attr_ok thread_ok :
  respects
    (keeps (fun w => (taskmgr_task_queue w, task_heap w, clock_reads w,
                      call_log w, taskmgr_running w)))
    (add_scheduler attr_ok thread_ok).
Proof.
  unfold add_scheduler, push_scheduler.
  respects_auto ltac:(unfold keeps; reflexivity).
Qed.

Lemma firstn_skipn_firstn {A} (l : list A) :
  forall k m, firstn k l ++ firstn m (skipn k l) = firstn (k + m) l.
Proof.
  induction l as [|x l IH]; intros k m.
  - rewrite skipn_nil, !firstn_nil. reflexivity.
  - destruct k as [|k]; [reflexivity|]. simpl. rewrite IH. reflexivity.
Qed.

Lemma done_queue_transfer clock f r0 B ps w w' :
  keeps (fun w => (taskmgr_task_queue w, task_heap w, clock_reads w,
                   call_log w, taskmgr_running w)) w w' ->
  done_queue clock f r0 B ps w -> done_queue clock f r0 B ps w'.
Proof.
  unfold keeps. intros [= Hq Hh Hr _ _] (Hq' & Hnd & Hbound & Hall).
  unfold done_queue. rewrite Hq, Hh, Hr. auto.
Qed.

(** C6, as amended.  Let [n] tasks that are done at their first call be
    queued, under a clock that does not run backwards (its next [2 * n]
    readings are finite and none is below the one before), and let a first
    scheduler be created.  Its thread finds the running flag clear, sets it
    and enters the loop.  A second scheduler may be created after any
    number [k] of iterations of that loop: its thread finds the flag set and
    returns at once, in the state it started in.  The loop of the first
    thread, continued for [m] more iterations with [n <= k + m], leaves the
    Ready Queue empty, having invoked each of the [n] tasks exactly once, in
    the order of the queue. *)
Theorem second_scheduler_returns_first_drains
  (clock : nat -> double)
  (invoke : callable_func_t -> addr -> option (list Z) -> world
            -> option (task_result_t * world))
  (f : callable_func_t) (va : list Z) (n : nat) (w : world) :
  (forall k, (clock_reads w <= k < clock_reads w + 2 * n)%nat ->
             finite_le (clock k) (clock (S k)) = true) ->
  (forall q a v, invoke f q a v = Some (TASK_RESULT_DONE, v)) ->
  taskmgr_running w = false ->
  exists ps w0,
    (taskmgr_init ;;; add_tasks clock f (double_of_Z 0) va n) w = Some (ps, w0) /\
    length ps = n /\
    NoDup ps /\
    forall x1 y1 h1 w1,
      add_scheduler x1 y1 w0 = Some (h1, w1) ->
      forall k m, (n <= k + m)%nat ->
        exists wk,
          taskmgr_run clock invoke k w1 = Some (Looping, wk) /\
          forall x2 y2 h2 w2,
            add_scheduler x2 y2 wk = Some (h2, w2) ->
            (forall i,
                taskmgr_scheduler_run clock invoke i w2 = Some (Some NULL, w2)) /\
            exists wf,
              taskmgr_run_loop clock invoke m w2 = Some (Looping, wf) /\
              taskmgr_task_queue wf = Some [] /\
              map ev_task (call_log wf) = rev ps ++ map ev_task (call_log w).
Proof.
  intros Hclock Hdone Hrun.
  set (wi := set_scheduler_queue (Some queue_init)
               (set_task_queue (Some queue_init) w)).
  assert (Hinit : taskmgr_init w = Some (0, wi)).
  { unfold taskmgr_init. monad_unfold. rewrite Hrun. reflexivity. }
  set (r0 := clock_reads w) in *.
  set (B := (r0 + 2 * n)%nat) in *.
  assert (Hinv0 : done_queue clock f r0 B [] wi).
  { split; [reflexivity|]. split; [apply NoDup_nil_2|].
    split; [simpl; subst B r0; lia | intros p []]. }
  destruct (add_tasks_done_queue clock f va r0 B n [] wi Hinv0)
    as (ps & w0 & Hadd & Hinv & _ & Hlen & Hlog0 & Hrun0).
  { simpl. subst r0. lia. }
  { simpl. subst B r0. lia. }
  { intros p []. }
  simpl in Hinv.
  exists ps, w0. split; [rewrite (bind_some _ _ _ _ _ Hinit); exact Hadd|].
  split; [exact Hlen|]. split; [apply Hinv|].
  intros x1 y1 h1 w1 Hs1 k m Hkm.
  pose proof (add_scheduler_tasks x1 y1 w0 h1 w1 Hs1) as Hk1.
  pose proof (done_queue_transfer clock f r0 B ps w0 w1 Hk1 Hinv) as Hinv1.
  injection Hk1 as _ _ _ Hlog1 Hrun1.
  assert (Hinv1' : done_queue clock f r0 B ps (set_running true w1)) by exact Hinv1.
  destruct (taskmgr_run_loop_drains clock invoke f r0 B Hclock Hdone k ps
              (set_running true w1) Hinv1' eq_refl)
    as (wk & Hloop & Hinvk & Hrunk & Hlogk).
  exists wk. split.
  { unfold taskmgr_run. monad_unfold. rewrite Hrun1, Hrun0. simpl.
    change (taskmgr_running wi) with (taskmgr_running w). rewrite Hrun.
    exact Hloop. }
  intros x2 y2 h2 w2 Hs2.
  pose proof (add_scheduler_tasks x2 y2 wk h2 w2 Hs2) as Hk2.
  pose proof (done_queue_transfer clock f r0 B _ wk w2 Hk2 Hinvk) as Hinv2.
  injection Hk2 as _ _ _ Hlog2 Hrun2.
  rewrite Hrunk in Hrun2.
  split.
  { intros i. unfold taskmgr_scheduler_run, taskmgr_run. monad_unfold.
    rewrite Hrun2. reflexivity. }
  destruct (taskmgr_run_loop_drains clock invoke f r0 B Hclock Hdone m _ w2 Hinv2 Hrun2)
    as (wf & Hloopf & Hinvf & _ & Hlogf).
  exists wf. split; [exact Hloopf|].
  assert (Hall : firstn (k + m) ps = ps) by (apply firstn_all2; lia).
  split.
  - destruct Hinvf as (Hqf & _). rewrite Hqf. f_equal.
    rewrite skipn_skipn. apply skipn_all2. lia.
  - rewrite Hlogf, Hlog2, Hlogk. simpl. rewrite Hlog1, Hlog0.
    change (call_log wi) with (call_log w).
    rewrite app_assoc, <- rev_app_distr, firstn_skipn_firstn, Hall.
    reflexivity.
Qed.

(** C6, counterexample.  [taskmgr_init], 100 calls of [add_task] with a
    callable that is done at once, [add_scheduler], the start of its thread
    (which sets the flag and is about to enter the loop) and a second
    [add_scheduler]: two schedulers exist and 100 due tasks are queued, yet
    the thread of the second scheduler returns in the state it started in,
    with no invocation logged.  It does not drain the queue. *)
Lemma second_scheduler_runs_nothing :
  match (taskmgr_init ;;;
         add_tasks second_clock 0%nat (double_of_Z 0) [] 100 ;;;
         add_scheduler true true ;;;
         taskmgr_run second_clock (always TASK_RESULT_DONE) 0 ;;;
         add_scheduler true true) initial_world with
  | Some (_, w) =>
      length (threads w) = 2%nat /\
      (length <$> taskmgr_scheduler_queue w) = Some 2%nat /\
      (length <$> taskmgr_task_queue w) = Some 100%nat /\
      taskmgr_scheduler_run second_clock (always TASK_RESULT_DONE) 1000 w
        = Some (Some NULL, w) /\
      call_log w = []
  | None => False
  end.
Proof. vm_compute. repeat split. Qed.

(** * The theorems at concrete inputs *)

Lemma taskmgr_tick_one_unit_witness :
  taskmgr_tick second_clock (always TASK_RESULT_WAIT) started_world
    = Some (0, started_world) /\
  taskmgr_tick second_clock (always TASK_RESULT_WAIT)
    (one_task_world (double_of_Z 5))
    = Some (0, set_task_queue (Some [1%N])
                 (set_clock_reads 2 (one_task_world (double_of_Z 5)))) /\
  taskmgr_tick second_clock (always TASK_RESULT_WAIT)
    (one_task_world (double_of_Z 0))
    = Some (0,
        set_task_queue (Some [1%N])
          (set_call_log [Invoked 1%N 0%nat 2%nat]
             (set_clock_reads 3
                (set_task_heap
                   {[ 1%N := Live (Task 0 0%nat 0%nat true (double_of_Z 0)
                                     (second_clock 2) MutexUnlocked) ]}
                   (one_task_world (double_of_Z 0)))))) /\
  va_view (returning_add_task_world (double_of_Z 0)) 0%nat = Some [42] /\
  taskmgr_tick second_clock done_on_42 (returning_add_task_world (double_of_Z 0))
    = Some (0,
        set_task_queue (Some [])
          (set_call_log [Invoked 1%N 0%nat 2%nat]
             (set_clock_reads 2
                (set_task_heap
                   {[ 1%N := Freed (Task (-1) 0%nat 0%nat false (double_of_Z 0)
                                      (double_of_Z 0) MutexDestroyed) ]}
                   (returning_add_task_world (double_of_Z 0)))))) /\
  va_view (one_task_world (double_of_Z 0)) 0%nat = None /\
  taskmgr_tick second_clock done_on_42 (one_task_world (double_of_Z 0)) = None.
Proof.
  split; [|split; [|split; [|split; [|split; [|split]]]]].
  - apply (proj1 (taskmgr_tick_one_unit second_clock
                    (always TASK_RESULT_WAIT) started_world)).
    reflexivity.
  - apply (proj1 (proj2 (taskmgr_tick_one_unit second_clock
                           (always TASK_RESULT_WAIT)
                           (one_task_world (double_of_Z 5)))
                    1%N [] (first_task (double_of_Z 5))
                    eq_refl ltac:(discriminate) eq_refl));
      vm_compute; reflexivity.
  - refine (eq_trans
              (proj2 (proj2 (proj2 (proj2 (proj2
                 (taskmgr_tick_one_unit second_clock
                    (always TASK_RESULT_WAIT) (one_task_world (double_of_Z 0)))
                 1%N [] (first_task (double_of_Z 0))
                 eq_refl ltac:(discriminate) eq_refl)))
                 _ eq_refl)
                 TASK_RESULT_WAIT _
                 (Task 0 0%nat 0%nat true (double_of_Z 0) (second_clock 0)
                    MutexLocked) []
                 eq_refl _ eq_refl eq_refl) _).
    + right. vm_compute. reflexivity.
    + vm_compute. reflexivity.
    + vm_compute. reflexivity.
  - apply (proj1 (proj2 (proj2
             (taskmgr_tick_one_unit second_clock done_on_42
                (returning_add_task_world (double_of_Z 0)))
             1%N [] (first_task (double_of_Z 0))
             eq_refl ltac:(discriminate) eq_refl)) [42] []).
    reflexivity.
  - refine (eq_trans
              (proj2 (proj2 (proj2 (proj2 (proj2
                 (taskmgr_tick_one_unit second_clock done_on_42
                    (returning_add_task_world (double_of_Z 0)))
                 1%N [] (first_task (double_of_Z 0))
                 eq_refl ltac:(discriminate) eq_refl)))
                 _ eq_refl)
                 TASK_RESULT_DONE _
                 (Task 0 0%nat 0%nat true (double_of_Z 0) (second_clock 0)
                    MutexLocked) []
                 eq_refl _ eq_refl eq_refl) _).
    + right. vm_compute. reflexivity.
    + vm_compute. reflexivity.
    + vm_compute. reflexivity.
  - apply (proj1 (proj2 (proj2 (proj2
             (taskmgr_tick_one_unit second_clock done_on_42
                (one_task_world (double_of_Z 0)))
             1%N [] (first_task (double_of_Z 0))
             eq_refl ltac:(discriminate) eq_refl)))).
    intros fr [].
  - apply (proj1 (proj2 (proj2 (proj2 (proj2
             (taskmgr_tick_one_unit second_clock done_on_42
                (one_task_world (double_of_Z 0)))
             1%N [] (first_task (double_of_Z 0))
             eq_refl ltac:(discriminate) eq_refl)))
             ltac:(right; vm_compute; reflexivity) eq_refl)).
    reflexivity.
Defined.


Lemma done_task_runs_once_witness :
  exists task t w1,
    (taskmgr_init ;;; add_task second_clock 0%nat (double_of_Z 0) [42]) initial_world
      = Some (task, w1) /\
    task_heap w1 !! task = Some (Live t) /\
    taskmgr_task_queue w1 = Some [task] /\
    forall n, (1 <= n)%nat ->
      exists wn t',
        drive_ticks second_clock (always TASK_RESULT_DONE) n w1 = Some (tt, wn) /\
        call_log wn
          = Invoked task 0%nat (S (S (clock_reads initial_world)))
            :: call_log initial_world /\
        task_heap wn !! task = Some (Freed t') /\
        task_id t' = -1 /\
        taskmgr_task_queue wn = Some [] /\
        has_task_by_id (task_id t) wn = Some (0, wn) /\
        get_task_by_id (task_id t) wn = Some (NULL, wn).
Proof.
  apply (done_task_runs_once second_clock (always TASK_RESULT_DONE)
           0%nat [42] initial_world).
  - vm_compute. reflexivity.
  - intros p a v. reflexivity.
  - reflexivity.
Defined.

Lemma taskmgr_run_while_running_witness :
  taskmgr_run second_clock (always TASK_RESULT_DONE) 7
    (set_running true (one_task_world (double_of_Z 0)))
  = Some (Returned 1, set_running true (one_task_world (double_of_Z 0))).
Proof.
  apply (taskmgr_run_while_running second_clock (always TASK_RESULT_DONE) 7
           (set_running true (one_task_world (double_of_Z 0)))).
  reflexivity.
Defined.

Lemma remove_task_not_queued_witness :
  remove_task_by_id 5 (one_task_world (double_of_Z 0)) = Some (1, one_task_world (double_of_Z 0)) /\
  remove_task 9%N (one_task_world (double_of_Z 0)) = Some (1, one_task_world (double_of_Z 0)).
Proof.
  pose proof (remove_task_not_queued (one_task_world (double_of_Z 0)) [1%N] eq_refl) as [H1 H2].
  split.
  - apply H1. intros p [<-|[]]. exists (first_task (double_of_Z 0)).
    split; [reflexivity | discriminate].
  - apply H2. intros [H|[]]. discriminate.
Defined.

Lemma ids_increase_below_INT_MAX_witness :
  exists a b,
    task_heap
      (state_after (add_task second_clock 0%nat (double_of_Z 0) [])
         (set_next_task_id (INT_MAX - 2) started_world)) !! 1%N
      = Some (Live a) /\
    task_heap
      (state_after
         (add_task second_clock 0%nat (double_of_Z 0) [] ;;;
          perform_all second_clock (always TASK_RESULT_DONE) [call_taskmgr_tick] ;;;
          add_task second_clock 0%nat (double_of_Z 0) [])
         (set_next_task_id (INT_MAX - 2) started_world)) !! 2%N
      = Some (Live b) /\
    task_id a = taskmgr_next_task_id (set_next_task_id (INT_MAX - 2) started_world) + 1 /\
    taskmgr_next_task_id
      (state_after
         (add_task second_clock 0%nat (double_of_Z 0) [] ;;;
          perform_all second_clock (always TASK_RESULT_DONE) [call_taskmgr_tick])
         (set_next_task_id (INT_MAX - 2) started_world))
      = taskmgr_next_task_id (set_next_task_id (INT_MAX - 2) started_world) + 1
        + count_calls creates_task [call_taskmgr_tick] /\
    task_id b
      = taskmgr_next_task_id
          (state_after
             (add_task second_clock 0%nat (double_of_Z 0) [] ;;;
              perform_all second_clock (always TASK_RESULT_DONE)
                [call_taskmgr_tick])
             (set_next_task_id (INT_MAX - 2) started_world)) + 1 /\
    task_id a < task_id b.
Proof.
  apply (proj1 (ids_increase_below_INT_MAX second_clock (always TASK_RESULT_DONE)
                  ltac:(intros f p a v r v' [= _ <-]; reflexivity))
           (set_next_task_id (INT_MAX - 2) started_world)
           0%nat (double_of_Z 0) [] 1%N
           (state_after (add_task second_clock 0%nat (double_of_Z 0) [])
              (set_next_task_id (INT_MAX - 2) started_world))
           [call_taskmgr_tick]
           (state_after
              (add_task second_clock 0%nat (double_of_Z 0) [] ;;;
               perform_all second_clock (always TASK_RESULT_DONE)
                 [call_taskmgr_tick])
              (set_next_task_id (INT_MAX - 2) started_world))
           0%nat (double_of_Z 0) [] 2%N
           (state_after
              (add_task second_clock 0%nat (double_of_Z 0) [] ;;;
               perform_all second_clock (always TASK_RESULT_DONE)
                 [call_taskmgr_tick] ;;;
               add_task second_clock 0%nat (double_of_Z 0) [])
              (set_next_task_id (INT_MAX - 2) started_world))).
  - vm_compute. discriminate.
  - vm_compute. reflexivity.
  - vm_compute. reflexivity.
  - vm_compute. reflexivity.
  - vm_compute. reflexivity.
Defined.

Lemma second_scheduler_returns_first_drains_witness :
  exists ps w0,
    (taskmgr_init ;;; add_tasks second_clock 0%nat (double_of_Z 0) [] 3) initial_world
      = Some (ps, w0) /\
    length ps = 3%nat /\
    NoDup ps /\
    forall x1 y1 h1 w1,
      add_scheduler x1 y1 w0 = Some (h1, w1) ->
      forall k m, (3 <= k + m)%nat ->
        exists wk,
          taskmgr_run second_clock (always TASK_RESULT_DONE) k w1
            = Some (Looping, wk) /\
          forall x2 y2 h2 w2,
            add_scheduler x2 y2 wk = Some (h2, w2) ->
            (forall i,
                taskmgr_scheduler_run second_clock (always TASK_RESULT_DONE) i w2
                = Some (Some NULL, w2)) /\
            exists wf,
              taskmgr_run_loop second_clock (always TASK_RESULT_DONE) m w2
                = Some (Looping, wf) /\
              taskmgr_task_queue wf = Some [] /\
              map ev_task (call_log wf)
                = rev ps ++ map ev_task (call_log initial_world).
Proof.
  apply (second_scheduler_returns_first_drains second_clock
           (always TASK_RESULT_DONE) 0%nat [] 3 initial_world).
  - intros k Hk. simpl in Hk.
    do 6 (destruct k as [|k]; [vm_compute; reflexivity|]). lia.
  - intros q a v. reflexivity.
  - reflexivity.
Defined.

(** ** Runs of the model *)

Example queue_remove_object_found :
  queue_remove_object [3%N; 5%N; 3%N] 3%N = (0, [5%N; 3%N]).
Proof. reflexivity. Qed.

Example queue_remove_object_absent :
  queue_remove_object [3%N; 5%N] 4%N = (1, [3%N; 5%N]).
Proof. reflexivity. Qed.

Example int_wrap_at_INT_MAX : int_wrap (INT_MAX + 1) = INT_MIN.
Proof. reflexivity. Qed.

(** A task with delay 3 that always waits, under a clock that advances by
    one second per reading: in 12 ticks it is invoked four times, after 4,
    8, 12 and 16 readings of the clock. *)
Example timer_run :
  invocations_of 1%N
    (call_log (state_after (drive_ticks second_clock (always TASK_RESULT_WAIT) 12)
                 (one_task_world (double_of_Z 3))))
  = [16%nat; 12%nat; 8%nat; 4%nat].
Proof. vm_compute. reflexivity. Qed.

(** The subtraction rounds to nearest: [1.2 - 0.2] and [1.0 - 2^-60] are
    both 1.0. *)
Example double_sub_rounds :
  double_sub (double_div (double_of_Z 6) (double_of_Z 5))
             (double_div (double_of_Z 1) (double_of_Z 5)) = double_of_Z 1 /\
  double_sub (double_of_Z 1) (S754_finite false 4503599627370496 (-112))
    = double_of_Z 1.
Proof. split; vm_compute; reflexivity. Qed.

(** A task stamped at [2^-60] with delay 1.0 is invoked by the tick that
    reads 1.0, although less than one second lies between the readings. *)
Example rounded_delay_run :
  call_log
    (state_after
       (taskmgr_tick (fun _ => double_of_Z 1) (always TASK_RESULT_WAIT))
       (set_task_heap
          {[ 1%N := Live (Task 0 0%nat 0%nat true (double_of_Z 1)
                            (S754_finite false 4503599627370496 (-112))
                            MutexUnlocked) ]}
          (one_task_world (double_of_Z 1))))
  = [Invoked 1%N 0%nat 2%nat].
Proof. vm_compute. reflexivity. Qed.

(** A task that always continues is invoked at every tick once it was due,
    without a further reading of the clock. *)
Example continue_run :
  invocations_of 1%N
    (call_log (state_after (drive_ticks second_clock (always TASK_RESULT_CONT) 5)
                 (one_task_world (double_of_Z 3))))
  = [4%nat; 4%nat; 4%nat].
Proof. vm_compute. reflexivity. Qed.

(** * Further properties of [task.c] *)

(** ** Lists *)

Lemma NoDup_submseteq_inv {A} (l k : list A) : l ⊆+ k -> NoDup k -> NoDup l.
Proof.
  induction 1 as [|x l k Hlk IH|x y l|x l k Hlk IH|l k m Hlk IH1 Hkm IH2];
    intros Hnd.
  - constructor.
  - apply NoDup_cons in Hnd. destruct Hnd as [Hx Hnd].
    apply NoDup_cons. split; [|auto].
    intros Hin. apply Hx. eapply elem_of_submseteq; eassumption.
  - apply NoDup_cons in Hnd. destruct Hnd as [Hx Hnd].
    apply NoDup_cons in Hnd. destruct Hnd as [Hy Hnd].
    apply NoDup_cons. split.
    + intros [->|Hin]%elem_of_cons; [apply Hx; left | contradiction].
    + apply NoDup_cons. split; [|assumption].
      intros Hin. apply Hx. right. assumption.
  - apply NoDup_cons in Hnd. destruct Hnd as [_ Hnd]. auto.
  - auto.
Qed.

Lemma queue_remove_first_sublist q x : queue_remove_first q x `sublist_of` q.
Proof.
  induction q as [|y q IH]; simpl.
  - constructor.
  - destruct (N.eqb y x).
    + apply sublist_cons. reflexivity.
    + apply sublist_skip. exact IH.
Qed.

Lemma queue_remove_first_NoDup q x :
  NoDup q -> ~ In x (queue_remove_first q x).
Proof.
  induction q as [|y q IH]; simpl; intros Hnd; [tauto|].
  apply NoDup_cons in Hnd. destruct Hnd as [Hy Hnd].
  rewrite list_elem_of_In in Hy.
  destruct (N.eqb_spec y x) as [->|Hne]; [assumption|].
  intros [H|H]; [contradiction | apply (IH Hnd H)].
Qed.

Lemma queue_remove_first_other q x y :
  y <> x -> In y q -> In y (queue_remove_first q x).
Proof.
  intros Hne. induction q as [|z q IH]; simpl; [tauto|].
  destruct (N.eqb_spec z x) as [->|Hzx].
  - intros [H|H]; [congruence | assumption].
  - intros [H|H]; [left; assumption | right; auto].
Qed.

(** ** Lookup of a task by id *)

Lemma scan_for_id_found w id pre p suf :
  (forall p', In p' pre ->
     exists t, task_heap w !! p' = Some (Live t) /\ task_id t <> id) ->
  id_of w p = Some id ->
  scan_for_id w id (pre ++ p :: suf) = Some p.
Proof.
  intros Hpre Hp. induction pre as [|p' pre IH]; simpl.
  - unfold id_of in Hp. destruct (task_heap w !! p) as [[t|t]|]; try discriminate.
    injection Hp as ->. rewrite Z.eqb_refl. reflexivity.
  - destruct (Hpre p' (or_introl eq_refl)) as (t & -> & Hne).
    destruct (Z.eqb_spec (task_id t) id); [contradiction|].
    apply IH. intros x Hx. apply Hpre. right. assumption.
Qed.

Lemma scan_for_id_total w id q :
  (forall p, In p q -> exists t, task_heap w !! p = Some (Live t)) ->
  exists p, scan_for_id w id q = Some p /\
            (p = NULL \/ (In p q /\ id_of w p = Some id)).
Proof.
  induction q as [|p q IH]; intros Hlive; simpl.
  - exists NULL. split; [reflexivity | left; reflexivity].
  - destruct (Hlive p (or_introl eq_refl)) as (t & Ht). rewrite Ht.
    destruct (Z.eqb_spec (task_id t) id) as [E|E].
    + exists p. split; [reflexivity|]. right. split; [left; reflexivity|].
      unfold id_of. rewrite Ht, E. reflexivity.
    + destruct IH as (p' & Hs & Hp'); [intros x Hx; apply Hlive; right; exact Hx|].
      exists p'. split; [exact Hs|].
      destruct Hp' as [->|[Hin Hid]]; [left; reflexivity | right; tauto].
Qed.

(** [get_task_by_id] when the first queued task with the id is [p]. *)
Lemma get_task_by_id_found w q id pre p suf :
  taskmgr_task_queue w = Some q ->
  (forall x, In x q -> x <> NULL /\ exists t, task_heap w !! x = Some (Live t)) ->
  q = pre ++ p :: suf ->
  id_of w p = Some id ->
  (forall p', In p' pre -> id_of w p' <> Some id) ->
  get_task_by_id id w = Some (p, w) /\
  has_task_by_id id w = Some (1, w).
Proof.
  intros Hq Hlive -> Hid Hpre.
  unfold has_task_by_id, bind. rewrite (get_task_by_id_scan w id _ Hq).
  rewrite (scan_for_id_found w id pre p suf); [|idtac|exact Hid].
  - simpl. destruct (Hlive p) as [Hnull _]; [apply in_or_app; right; left; reflexivity|].
    apply N.eqb_neq in Hnull. rewrite Hnull. split; reflexivity.
  - intros x Hx.
    destruct (Hlive x) as (_ & t & Ht); [apply in_or_app; left; exact Hx|].
    exists t. split; [exact Ht|]. intros E. apply (Hpre x Hx).
    unfold id_of. rewrite Ht, E. reflexivity.
Qed.

(** X1.  With live, non-[NULL] handles in the Ready Queue,
    [get_task_by_id] is a read-only search in queue order: it is defined
    and leaves the state as it is; it returns [NULL] when no queued task has
    the id, and otherwise the first handle in the queue whose task has it.
    [has_task_by_id] returns 0 in the first case and 1 in the second. *)
Theorem get_task_by_id_first (w : world) (q : queue_t) (id : Z) :
  taskmgr_task_queue w = Some q ->
  (forall p, In p q ->
     p <> NULL /\ exists t, task_heap w !! p = Some (Live t)) ->
  (exists p, get_task_by_id id w = Some (p, w)) /\
  ((forall p, In p q -> id_of w p <> Some id) ->
     get_task_by_id id w = Some (NULL, w) /\
     has_task_by_id id w = Some (0, w)) /\
  (forall pre p suf,
     q = pre ++ p :: suf ->
     id_of w p = Some id ->
     (forall p', In p' pre -> id_of w p' <> Some id) ->
     get_task_by_id id w = Some (p, w) /\
     has_task_by_id id w = Some (1, w)).
Proof.
  intros Hq Hlive.
  assert (Hlive' : forall p, In p q -> exists t, task_heap w !! p = Some (Live t))
    by (intros p Hp; apply Hlive; exact Hp).
  split; [|split].
  - rewrite (get_task_by_id_scan w id q Hq).
    destruct (scan_for_id_total w id q Hlive') as (p & -> & _). eauto.
  - intros Hno.
    unfold has_task_by_id, bind. rewrite (get_task_by_id_scan w id q Hq).
    rewrite (scan_for_id_absent w id q).
    + split; reflexivity.
    + intros p Hp. destruct (Hlive' p Hp) as (t & Ht).
      exists t. split; [exact Ht|]. intros E. apply (Hno p Hp).
      unfold id_of. rewrite Ht, E. reflexivity.
  - intros pre p suf Hsplit Hid Hpre.
    apply (get_task_by_id_found w q id pre p suf); assumption.
Qed.

Lemma get_task_by_id_first_witness :
  get_task_by_id 0 (one_task_world (double_of_Z 0)) = Some (1%N, one_task_world (double_of_Z 0)) /\
  has_task_by_id 0 (one_task_world (double_of_Z 0)) = Some (1, one_task_world (double_of_Z 0)).
Proof.
  apply (proj2 (proj2 (get_task_by_id_first (one_task_world (double_of_Z 0)) [1%N] 0 eq_refl
                         ltac:(intros p [<-|[]]; split;
                               [discriminate | exists (first_task (double_of_Z 0)); reflexivity])))
           [] 1%N [] eq_refl eq_refl ltac:(intros p' [])).
Defined.

(** ** Tidy queues *)

Lemma fmap_ext_In {A B} (f g : A -> B) (l : list A) :
  (forall x, In x l -> f x = g x) -> f <$> l = g <$> l.
Proof.
  intros H. apply list_fmap_ext. intros i x Hi. apply H.
  apply list_elem_of_In. eapply list_elem_of_lookup_2. eassumption.
Qed.

(** A state whose queue holds some of the handles of a tidy queue, their
    tasks live with the same ids and a free guard, is tidy. *)
Lemma tasks_tidy_step w w' q q2 :
  tasks_tidy w ->
  taskmgr_task_queue w = Some q ->
  taskmgr_task_queue w' = Some q2 ->
  q2 ⊆+ q ->
  taskmgr_next_task_id w <= taskmgr_next_task_id w' ->
  (heap_top w <= heap_top w')%N ->
  (forall p, In p q2 ->
     exists t t', task_heap w !! p = Some (Live t) /\
                  task_heap w' !! p = Some (Live t') /\
                  task_id t' = task_id t /\
                  task_mutex t' = MutexUnlocked) ->
  tasks_tidy w'.
Proof.
  intros (q0 & Hq0 & Hnd & Hc & Hall) Hq Hq2 Hsub Hcnt Htop Hblocks.
  assert (q0 = q) by congruence. subst q0.
  assert (Hin : forall p, In p q2 -> In p q).
  { intros p Hp. apply list_elem_of_In. eapply elem_of_submseteq; [|exact Hsub].
    apply list_elem_of_In. exact Hp. }
  exists q2. split; [exact Hq2|]. split; [|split; [lia|]].
  - rewrite (fmap_ext_In (id_of w') (id_of w) q2).
    + eapply NoDup_submseteq_inv; [|exact Hnd]. apply fmap_submseteq. exact Hsub.
    + intros p Hp. destruct (Hblocks p Hp) as (t & t' & Ht & Ht' & Hid & _).
      unfold id_of. rewrite Ht, Ht', Hid. reflexivity.
  - intros p Hp.
    destruct (Hall p (Hin p Hp)) as (Hnull & Hle & t0 & Ht0 & _ & Hid0).
    destruct (Hblocks p Hp) as (t & t' & Ht & Ht' & Hid & Hm).
    assert (t0 = t) by congruence. subst t0.
    split; [exact Hnull|]. split; [lia|].
    exists t'. split; [exact Ht'|]. split; [exact Hm|]. rewrite Hid. lia.
Qed.

Lemma tasks_tidy_frame w w' :
  taskmgr_task_queue w' = taskmgr_task_queue w ->
  task_heap w' = task_heap w ->
  taskmgr_next_task_id w' = taskmgr_next_task_id w ->
  (heap_top w <= heap_top w')%N ->
  tasks_tidy w -> tasks_tidy w'.
Proof.
  intros Hq Hh Hc Htop Htidy.
  pose proof Htidy as (q & Hq0 & Hrest).
  apply (tasks_tidy_step w w' q q Htidy); try congruence; try lia.
  - reflexivity.
  - intros p Hp. destruct Hrest as (_ & _ & Hall).
    destruct (Hall p Hp) as (_ & _ & t & Ht & Hm & _).
    exists t, t. rewrite Hh. repeat split; assumption.
Qed.

Lemma schedulers_tidy_frame w w' :
  taskmgr_scheduler_queue w' = taskmgr_scheduler_queue w ->
  scheduler_heap w' = scheduler_heap w ->
  taskmgr_next_scheduler_id w' = taskmgr_next_scheduler_id w ->
  (heap_top w <= heap_top w')%N ->
  schedulers_tidy w -> schedulers_tidy w'.
Proof.
  intros Hq Hh Hc Htop (q & Hq0 & Hnd & Hcnt & Hall).
  exists q. split; [congruence|]. split; [|split; [lia|]].
  - rewrite (fmap_ext_In (scheduler_id_of w') (scheduler_id_of w) q); [exact Hnd|].
    intros s _. unfold scheduler_id_of. rewrite Hh. reflexivity.
  - intros s Hs. destruct (Hall s Hs) as (Hnull & Hle & x & Hx & Hid).
    split; [exact Hnull|]. split; [lia|]. exists x. rewrite Hh, Hc. tauto.
Qed.

(** On a tidy queue a tick is defined and returns 0. *)
Lemma taskmgr_tick_defined clock invoke w :
  pure_callables invoke ->
  returning_callables invoke ->
  tasks_tidy w ->
  exists w', taskmgr_tick clock invoke w = Some (0, w').
Proof.
  intros Hpure Hret (q & Hq & Hnd & Hc & Hall).
  destruct q as [|task q'].
  - exists w. apply taskmgr_tick_empty. exact Hq.
  - destruct (Hall task (or_introl eq_refl)) as (Hnull & _ & t & Ht & Hm & _).
    assert (Hcase :
      (task_delayable t = true /\
       double_lt (double_sub (clock (clock_reads w)) (task_timestamp t))
         (task_delay t) = true) \/
      (task_delayable t = false
        \/ double_lt (double_sub (clock (clock_reads w)) (task_timestamp t))
             (task_delay t) = false)).
    { destruct (task_delayable t); [|right; left; reflexivity].
      destruct (double_lt (double_sub (clock (clock_reads w)) (task_timestamp t))
                  (task_delay t)) eqn:Hlt;
        [left; split; reflexivity | right; right; reflexivity]. }
    destruct Hcase as [[Hd Hlt]|Hdue].
    + eexists. eapply taskmgr_tick_early; eassumption.
    + destruct (Hret (task_func t) task (va_view w (task_args t))
                  (at_invocation w task q' t)) as (result & w2 & Hinv).
      assert (w2 = at_invocation w task q' t) by (eapply Hpure; exact Hinv).
      subst w2. eexists.
      eapply (taskmgr_tick_due_pure clock invoke w task q' t result);
        eassumption.
Qed.

(** What a tick that is one of the four cases changes, on a tidy queue. *)
Lemma tick_case_tidy clock invoke w r w' :
  tick_case clock invoke w r w' ->
  tasks_tidy w ->
  tasks_tidy w' /\
  r = 0 /\
  scheduler_side w' = scheduler_side w /\
  taskmgr_next_task_id w' = taskmgr_next_task_id w /\
  heap_top w' = heap_top w.
Proof.
  intros Hcase Htidy.
  destruct Hcase as [Hq | q' Hq | task q' t Hq Hnull Ht Hd Hearly
                    | task q' t result Hq Hnull Ht Hdue Hm Hinv].
  - repeat split; assumption.
  - exfalso. destruct Htidy as (q & Hq0 & _ & _ & Hall).
    assert (q = NULL :: q') by congruence. subst q.
    destruct (Hall NULL (or_introl eq_refl)) as [Hn _]. congruence.
  - split; [|repeat split].
    apply (tasks_tidy_step w _ (task :: q') (q' ++ [task]) Htidy Hq);
      [reflexivity | | simpl; lia | simpl; lia | ].
    + apply Permutation_submseteq. symmetry. apply Permutation_cons_append.
    + intros p Hp. destruct Htidy as (q & Hq0 & _ & _ & Hall).
      assert (q = task :: q') by congruence. subst q.
      destruct (Hall p) as (_ & _ & tp & Htp & Hmp & _).
      { apply in_app_or in Hp. destruct Hp as [Hp|[<-|[]]];
          [right; exact Hp | left; reflexivity]. }
      exists tp, tp. repeat split; assumption.
  - assert (Hothers : forall p, In p q' -> p <> task).
    { destruct Htidy as (q & Hq0 & Hnd & _ & _).
      assert (q = task :: q') by congruence. subst q.
      apply NoDup_fmap_1 in Hnd. apply NoDup_cons in Hnd. destruct Hnd as [Hni _].
      intros p Hp ->. apply Hni. apply list_elem_of_In. exact Hp. }
    assert (Hold : forall p, In p q' ->
              exists tp, task_heap w !! p = Some (Live tp) /\
                         task_mutex tp = MutexUnlocked).
    { destruct Htidy as (q & Hq0 & _ & _ & Hall).
      assert (q = task :: q') by congruence. subst q.
      intros p Hp. destruct (Hall p (or_intror Hp)) as (_ & _ & tp & Htp & Hmp & _).
      eauto. }
    unfold after_invocation.
    destruct result.
    + split; [|repeat split].
      apply (tasks_tidy_step w _ (task :: q') (q' ++ [task]) Htidy Hq);
        [reflexivity | | simpl; lia | simpl; lia | ].
      * apply Permutation_submseteq. symmetry. apply Permutation_cons_append.
      * intros p Hp. simpl. apply in_app_or in Hp.
        destruct Hp as [Hp|[<-|[]]].
        -- destruct (Hold p Hp) as (tp & Htp & Hmp).
           exists tp, tp. rewrite lookup_insert_ne by (intros E; apply (Hothers p Hp); congruence).
           repeat split; assumption.
        -- exists t, (with_delayable false t). rewrite lookup_insert_eq.
           repeat split; assumption.
    + split; [|repeat split].
      apply (tasks_tidy_step w _ (task :: q') (q' ++ [task]) Htidy Hq);
        [reflexivity | | simpl; lia | simpl; lia | ].
      * apply Permutation_submseteq. symmetry. apply Permutation_cons_append.
      * intros p Hp. simpl. apply in_app_or in Hp.
        destruct Hp as [Hp|[<-|[]]].
        -- destruct (Hold p Hp) as (tp & Htp & Hmp).
           exists tp, tp. rewrite lookup_insert_ne by (intros E; apply (Hothers p Hp); congruence).
           repeat split; assumption.
        -- eexists t, _. rewrite lookup_insert_eq.
           repeat split; assumption.
    + split; [|repeat split].
      apply (tasks_tidy_step w _ (task :: q') q' Htidy Hq);
        [reflexivity | | simpl; lia | simpl; lia | ].
      * apply submseteq_cons. reflexivity.
      * intros p Hp. simpl. destruct (Hold p Hp) as (tp & Htp & Hmp).
        exists tp, tp. rewrite lookup_insert_ne by (intros E; apply (Hothers p Hp); congruence).
        repeat split; assumption.
    + split; [|repeat split].
      apply (tasks_tidy_step w _ (task :: q') q' Htidy Hq);
        [reflexivity | | simpl; lia | simpl; lia | ].
      * apply submseteq_cons. reflexivity.
      * intros p Hp. simpl. destruct (Hold p Hp) as (tp & Htp & Hmp).
        exists tp, tp. rewrite lookup_insert_ne by (intros E; apply (Hothers p Hp); congruence).
        repeat split; assumption.
Qed.

Lemma tick_case_heap clock invoke w r w' p :
  tick_case clock invoke w r w' ->
  (forall q', taskmgr_task_queue w <> Some (p :: q')) ->
  task_heap w' !! p = task_heap w !! p.
Proof.
  intros Hcase Hp.
  destruct Hcase as [Hq | q' Hq | task q' t Hq Hnull Ht Hd Hearly
                    | task q' t result Hq Hnull Ht Hdue Hm Hinv]; try reflexivity.
  assert (task <> p) by (intros ->; apply (Hp q'); exact Hq).
  unfold after_invocation.
  destruct result;
    simpl; apply lookup_insert_ne; assumption.
Qed.

Lemma tick_case_queue clock invoke w r w' :
  tick_case clock invoke w r w' ->
  exists q q2,
    taskmgr_task_queue w = Some q /\
    taskmgr_task_queue w' = Some q2 /\
    q2 ⊆+ q.
Proof.
  intros Hcase.
  destruct Hcase as [Hq | q' Hq | task q' t Hq Hnull Ht Hd Hearly
                    | task q' t result Hq Hnull Ht Hdue Hm Hinv].
  - exists [], []. repeat split; try assumption. reflexivity.
  - exists (NULL :: q'), q'. repeat split; try assumption.
    apply submseteq_cons. reflexivity.
  - exists (task :: q'), (q' ++ [task]). repeat split; try assumption.
    apply Permutation_submseteq. symmetry. apply Permutation_cons_append.
  - exists (task :: q').
    unfold after_invocation.
    destruct result;
      eexists; (split; [exact Hq|]); (split; [reflexivity|]);
      first [ apply Permutation_submseteq; symmetry; apply Permutation_cons_append
            | apply submseteq_cons; reflexivity ].
Qed.

(** X2.  With callables that leave the process state alone and return
    whatever argument list they are passed (they do not read it), a tick on
    a tidy Ready Queue is defined and returns 0; the queue is tidy again and
    holds no handle it did not hold before; the schedulers, the running
    flag, the id counter and the heap top are as before, and so is the block
    of every task other than the one that was at the front. *)
Theorem taskmgr_tick_keeps_tidy
  (clock : nat -> double)
  (invoke : callable_func_t -> addr -> option (list Z) -> world
            -> option (task_result_t * world))
  (w : world) :
  pure_callables invoke ->
  returning_callables invoke ->
  tasks_tidy w ->
  exists w',
    taskmgr_tick clock invoke w = Some (0, w') /\
    tasks_tidy w' /\
    (exists q q2,
        taskmgr_task_queue w = Some q /\
        taskmgr_task_queue w' = Some q2 /\
        q2 ⊆+ q) /\
    scheduler_side w' = scheduler_side w /\
    taskmgr_next_task_id w' = taskmgr_next_task_id w /\
    heap_top w' = heap_top w /\
    (forall p, (forall q', taskmgr_task_queue w <> Some (p :: q')) ->
               task_heap w' !! p = task_heap w !! p).
Proof.
  intros Hpure Hret Htidy.
  destruct (taskmgr_tick_defined clock invoke w Hpure Hret Htidy) as (w' & Htick).
  pose proof (taskmgr_tick_cases clock invoke w 0 w' Hpure Htick) as Hcase.
  destruct (tick_case_tidy clock invoke w 0 w' Hcase Htidy)
    as (Ht' & _ & Hs & Hc & Htop).
  exists w'. split; [exact Htick|]. split; [exact Ht'|].
  split; [eapply tick_case_queue; exact Hcase|].
  split; [exact Hs|]. split; [exact Hc|]. split; [exact Htop|].
  intros p Hp. eapply tick_case_heap; eassumption.
Qed.

Lemma one_task_world_tidy delay : tasks_tidy (one_task_world delay).
Proof.
  exists [1%N]. split; [reflexivity|]. split.
  - apply NoDup_singleton.
  - split; [vm_compute; discriminate|].
    intros p [<-|[]]. split; [discriminate|]. split; [vm_compute; discriminate|].
    exists (first_task delay). split; [reflexivity|]. split; [reflexivity|].
    vm_compute. split; discriminate.
Qed.

Lemma taskmgr_tick_keeps_tidy_witness :
  exists w',
    taskmgr_tick second_clock (always TASK_RESULT_CONT) (one_task_world (double_of_Z 0))
      = Some (0, w') /\
    tasks_tidy w' /\
    (exists q q2,
        taskmgr_task_queue (one_task_world (double_of_Z 0)) = Some q /\
        taskmgr_task_queue w' = Some q2 /\
        q2 ⊆+ q) /\
    scheduler_side w' = scheduler_side (one_task_world (double_of_Z 0)) /\
    taskmgr_next_task_id w' = taskmgr_next_task_id (one_task_world (double_of_Z 0)) /\
    heap_top w' = heap_top (one_task_world (double_of_Z 0)) /\
    (forall p, (forall q', taskmgr_task_queue (one_task_world (double_of_Z 0)) <> Some (p :: q')) ->
               task_heap w' !! p = task_heap (one_task_world (double_of_Z 0)) !! p).
Proof.
  apply (taskmgr_tick_keeps_tidy second_clock (always TASK_RESULT_CONT)
           (one_task_world (double_of_Z 0))).
  - intros f p a v r v' [= _ <-]. reflexivity.
  - intros f p a v. eexists _, _. reflexivity.
  - apply one_task_world_tidy.
Defined.

(** ** The run loop *)

Lemma taskmgr_run_loop_blocks clock invoke :
  pure_callables invoke ->
  returning_callables invoke ->
  forall n w,
    tasks_tidy w ->
    taskmgr_running w = true ->
    exists w',
      taskmgr_run_loop clock invoke n w = Some (Looping, w') /\
      tasks_tidy w' /\
      taskmgr_running w' = true.
Proof.
  intros Hpure Hret. induction n as [|n IH]; intros w Htidy Hrun.
  - exists w. repeat split; assumption.
  - destruct (taskmgr_tick_defined clock invoke w Hpure Hret Htidy) as (w1 & Htick).
    destruct (tick_case_tidy clock invoke w 0 w1
                (taskmgr_tick_cases clock invoke w 0 w1 Hpure Htick) Htidy)
      as (Htidy1 & _ & Hs & _).
    assert (Hrun1 : taskmgr_running w1 = true).
    { unfold scheduler_side in Hs. injection Hs as _ _ _ _ Hr. congruence. }
    destruct (IH w1 Htidy1 Hrun1) as (w' & Hloop & Htidy' & Hrun').
    exists w'. split; [|split; assumption].
    simpl. unfold bind at 1. unfold gets. rewrite Hrun.
    rewrite (bind_some _ _ _ _ _ Htick). exact Hloop.
Qed.

(** X3.  [taskmgr_run] does not return by itself: started with the flag
    clear on a tidy Ready Queue, with callables that leave the process state
    alone and return whatever argument list they are passed (they do not
    read it), it is still in its loop after any number of iterations, the
    flag set and the queue tidy. *)
Theorem taskmgr_run_blocks
  (clock : nat -> double)
  (invoke : callable_func_t -> addr -> option (list Z) -> world
            -> option (task_result_t * world))
  (n : nat) (w : world) :
  pure_callables invoke ->
  returning_callables invoke ->
  tasks_tidy w ->
  taskmgr_running w = false ->
  exists w',
    taskmgr_run clock invoke n w = Some (Looping, w') /\
    tasks_tidy w' /\
    taskmgr_running w' = true.
Proof.
  intros Hpure Hret Htidy Hrun.
  assert (Htidy1 : tasks_tidy (set_running true w)).
  { apply (tasks_tidy_frame w); try reflexivity; try exact Htidy. }
  destruct (taskmgr_run_loop_blocks clock invoke Hpure Hret n (set_running true w)
              Htidy1 eq_refl) as (w' & Hloop & Htidy' & Hrun').
  exists w'. split; [|split; assumption].
  unfold taskmgr_run. monad_unfold. rewrite Hrun. exact Hloop.
Qed.

Lemma taskmgr_run_blocks_witness :
  exists w',
    taskmgr_run second_clock (always TASK_RESULT_WAIT) 9 (one_task_world (double_of_Z 2))
      = Some (Looping, w') /\
    tasks_tidy w' /\
    taskmgr_running w' = true.
Proof.
  apply (taskmgr_run_blocks second_clock (always TASK_RESULT_WAIT) 9
           (one_task_world (double_of_Z 2))).
  - intros f p a v r v' [= _ <-]. reflexivity.
  - intros f p a v. eexists _, _. reflexivity.
  - apply one_task_world_tidy.
  - reflexivity.
Defined.

(** ** Adding, finding and removing a task *)

Lemma has_task_some w q task :
  taskmgr_task_queue w = Some q ->
  has_task task w = Some ((if queue_get_index q task =? -1 then 0 else 1), w).
Proof.
  intros Hq. unfold has_task.
  rewrite (bind_some _ _ _ _ _ (the_task_queue_some w q Hq)). reflexivity.
Qed.

Lemma has_task_in w q task :
  taskmgr_task_queue w = Some q -> In task q -> has_task task w = Some (1, w).
Proof.
  intros Hq Hin. rewrite (has_task_some w q task Hq).
  destruct (Z.eqb_spec (queue_get_index q task) (-1)) as [E|E]; [|reflexivity].
  apply queue_get_index_absent in E. contradiction.
Qed.

Lemma has_task_not_in w q task :
  taskmgr_task_queue w = Some q -> ~ In task q -> has_task task w = Some (0, w).
Proof.
  intros Hq Hin. rewrite (has_task_some w q task Hq).
  apply queue_get_index_absent in Hin. rewrite Hin. reflexivity.
Qed.

(** [remove_task] on a queued live task whose guard is not held. *)
Lemma remove_task_found w q task t :
  taskmgr_task_queue w = Some q ->
  In task q ->
  task_heap w !! task = Some (Live t) ->
  task_mutex t <> MutexLocked ->
  remove_task task w
  = Some (0, set_task_heap
               (<[task := Freed (with_mutex MutexDestroyed (invalidate t))]>
                  (task_heap w))
               (set_task_queue (Some (queue_remove_first q task)) w)).
Proof.
  intros Hq Hin Ht Hm. unfold remove_task, queue_remove_object.
  rewrite (bind_some _ _ _ _ _ (the_task_queue_some w q Hq)).
  destruct (Z.eqb_spec (queue_get_index q task) (-1)) as [E|E].
  { apply queue_get_index_absent in E. contradiction. }
  rewrite (bind_some _ _ _ _ (set_task_queue (Some (queue_remove_first q task)) w)
             eq_refl).
  simpl.
  erewrite bind_some by (apply free_task_live with (t := t); [exact Ht | exact Hm]).
  reflexivity.
Qed.

(** [add_task] keeps a tidy queue tidy while the counter is below
    [INT_MAX]. *)
Lemma add_task_tidy clock func delay va w q :
  tasks_tidy w ->
  taskmgr_task_queue w = Some q ->
  taskmgr_next_task_id w < INT_MAX ->
  exists task w1,
    add_task clock func delay va w = Some (task, w1) /\
    task = N.succ (heap_top w) /\
    ~ In task q /\
    taskmgr_task_queue w1 = Some (q ++ [task]) /\
    id_of w1 task = Some (taskmgr_next_task_id w + 1) /\
    taskmgr_next_task_id w1 = taskmgr_next_task_id w + 1 /\
    heap_top w1 = task /\
    scheduler_side w1 = scheduler_side w /\
    (forall p, p <> task -> task_heap w1 !! p = task_heap w !! p) /\
    tasks_tidy w1.
Proof.
  intros (q0 & Hq0 & Hnd & Hc & Hall) Hq Hmax.
  assert (q0 = q) by congruence. subst q0.
  pose proof (add_task_some clock func delay va w q Hq) as Hadd.
  cbv zeta in Hadd.
  rewrite (int_wrap_small (taskmgr_next_task_id w + 1)) in Hadd
    by (unfold INT_MIN; lia).
  set (task := N.succ (heap_top w)) in *.
  assert (Hfresh : ~ In task q).
  { intros Hin. destruct (Hall task Hin) as (_ & Hle & _). subst task. lia. }
  eexists task, _. split; [exact Hadd|]. split; [reflexivity|].
  split; [exact Hfresh|]. split; [reflexivity|].
  split; [unfold id_of; simpl; rewrite lookup_insert_eq; reflexivity|].
  split; [reflexivity|]. split; [reflexivity|]. split; [reflexivity|].
  split; [intros p Hp; simpl; apply lookup_insert_ne; congruence|].
  exists (q ++ [task]). split; [reflexivity|]. simpl.
  assert (Hids : forall p, In p q ->
            id_of
              (set_task_queue (Some (q ++ [task]))
                 (set_heap_top task
                    (set_task_heap
                       (<[task := Live (Task (taskmgr_next_task_id w + 1) func
                                          (frame_count w) true delay
                                          (clock (clock_reads w)) MutexUnlocked)]>
                          (task_heap w))
                       (set_clock_reads (S (clock_reads w))
                          (set_next_task_id (taskmgr_next_task_id w + 1)
                             (set_frame_count (S (frame_count w)) w)))))) p
            = id_of w p).
  { intros p Hp. unfold id_of. simpl.
    rewrite lookup_insert_ne by (intros <-; contradiction). reflexivity. }
  split; [|split; [lia|]].
  - rewrite fmap_app. apply NoDup_app. split; [|split].
    + rewrite (fmap_ext_In _ (id_of w) q Hids). exact Hnd.
    + intros x Hx Hx'. apply list_elem_of_fmap in Hx. destruct Hx as (p & -> & Hp).
      apply list_elem_of_In in Hp.
      rewrite (Hids p Hp) in Hx'.
      apply list_elem_of_singleton in Hx'.
      unfold id_of in Hx'. simpl in Hx'. rewrite lookup_insert_eq in Hx'.
      destruct (Hall p Hp) as (_ & _ & t & Ht & _ & Hid).
      rewrite Ht in Hx'. simpl in Hx'. injection Hx' as Hx'. lia.
    + apply NoDup_singleton.
  - intros p Hp. apply in_app_or in Hp. destruct Hp as [Hp|[<-|[]]].
    + destruct (Hall p Hp) as (Hnull & Hle & t & Ht & Hm & Hid).
      split; [exact Hnull|]. split; [subst task; lia|].
      exists t. rewrite lookup_insert_ne by (intros <-; contradiction).
      split; [exact Ht|]. split; [exact Hm | lia].
    + split; [subst task; unfold NULL; lia|]. split; [lia|].
      eexists. rewrite lookup_insert_eq. split; [reflexivity|].
      split; [reflexivity|]. simpl. lia.
Qed.

Lemma queue_remove_first_last q x :
  ~ In x q -> queue_remove_first (q ++ [x]) x = q.
Proof.
  induction q as [|y q IH]; simpl; intros Hx.
  - rewrite N.eqb_refl. reflexivity.
  - destruct (N.eqb_spec y x) as [->|Hne]; [tauto|].
    rewrite IH by tauto. reflexivity.
Qed.

Lemma queue_remove_first_In q x y :
  In y (queue_remove_first q x) -> In y q.
Proof.
  intros H. apply list_elem_of_In.
  eapply elem_of_sublist; [|apply queue_remove_first_sublist].
  apply list_elem_of_In. exact H.
Qed.

Lemma tasks_tidy_NoDup w q :
  tasks_tidy w -> taskmgr_task_queue w = Some q -> NoDup q.
Proof.
  intros (q0 & Hq0 & Hnd & _) Hq. assert (q0 = q) by congruence. subst q0.
  eapply NoDup_fmap_1. exact Hnd.
Qed.

(** [remove_task] on a handle that is not queued. *)
Lemma remove_task_absent w q task :
  taskmgr_task_queue w = Some q ->
  ~ In task q ->
  remove_task task w = Some (1, w).
Proof.
  intros Hq Hnot. unfold remove_task, queue_remove_object. monad_unfold.
  unfold the_task_queue. rewrite Hq.
  apply queue_get_index_absent in Hnot. rewrite Hnot. simpl.
  rewrite set_task_queue_same by assumption. reflexivity.
Qed.

(** [remove_task] on a handle of a tidy queue leaves a tidy queue. *)
Lemma remove_task_tidy w q task :
  tasks_tidy w ->
  taskmgr_task_queue w = Some q ->
  In task q ->
  exists t,
    task_heap w !! task = Some (Live t) /\
    remove_task task w
    = Some (0, set_task_heap
                 (<[task := Freed (with_mutex MutexDestroyed (invalidate t))]>
                    (task_heap w))
                 (set_task_queue (Some (queue_remove_first q task)) w)) /\
    ~ In task (queue_remove_first q task) /\
    tasks_tidy
      (set_task_heap
         (<[task := Freed (with_mutex MutexDestroyed (invalidate t))]>
            (task_heap w))
         (set_task_queue (Some (queue_remove_first q task)) w)).
Proof.
  intros Htidy Hq Hin.
  pose proof (tasks_tidy_NoDup w q Htidy Hq) as Hnd.
  pose proof Htidy as (q0 & Hq0 & _ & _ & Hall).
  assert (q0 = q) by congruence. subst q0.
  destruct (Hall task Hin) as (_ & _ & t & Ht & Hm & _).
  pose proof (queue_remove_first_NoDup q task Hnd) as Hgone.
  exists t. split; [exact Ht|]. split.
  { apply (remove_task_found w q task t Hq Hin Ht). congruence. }
  split; [exact Hgone|].
  apply (tasks_tidy_step w _ q (queue_remove_first q task) Htidy Hq);
    [reflexivity | | simpl; lia | simpl; lia |].
  - apply sublist_submseteq, queue_remove_first_sublist.
  - intros p Hp. simpl.
    destruct (Hall p (queue_remove_first_In q task p Hp))
      as (_ & _ & tp & Htp & Hmp & _).
    exists tp, tp. rewrite lookup_insert_ne by (intros <-; contradiction).
    repeat split; assumption.
Qed.

(** X4.  [remove_task] on a handle of a tidy Ready Queue returns 0; the
    queue loses that handle and keeps the others in their order; the block
    is released with the id set to -1 and no other block changes; the queue
    is tidy again.  Afterwards [has_task] answers 0 for the handle and a
    second [remove_task] on it returns 1 and changes nothing. *)
Theorem remove_task_queued (w : world) (q : queue_t) (task : addr) :
  tasks_tidy w ->
  taskmgr_task_queue w = Some q ->
  In task q ->
  exists w' t',
    remove_task task w = Some (0, w') /\
    taskmgr_task_queue w' = Some (queue_remove_first q task) /\
    queue_remove_first q task `sublist_of` q /\
    ~ In task (queue_remove_first q task) /\
    (forall p, p <> task -> In p q -> In p (queue_remove_first q task)) /\
    task_heap w' !! task = Some (Freed t') /\
    task_id t' = -1 /\
    (forall p, p <> task -> task_heap w' !! p = task_heap w !! p) /\
    scheduler_side w' = scheduler_side w /\
    tasks_tidy w' /\
    has_task task w' = Some (0, w') /\
    remove_task task w' = Some (1, w').
Proof.
  intros Htidy Hq Hin.
  destruct (remove_task_tidy w q task Htidy Hq Hin)
    as (t & Ht & Hrem & Hgone & Htidy').
  eexists _, _. split; [exact Hrem|].
  split; [reflexivity|].
  split; [apply queue_remove_first_sublist|].
  split; [exact Hgone|].
  split; [intros p Hp Hpq; apply queue_remove_first_other; assumption|].
  split; [simpl; apply lookup_insert_eq|].
  split; [reflexivity|].
  split; [intros p Hp; simpl; apply lookup_insert_ne; congruence|].
  split; [reflexivity|].
  split; [exact Htidy'|].
  split.
  - apply (has_task_not_in _ (queue_remove_first q task)); [reflexivity | exact Hgone].
  - apply (remove_task_absent _ (queue_remove_first q task)); [reflexivity | exact Hgone].
Qed.

Lemma remove_task_queued_witness :
  exists w' t',
    remove_task 1%N (one_task_world (double_of_Z 0)) = Some (0, w') /\
    taskmgr_task_queue w' = Some (queue_remove_first [1%N] 1%N) /\
    queue_remove_first [1%N] 1%N `sublist_of` [1%N] /\
    ~ In 1%N (queue_remove_first [1%N] 1%N) /\
    (forall p, p <> 1%N -> In p [1%N] -> In p (queue_remove_first [1%N] 1%N)) /\
    task_heap w' !! 1%N = Some (Freed t') /\
    task_id t' = -1 /\
    (forall p, p <> 1%N -> task_heap w' !! p = task_heap (one_task_world (double_of_Z 0)) !! p) /\
    scheduler_side w' = scheduler_side (one_task_world (double_of_Z 0)) /\
    tasks_tidy w' /\
    has_task 1%N w' = Some (0, w') /\
    remove_task 1%N w' = Some (1, w').
Proof.
  apply (remove_task_queued (one_task_world (double_of_Z 0)) [1%N] 1%N).
  - apply one_task_world_tidy.
  - reflexivity.
  - left. reflexivity.
Defined.

(** X5.  In a tidy state with the counter below [INT_MAX], [add_task]
    returns a new handle, queued last, whose task has the id counter + 1.
    The task is found at once: [has_task] of the handle and
    [has_task_by_id] of the id return 1 and [get_task_by_id] of the id
    returns the handle.  [remove_task_by_id] of the id then returns 0,
    restores the Ready Queue to what it was before [add_task], and releases
    the block with the id set to -1; the queue is tidy throughout. *)
Theorem add_find_remove_task
  (clock : nat -> double) (func : callable_func_t) (delay : double) (va : list Z)
  (w : world) (q : queue_t) :
  tasks_tidy w ->
  taskmgr_task_queue w = Some q ->
  taskmgr_next_task_id w < INT_MAX ->
  exists task w1 w2 t',
    add_task clock func delay va w = Some (task, w1) /\
    ~ In task q /\
    taskmgr_task_queue w1 = Some (q ++ [task]) /\
    id_of w1 task = Some (taskmgr_next_task_id w + 1) /\
    tasks_tidy w1 /\
    has_task task w1 = Some (1, w1) /\
    has_task_by_id (taskmgr_next_task_id w + 1) w1 = Some (1, w1) /\
    get_task_by_id (taskmgr_next_task_id w + 1) w1 = Some (task, w1) /\
    remove_task_by_id (taskmgr_next_task_id w + 1) w1 = Some (0, w2) /\
    taskmgr_task_queue w2 = Some q /\
    task_heap w2 !! task = Some (Freed t') /\
    task_id t' = -1 /\
    tasks_tidy w2.
Proof.
  intros Htidy Hq Hmax.
  destruct (add_task_tidy clock func delay va w q Htidy Hq Hmax)
    as (task & w1 & Hadd & Htask & Hfresh & Hq1 & Hid & Hc1 & Htop1 & Hs1
        & Hheap1 & Htidy1).
  pose proof Htidy as (q0 & Hq0 & _ & _ & Hall).
  assert (q0 = q) by congruence. subst q0.
  pose proof Htidy1 as (q1 & Hq1' & _ & _ & Hall1).
  assert (q1 = q ++ [task]) by congruence. subst q1.
  assert (Hlive1 : forall p, In p (q ++ [task]) ->
            p <> NULL /\ exists t, task_heap w1 !! p = Some (Live t)).
  { intros p Hp. destruct (Hall1 p Hp) as (Hn & _ & t & Ht & _). eauto. }
  assert (Hpre : forall p', In p' q -> id_of w1 p' <> Some (taskmgr_next_task_id w + 1)).
  { intros p' Hp'. destruct (Hall p' Hp') as (_ & _ & t & Ht & _ & Hidt).
    unfold id_of. rewrite Hheap1 by (intros ->; contradiction).
    rewrite Ht. intros [= E]. lia. }
  destruct (get_task_by_id_found w1 (q ++ [task]) (taskmgr_next_task_id w + 1)
              q task [] Hq1 Hlive1 eq_refl Hid Hpre) as [Hget Hhas].
  assert (Hin1 : In task (q ++ [task])) by (apply in_or_app; right; left; reflexivity).
  destruct (remove_task_tidy w1 (q ++ [task]) task Htidy1 Hq1 Hin1)
    as (t1 & Ht1 & Hrem & _ & Htidy2).
  rewrite (queue_remove_first_last q task Hfresh) in Hrem, Htidy2.
  match type of Hrem with _ = Some (_, ?v) => set (w2 := v) in * end.
  assert (Hq2 : taskmgr_task_queue w2 = Some q) by reflexivity.
  assert (Hfreed : task_heap w2 !! task
                   = Some (Freed (with_mutex MutexDestroyed (invalidate t1))))
    by (simpl; apply lookup_insert_eq).
  assert (Hid' : task_id (with_mutex MutexDestroyed (invalidate t1)) = -1)
    by reflexivity.
  exists task, w1, w2, (with_mutex MutexDestroyed (invalidate t1)).
  split; [exact Hadd|]. split; [exact Hfresh|]. split; [exact Hq1|].
  split; [exact Hid|]. split; [exact Htidy1|].
  split; [apply (has_task_in w1 (q ++ [task])); assumption|].
  split; [exact Hhas|]. split; [exact Hget|].
  split.
  { unfold remove_task_by_id. rewrite (bind_some _ _ _ _ _ Hget).
    destruct (Hlive1 task Hin1) as [Hn _].
    apply N.eqb_neq in Hn. rewrite Hn. exact Hrem. }
  split; [exact Hq2|]. split; [exact Hfreed|]. split; [exact Hid' | exact Htidy2].
Qed.

Lemma add_find_remove_task_witness :
  exists task w1 w2 t',
    add_task second_clock 3%nat (double_of_Z 1) [] (one_task_world (double_of_Z 0))
      = Some (task, w1) /\
    ~ In task [1%N] /\
    taskmgr_task_queue w1 = Some ([1%N] ++ [task]) /\
    id_of w1 task = Some (taskmgr_next_task_id (one_task_world (double_of_Z 0)) + 1) /\
    tasks_tidy w1 /\
    has_task task w1 = Some (1, w1) /\
    has_task_by_id (taskmgr_next_task_id (one_task_world (double_of_Z 0)) + 1) w1 = Some (1, w1) /\
    get_task_by_id (taskmgr_next_task_id (one_task_world (double_of_Z 0)) + 1) w1
      = Some (task, w1) /\
    remove_task_by_id (taskmgr_next_task_id (one_task_world (double_of_Z 0)) + 1) w1
      = Some (0, w2) /\
    taskmgr_task_queue w2 = Some [1%N] /\
    task_heap w2 !! task = Some (Freed t') /\
    task_id t' = -1 /\
    tasks_tidy w2.
Proof.
  apply (add_find_remove_task second_clock 3%nat (double_of_Z 1) []
           (one_task_world (double_of_Z 0)) [1%N]).
  - apply one_task_world_tidy.
  - reflexivity.
  - vm_compute. reflexivity.
Defined.

(** ** Initialisation and shutdown *)

Lemma get_task_by_id_empty w id :
  taskmgr_task_queue w = Some [] -> get_task_by_id id w = Some (NULL, w).
Proof. intros Hq. rewrite (get_task_by_id_scan w id [] Hq). reflexivity. Qed.

(** X6.  [taskmgr_init] is not guarded against a second initialisation:
    whenever no run loop is active it returns 0 and installs two empty
    queues, whatever was queued.  No block is released and the counters go
    on, so the tasks queued before stay allocated but are found by no
    lookup any more, and a tick has nothing to run. *)
Theorem taskmgr_init_discards_queue
  (clock : nat -> double)
  (invoke : callable_func_t -> addr -> option (list Z) -> world
            -> option (task_result_t * world))
  (w : world) :
  taskmgr_running w = false ->
  exists w',
    taskmgr_init w = Some (0, w') /\
    taskmgr_task_queue w' = Some [] /\
    taskmgr_scheduler_queue w' = Some [] /\
    task_heap w' = task_heap w /\
    scheduler_heap w' = scheduler_heap w /\
    taskmgr_next_task_id w' = taskmgr_next_task_id w /\
    taskmgr_next_scheduler_id w' = taskmgr_next_scheduler_id w /\
    (forall task, has_task task w' = Some (0, w')) /\
    (forall id, get_task_by_id id w' = Some (NULL, w') /\
                has_task_by_id id w' = Some (0, w') /\
                remove_task_by_id id w' = Some (1, w')) /\
    taskmgr_tick clock invoke w' = Some (0, w').
Proof.
  intros Hrun.
  exists (set_scheduler_queue (Some queue_init) (set_task_queue (Some queue_init) w)).
  split.
  { unfold taskmgr_init. monad_unfold. rewrite Hrun. reflexivity. }
  split; [reflexivity|]. split; [reflexivity|]. split; [reflexivity|].
  split; [reflexivity|]. split; [reflexivity|]. split; [reflexivity|].
  split; [intros task; apply (has_task_not_in _ []); [reflexivity | intros []]|].
  split; [|apply taskmgr_tick_empty; reflexivity].
  intros id. split; [apply get_task_by_id_empty; reflexivity|]. split.
  - unfold has_task_by_id.
    erewrite bind_some by (apply get_task_by_id_empty; reflexivity). reflexivity.
  - unfold remove_task_by_id.
    erewrite bind_some by (apply get_task_by_id_empty; reflexivity). reflexivity.
Qed.

Lemma taskmgr_init_discards_queue_witness :
  exists w',
    taskmgr_init (one_task_world (double_of_Z 0)) = Some (0, w') /\
    taskmgr_task_queue w' = Some [] /\
    taskmgr_scheduler_queue w' = Some [] /\
    task_heap w' = task_heap (one_task_world (double_of_Z 0)) /\
    scheduler_heap w' = scheduler_heap (one_task_world (double_of_Z 0)) /\
    taskmgr_next_task_id w' = taskmgr_next_task_id (one_task_world (double_of_Z 0)) /\
    taskmgr_next_scheduler_id w' = taskmgr_next_scheduler_id (one_task_world (double_of_Z 0)) /\
    (forall task, has_task task w' = Some (0, w')) /\
    (forall id, get_task_by_id id w' = Some (NULL, w') /\
                has_task_by_id id w' = Some (0, w') /\
                remove_task_by_id id w' = Some (1, w')) /\
    taskmgr_tick second_clock (always TASK_RESULT_DONE) w' = Some (0, w').
Proof.
  apply (taskmgr_init_discards_queue second_clock (always TASK_RESULT_DONE)
           (one_task_world (double_of_Z 0))).
  reflexivity.
Defined.



(** ** Round robin *)

Lemma world_eta w :
  World (taskmgr_next_task_id w) (taskmgr_next_scheduler_id w)
    (taskmgr_task_queue w) (taskmgr_scheduler_queue w) (taskmgr_running w)
    (task_heap w) (scheduler_heap w) (heap_top w) (call_stack w)
    (frame_count w) (clock_reads w) (threads w) (call_log w) = w.
Proof. destruct w; reflexivity. Qed.

(** A tick on a continuing task at the front: the task goes to the back and
    the invocation is logged; nothing else changes. *)
Lemma taskmgr_tick_continuing clock invoke w p q' :
  taskmgr_task_queue w = Some (p :: q') ->
  continuing invoke (p :: q') w ->
  exists e,
    taskmgr_tick clock invoke w
    = Some (0, set_call_log (e :: call_log w)
                 (set_task_queue (Some (q' ++ [p])) w)) /\
    ev_task e = p /\ ev_reads e = clock_reads w.
Proof.
  intros Hq Hcont.
  destruct (Hcont p (or_introl eq_refl)) as (Hnull & t & Ht & Hd & Hm & Hinv).
  exists (Invoked p (task_func t) (clock_reads w)).
  split; [|split; reflexivity].
  rewrite (taskmgr_tick_due_pure clock invoke w p q' t TASK_RESULT_CONT
             Hq Hnull Ht (or_introl Hd) Hm (Hinv _ _)).
  rewrite Hd. f_equal. f_equal.
  assert (Hsame : <[p := Live (with_delayable false t)]> (task_heap w) = task_heap w).
  { apply insert_id. rewrite Ht. f_equal. f_equal.
    destruct t; simpl in *; subst; reflexivity. }
  rewrite Hsame. unfold set_call_log, set_clock_reads, set_task_queue,
    set_task_heap. simpl. reflexivity.
Qed.

Lemma drive_ticks_continuing clock invoke :
  forall a b w,
    taskmgr_task_queue w = Some (a ++ b) ->
    continuing invoke (a ++ b) w ->
    exists evs,
      drive_ticks clock invoke (length a) w
      = Some (tt, set_call_log (evs ++ call_log w)
                    (set_task_queue (Some (b ++ a)) w)) /\
      map ev_task evs = rev a /\
      (forall e, In e evs -> ev_reads e = clock_reads w).
Proof.
  induction a as [|p a IH]; intros b w Hq Hcont.
  - exists []. simpl. rewrite app_nil_r. split; [|split; [reflexivity | intros e []]].
    unfold ret. f_equal. f_equal. simpl in Hq.
    rewrite (set_task_queue_same w (Some b) Hq).
    unfold set_call_log. symmetry. apply world_eta.
  - simpl in Hq.
    destruct (taskmgr_tick_continuing clock invoke w p (a ++ b) Hq Hcont)
      as (e & Htick & He & Hr).
    set (w1 := set_call_log (e :: call_log w)
                 (set_task_queue (Some ((a ++ b) ++ [p])) w)) in *.
    assert (Hq1 : taskmgr_task_queue w1 = Some (a ++ (b ++ [p])))
      by (simpl; rewrite app_assoc; reflexivity).
    assert (Hcont1 : continuing invoke (a ++ (b ++ [p])) w1).
    { intros x Hx. apply (Hcont x).
      apply in_app_or in Hx. destruct Hx as [Hx|Hx].
      - right. apply in_or_app. left. exact Hx.
      - apply in_app_or in Hx. destruct Hx as [Hx|[<-|[]]].
        + right. apply in_or_app. right. exact Hx.
        + left. reflexivity. }
    destruct (IH (b ++ [p]) w1 Hq1 Hcont1) as (evs & Hrun & Hmap & Hreads).
    exists (evs ++ [e]). split; [|split].
    + simpl drive_ticks. rewrite (bind_some _ _ _ _ _ Htick). rewrite Hrun.
      f_equal. f_equal. subst w1.
      unfold set_call_log, set_task_queue. simpl.
      rewrite <- !app_assoc. reflexivity.
    + rewrite map_app, Hmap. simpl. rewrite He. reflexivity.
    + intros x Hx. apply in_app_or in Hx. destruct Hx as [Hx|[<-|[]]].
      * rewrite (Hreads x Hx). reflexivity.
      * exact Hr.
Qed.

(** X8.  Tasks that have returned CONTINUE are run round robin with no
    throttling: if the Ready Queue holds only tasks that are not delayable
    and whose callables return CONTINUE, as many ticks as there are tasks
    invoke each of them exactly once, in queue order and without reading the
    clock, and end in the state they started from, the log apart. *)
Theorem continuing_tasks_round_robin
  (clock : nat -> double)
  (invoke : callable_func_t -> addr -> option (list Z) -> world
            -> option (task_result_t * world))
  (w : world) (q : queue_t) :
  taskmgr_task_queue w = Some q ->
  continuing invoke q w ->
  exists evs,
    drive_ticks clock invoke (length q) w
      = Some (tt, set_call_log (evs ++ call_log w) w) /\
    map ev_task evs = rev q /\
    (forall e, In e evs -> ev_reads e = clock_reads w).
Proof.
  intros Hq Hcont.
  destruct (drive_ticks_continuing clock invoke q [] w) as (evs & Hrun & Hmap & Hr).
  - rewrite app_nil_r. exact Hq.
  - rewrite app_nil_r. exact Hcont.
  - exists evs. split; [|split; assumption].
    rewrite Hrun. f_equal. f_equal. f_equal.
    apply set_task_queue_same. exact Hq.
Qed.

Lemma continuing_tasks_round_robin_witness :
  exists evs,
    drive_ticks second_clock (always TASK_RESULT_CONT) (length [1%N])
      (state_after (taskmgr_tick second_clock (always TASK_RESULT_CONT))
         (one_task_world (double_of_Z 0)))
    = Some (tt, set_call_log
                  (evs ++ call_log
                            (state_after
                               (taskmgr_tick second_clock (always TASK_RESULT_CONT))
                               (one_task_world (double_of_Z 0))))
                  (state_after (taskmgr_tick second_clock (always TASK_RESULT_CONT))
                     (one_task_world (double_of_Z 0)))) /\
    map ev_task evs = rev [1%N] /\
    (forall e, In e evs ->
       ev_reads e
       = clock_reads
           (state_after (taskmgr_tick second_clock (always TASK_RESULT_CONT))
              (one_task_world (double_of_Z 0)))).
Proof.
  apply (continuing_tasks_round_robin second_clock (always TASK_RESULT_CONT)
           (state_after (taskmgr_tick second_clock (always TASK_RESULT_CONT))
              (one_task_world (double_of_Z 0))) [1%N]).
  - reflexivity.
  - intros p [<-|[]]. split; [discriminate|].
    exists (with_delayable false (first_task (double_of_Z 0))).
    split; [reflexivity|]. split; [reflexivity|]. split; [reflexivity|].
    intros a v. reflexivity.
Defined.

(** ** Schedulers *)

Lemma the_scheduler_queue_some w q :
  taskmgr_scheduler_queue w = Some q -> the_scheduler_queue w = Some (q, w).
Proof. unfold the_scheduler_queue. intros ->. reflexivity. Qed.

Lemma load_scheduler_live s w x :
  scheduler_heap w !! s = Some (Live x) -> load_scheduler s w = Some (x, w).
Proof. unfold load_scheduler. intros ->. reflexivity. Qed.

Lemma get_scheduler_by_id_loop_scan w id q :
  taskmgr_scheduler_queue w = Some q ->
  forall suf pre,
    q = pre ++ suf ->
    get_scheduler_by_id_loop id (length suf) (Z.of_nat (length pre)) w
    = (fun s => (s, w)) <$> scan_for_scheduler_id w id suf.
Proof.
  intros Hq. induction suf as [|s suf IH]; intros pre Heq.
  - reflexivity.
  - simpl. monad_unfold. unfold the_scheduler_queue, load_scheduler. rewrite Hq.
    rewrite queue_get_nth by (subst q; rewrite length_app; simpl; lia).
    subst q. rewrite app_nth2 by lia. rewrite Nat.sub_diag. simpl.
    destruct (scheduler_heap w !! s) as [[x|x]|]; try reflexivity.
    destruct (scheduler_id x =? id); [reflexivity|].
    specialize (IH (pre ++ [s])).
    rewrite length_app in IH. simpl in IH.
    replace (Z.of_nat (length pre) + 1) with (Z.of_nat (length pre + 1)) by lia.
    apply IH. rewrite <- app_assoc. reflexivity.
Qed.

Lemma get_scheduler_by_id_scan w id q :
  taskmgr_scheduler_queue w = Some q ->
  get_scheduler_by_id id w = (fun s => (s, w)) <$> scan_for_scheduler_id w id q.
Proof.
  intros Hq.
  unfold get_scheduler_by_id. monad_unfold. unfold the_scheduler_queue at 1.
  rewrite Hq. unfold max_index.
  replace (Z.to_nat (Z.of_nat (length q) - 1 + 1)) with (length q) by lia.
  apply (get_scheduler_by_id_loop_scan w id q Hq q []). reflexivity.
Qed.

Lemma scan_for_scheduler_id_found w id pre s suf :
  (forall s', In s' pre -> exists x, scheduler_heap w !! s' = Some (Live x)) ->
  (forall s', In s' pre -> scheduler_id_of w s' <> Some id) ->
  scheduler_id_of w s = Some id ->
  scan_for_scheduler_id w id (pre ++ s :: suf) = Some s.
Proof.
  intros Hlive Hpre Hs. induction pre as [|s' pre IH]; simpl.
  - unfold scheduler_id_of in Hs.
    destruct (scheduler_heap w !! s) as [[x|x]|]; try discriminate.
    injection Hs as ->. rewrite Z.eqb_refl. reflexivity.
  - destruct (Hlive s' (or_introl eq_refl)) as (x & Hx).
    pose proof (Hpre s' (or_introl eq_refl)) as Hne.
    unfold scheduler_id_of in Hne. rewrite Hx in *.
    destruct (Z.eqb_spec (scheduler_id x) id) as [E|E]; [congruence|].
    apply IH; intros y Hy; [apply Hlive | apply Hpre]; right; exact Hy.
Qed.

Lemma scan_for_scheduler_id_absent w id q :
  (forall s, In s q -> exists x, scheduler_heap w !! s = Some (Live x)) ->
  (forall s, In s q -> scheduler_id_of w s <> Some id) ->
  scan_for_scheduler_id w id q = Some NULL.
Proof.
  induction q as [|s q IH]; intros Hlive Hno; simpl; [reflexivity|].
  destruct (Hlive s (or_introl eq_refl)) as (x & Hx).
  pose proof (Hno s (or_introl eq_refl)) as Hne.
  unfold scheduler_id_of in Hne. rewrite Hx in *.
  destruct (Z.eqb_spec (scheduler_id x) id) as [E|E]; [congruence|].
  apply IH; intros y Hy; [apply Hlive | apply Hno]; right; exact Hy.
Qed.

Lemma has_scheduler_some w q s :
  taskmgr_scheduler_queue w = Some q ->
  has_scheduler s w = Some ((if queue_get_index q s =? -1 then 0 else 1), w).
Proof.
  intros Hq. unfold has_scheduler.
  rewrite (bind_some _ _ _ _ _ (the_scheduler_queue_some w q Hq)). reflexivity.
Qed.

(** [free_scheduler] on a live record. *)
Lemma free_scheduler_live s w x :
  scheduler_heap w !! s = Some (Live x) ->
  free_scheduler s w
  = Some (0, set_scheduler_heap
               (<[s := Freed (Scheduler (-1) (scheduler_thread x) false)]>
                  (scheduler_heap w)) w).
Proof.
  intros Hx. unfold free_scheduler, free_scheduler_block.
  rewrite (bind_some _ _ _ _ _ (load_scheduler_live s w x Hx)).
  rewrite (bind_some _ _ _ _ _ (store_scheduler_live s w x _ Hx)).
  unfold bind, ret. simpl. rewrite lookup_insert_eq. simpl.
  rewrite insert_insert_eq. reflexivity.
Qed.

(** [remove_scheduler] on a registered live scheduler. *)
Lemma remove_scheduler_found w q s x :
  taskmgr_scheduler_queue w = Some q ->
  In s q ->
  scheduler_heap w !! s = Some (Live x) ->
  remove_scheduler s w
  = Some (0, set_scheduler_heap
               (<[s := Freed (Scheduler (-1) (scheduler_thread x) false)]>
                  (scheduler_heap w))
               (set_scheduler_queue (Some (queue_remove_first q s)) w)).
Proof.
  intros Hq Hin Hx. unfold remove_scheduler, queue_remove_object.
  rewrite (bind_some _ _ _ _ _ (the_scheduler_queue_some w q Hq)).
  destruct (Z.eqb_spec (queue_get_index q s) (-1)) as [E|E].
  { apply queue_get_index_absent in E. contradiction. }
  rewrite (bind_some _ _ _ _ (set_scheduler_queue (Some (queue_remove_first q s)) w)
             eq_refl).
  simpl.
  erewrite bind_some by (apply free_scheduler_live with (x := x); exact Hx).
  reflexivity.
Qed.

Lemma remove_scheduler_absent w q s :
  taskmgr_scheduler_queue w = Some q ->
  ~ In s q ->
  remove_scheduler s w = Some (1, w).
Proof.
  intros Hq Hnot. unfold remove_scheduler, queue_remove_object. monad_unfold.
  unfold the_scheduler_queue. rewrite Hq.
  apply queue_get_index_absent in Hnot. rewrite Hnot. simpl.
  destruct w; simpl in *; subst; reflexivity.
Qed.

(** The three outcomes of [add_scheduler]. *)
Lemma add_scheduler_attr_failure thread_ok w :
  add_scheduler false thread_ok w
  = Some (NULL,
      set_heap_top (N.succ (heap_top w))
        (set_scheduler_heap
           (<[N.succ (heap_top w) :=
                Live (Scheduler (int_wrap (taskmgr_next_scheduler_id w + 1))
                        None false)]> (scheduler_heap w))
           (set_next_scheduler_id (int_wrap (taskmgr_next_scheduler_id w + 1)) w))).
Proof. reflexivity. Qed.

Lemma add_scheduler_thread_failure w :
  add_scheduler true false w
  = Some (NULL,
      set_heap_top (N.succ (heap_top w))
        (set_scheduler_heap
           (<[N.succ (heap_top w) :=
                Live (Scheduler (int_wrap (taskmgr_next_scheduler_id w + 1))
                        None true)]> (scheduler_heap w))
           (set_next_scheduler_id (int_wrap (taskmgr_next_scheduler_id w + 1)) w))).
Proof.
  unfold add_scheduler, malloc_scheduler.
  unfold bind at 1 2 3 4. unfold gets, modify. simpl.
  erewrite bind_some by (eapply store_scheduler_live; simpl; apply lookup_insert_eq).
  simpl. unfold ret. rewrite insert_insert_eq. reflexivity.
Qed.

Lemma add_scheduler_started w q :
  taskmgr_scheduler_queue w = Some q ->
  add_scheduler true true w
  = Some (N.succ (heap_top w),
      set_scheduler_queue (Some (q ++ [N.succ (heap_top w)]))
        (set_threads (threads w ++ [N.succ (heap_top w)])
           (set_heap_top (N.succ (heap_top w))
              (set_scheduler_heap
                 (<[N.succ (heap_top w) :=
                      Live (Scheduler (int_wrap (taskmgr_next_scheduler_id w + 1))
                              (Some (length (threads w))) true)]> (scheduler_heap w))
                 (set_next_scheduler_id
                    (int_wrap (taskmgr_next_scheduler_id w + 1)) w))))).
Proof.
  intros Hq. unfold add_scheduler, malloc_scheduler, push_scheduler.
  unfold bind at 1 2 3 4. unfold gets, modify. simpl.
  erewrite bind_some by (eapply store_scheduler_live; simpl; apply lookup_insert_eq).
  simpl. unfold bind at 1 2. unfold gets, modify. simpl.
  erewrite bind_some by (eapply store_scheduler_live; simpl; apply lookup_insert_eq).
  unfold bind, the_scheduler_queue, modify, ret. simpl. rewrite Hq.
  rewrite !insert_insert_eq. reflexivity.
Qed.

(** X9.  When [pthread_attr_init] or [pthread_create] fails,
    [add_scheduler] returns [NULL] and registers nothing: the registry, the
    started threads and everything on the task side are as before.  It is
    defined even without a registry.  But the id counter has been
    incremented and the record it allocated stays allocated, with that id
    and no thread; no handle to it is returned or queued. *)
Theorem add_scheduler_failure (attr_ok thread_ok : bool) (w : world) :
  attr_ok = false \/ thread_ok = false ->
  exists w' x,
    add_scheduler attr_ok thread_ok w = Some (NULL, w') /\
    taskmgr_scheduler_queue w' = taskmgr_scheduler_queue w /\
    threads w' = threads w /\
    task_side w' = task_side w /\
    taskmgr_next_scheduler_id w' = int_wrap (taskmgr_next_scheduler_id w + 1) /\
    heap_top w' = N.succ (heap_top w) /\
    scheduler_heap w' !! N.succ (heap_top w) = Some (Live x) /\
    scheduler_id x = int_wrap (taskmgr_next_scheduler_id w + 1) /\
    scheduler_thread x = None /\
    (forall s, s <> N.succ (heap_top w) ->
               scheduler_heap w' !! s = scheduler_heap w !! s) /\
    (forall q, taskmgr_scheduler_queue w = Some q ->
               (forall s, In s q -> (s <= heap_top w)%N) ->
               has_scheduler (N.succ (heap_top w)) w' = Some (0, w')).
Proof.
  intros Hfail.
  assert (Hcase : attr_ok = false \/ (attr_ok = true /\ thread_ok = false)).
  { destruct attr_ok; [right; split; [reflexivity|] | left; reflexivity].
    destruct Hfail as [H|H]; [discriminate | exact H]. }
  assert (Hfresh : forall v q,
            taskmgr_scheduler_queue v = Some q ->
            (forall s, In s q -> (s <= heap_top w)%N) ->
            has_scheduler (N.succ (heap_top w)) v = Some (0, v)).
  { intros v q Hq Htop. rewrite (has_scheduler_some v q) by exact Hq.
    replace (queue_get_index q (N.succ (heap_top w))) with (-1); [reflexivity|].
    symmetry. apply queue_get_index_absent. intros Hin. apply Htop in Hin. lia. }
  destruct Hcase as [->|[-> ->]].
  - eexists _, (Scheduler (int_wrap (taskmgr_next_scheduler_id w + 1)) None false).
    split; [apply add_scheduler_attr_failure|].
    repeat split; try reflexivity.
    + simpl. apply lookup_insert_eq.
    + intros s Hs. simpl. apply lookup_insert_ne. congruence.
    + intros q Hq Htop. apply (Hfresh _ q); assumption.
  - eexists _, (Scheduler (int_wrap (taskmgr_next_scheduler_id w + 1)) None true).
    split; [apply add_scheduler_thread_failure|].
    repeat split; try reflexivity.
    + simpl. apply lookup_insert_eq.
    + intros s Hs. simpl. apply lookup_insert_ne. congruence.
    + intros q Hq Htop. apply (Hfresh _ q); assumption.
Qed.

Lemma add_scheduler_failure_witness :
  exists w' x,
    add_scheduler true false started_world = Some (NULL, w') /\
    taskmgr_scheduler_queue w' = taskmgr_scheduler_queue started_world /\
    threads w' = threads started_world /\
    task_side w' = task_side started_world /\
    taskmgr_next_scheduler_id w'
      = int_wrap (taskmgr_next_scheduler_id started_world + 1) /\
    heap_top w' = N.succ (heap_top started_world) /\
    scheduler_heap w' !! N.succ (heap_top started_world) = Some (Live x) /\
    scheduler_id x = int_wrap (taskmgr_next_scheduler_id started_world + 1) /\
    scheduler_thread x = None /\
    (forall s, s <> N.succ (heap_top started_world) ->
               scheduler_heap w' !! s = scheduler_heap started_world !! s) /\
    (forall q, taskmgr_scheduler_queue started_world = Some q ->
               (forall s, In s q -> (s <= heap_top started_world)%N) ->
               has_scheduler (N.succ (heap_top started_world)) w' = Some (0, w')).
Proof.
  apply (add_scheduler_failure true false started_world).
  right. reflexivity.
Defined.

(** A tidy registry extended by a started scheduler is tidy. *)
Lemma add_scheduler_tidy w q :
  schedulers_tidy w ->
  taskmgr_scheduler_queue w = Some q ->
  taskmgr_next_scheduler_id w < INT_MAX ->
  exists s w1,
    add_scheduler true true w = Some (s, w1) /\
    s = N.succ (heap_top w) /\
    ~ In s q /\
    taskmgr_scheduler_queue w1 = Some (q ++ [s]) /\
    scheduler_heap w1 !! s
      = Some (Live (Scheduler (taskmgr_next_scheduler_id w + 1)
                      (Some (length (threads w))) true)) /\
    threads w1 = threads w ++ [s] /\
    task_side w1 = task_side w /\
    (forall s', s' <> s -> scheduler_heap w1 !! s' = scheduler_heap w !! s') /\
    schedulers_tidy w1.
Proof.
  intros (q0 & Hq0 & Hnd & Hc & Hall) Hq Hmax.
  assert (q0 = q) by congruence. subst q0.
  pose proof (add_scheduler_started w q Hq) as Hadd.
  rewrite (int_wrap_small (taskmgr_next_scheduler_id w + 1)) in Hadd
    by (unfold INT_MIN; lia).
  set (s := N.succ (heap_top w)) in *.
  assert (Hfresh : ~ In s q).
  { intros Hin. destruct (Hall s Hin) as (_ & Hle & _). subst s. lia. }
  eexists s, _. split; [exact Hadd|]. split; [reflexivity|].
  split; [exact Hfresh|]. split; [reflexivity|].
  split; [simpl; apply lookup_insert_eq|].
  split; [reflexivity|]. split; [reflexivity|].
  split; [intros s' Hs'; simpl; apply lookup_insert_ne; congruence|].
  exists (q ++ [s]). split; [reflexivity|]. simpl.
  match goal with
  | |- NoDup (scheduler_id_of ?v <$> _) /\ _ => set (w1 := v)
  end.
  assert (Hids : forall s', In s' q -> scheduler_id_of w1 s' = scheduler_id_of w s').
  { intros s' Hs'. unfold scheduler_id_of. subst w1. simpl.
    rewrite lookup_insert_ne by (intros <-; contradiction). reflexivity. }
  split; [|split; [lia|]].
  - rewrite fmap_app. apply NoDup_app. split; [|split].
    + rewrite (fmap_ext_In _ (scheduler_id_of w) q Hids). exact Hnd.
    + intros y Hy Hy'. apply list_elem_of_fmap in Hy. destruct Hy as (s' & -> & Hs').
      apply list_elem_of_In in Hs'. rewrite (Hids s' Hs') in Hy'.
      apply list_elem_of_singleton in Hy'.
      unfold scheduler_id_of in Hy'. subst w1. simpl in Hy'.
      rewrite lookup_insert_eq in Hy'.
      destruct (Hall s' Hs') as (_ & _ & x & Hx & Hid).
      rewrite Hx in Hy'. simpl in Hy'. injection Hy' as Hy'. lia.
    + apply NoDup_singleton.
  - intros s' Hs'. apply in_app_or in Hs'. destruct Hs' as [Hs'|[<-|[]]].
    + destruct (Hall s' Hs') as (Hnull & Hle & x & Hx & Hid).
      split; [exact Hnull|]. split; [subst s; lia|].
      exists x. rewrite lookup_insert_ne by (intros <-; contradiction).
      split; [exact Hx | lia].
    + split; [subst s; unfold NULL; lia|]. split; [lia|].
      eexists. rewrite lookup_insert_eq. split; [reflexivity|]. simpl. lia.
Qed.

(** [remove_scheduler] on a handle of a tidy registry leaves a tidy
    registry. *)
Lemma remove_scheduler_tidy w q s :
  schedulers_tidy w ->
  taskmgr_scheduler_queue w = Some q ->
  In s q ->
  exists x,
    scheduler_heap w !! s = Some (Live x) /\
    remove_scheduler s w
    = Some (0, set_scheduler_heap
                 (<[s := Freed (Scheduler (-1) (scheduler_thread x) false)]>
                    (scheduler_heap w))
                 (set_scheduler_queue (Some (queue_remove_first q s)) w)) /\
    ~ In s (queue_remove_first q s) /\
    schedulers_tidy
      (set_scheduler_heap
         (<[s := Freed (Scheduler (-1) (scheduler_thread x) false)]>
            (scheduler_heap w))
         (set_scheduler_queue (Some (queue_remove_first q s)) w)).
Proof.
  intros (q0 & Hq0 & Hnd & Hc & Hall) Hq Hin.
  assert (q0 = q) by congruence. subst q0.
  destruct (Hall s Hin) as (_ & _ & x & Hx & _).
  pose proof (queue_remove_first_NoDup q s (NoDup_fmap_1 _ _ Hnd)) as Hgone.
  exists x. split; [exact Hx|].
  split; [apply (remove_scheduler_found w q s x Hq Hin Hx)|].
  split; [exact Hgone|].
  exists (queue_remove_first q s). split; [reflexivity|].
  match goal with
  | |- NoDup (scheduler_id_of ?v <$> _) /\ _ => set (w1 := v)
  end.
  assert (Hids : forall s', In s' (queue_remove_first q s) ->
            scheduler_id_of w1 s' = scheduler_id_of w s').
  { intros s' Hs'. unfold scheduler_id_of. subst w1. simpl.
    rewrite lookup_insert_ne by (intros <-; contradiction). reflexivity. }
  split; [|split; [exact Hc|]].
  - rewrite (fmap_ext_In _ (scheduler_id_of w) _ Hids).
    eapply NoDup_submseteq_inv; [|exact Hnd].
    apply fmap_submseteq, sublist_submseteq, queue_remove_first_sublist.
  - intros s' Hs'.
    destruct (Hall s' (queue_remove_first_In q s s' Hs'))
      as (Hnull & Hle & x' & Hx' & Hid).
    split; [exact Hnull|]. split; [exact Hle|].
    exists x'. subst w1. simpl.
    rewrite lookup_insert_ne by (intros <-; contradiction).
    split; [exact Hx' | exact Hid].
Qed.

(** X10.  In a tidy registry with the scheduler counter below [INT_MAX], a
    successful [add_scheduler] returns a new handle, registered last, with
    the id counter + 1, and enters one new thread; the task side is
    untouched.  [has_scheduler], [has_scheduler_by_id] and
    [get_scheduler_by_id] find the scheduler at once.
    [remove_scheduler_by_id] of the id then returns 0, restores the registry
    to what it was and releases the record with the id set to -1, but the
    thread is still among the started ones: removing a scheduler does not
    stop it. *)
Theorem add_find_remove_scheduler (w : world) (q : queue_t) :
  schedulers_tidy w ->
  taskmgr_scheduler_queue w = Some q ->
  taskmgr_next_scheduler_id w < INT_MAX ->
  exists s w1 w2 x',
    add_scheduler true true w = Some (s, w1) /\
    ~ In s q /\
    taskmgr_scheduler_queue w1 = Some (q ++ [s]) /\
    scheduler_heap w1 !! s
      = Some (Live (Scheduler (taskmgr_next_scheduler_id w + 1)
                      (Some (length (threads w))) true)) /\
    threads w1 = threads w ++ [s] /\
    task_side w1 = task_side w /\
    schedulers_tidy w1 /\
    has_scheduler s w1 = Some (1, w1) /\
    has_scheduler_by_id (taskmgr_next_scheduler_id w + 1) w1 = Some (1, w1) /\
    get_scheduler_by_id (taskmgr_next_scheduler_id w + 1) w1 = Some (s, w1) /\
    remove_scheduler_by_id (taskmgr_next_scheduler_id w + 1) w1 = Some (0, w2) /\
    taskmgr_scheduler_queue w2 = Some q /\
    scheduler_heap w2 !! s = Some (Freed x') /\
    scheduler_id x' = -1 /\
    threads w2 = threads w ++ [s] /\
    schedulers_tidy w2.
Proof.
  intros Htidy Hq Hmax.
  destruct (add_scheduler_tidy w q Htidy Hq Hmax)
    as (s & w1 & Hadd & Hs & Hfresh & Hq1 & Hblock & Hth & Hside & Hheap1 & Htidy1).
  pose proof Htidy as (q0 & Hq0 & _ & _ & Hall).
  assert (q0 = q) by congruence. subst q0.
  pose proof Htidy1 as (q1 & Hq1' & _ & _ & Hall1).
  assert (q1 = q ++ [s]) by congruence. subst q1.
  assert (Hin1 : In s (q ++ [s])) by (apply in_or_app; right; left; reflexivity).
  assert (Hnull : s <> NULL) by (apply (Hall1 s Hin1)).
  assert (Hid : scheduler_id_of w1 s = Some (taskmgr_next_scheduler_id w + 1))
    by (unfold scheduler_id_of; rewrite Hblock; reflexivity).
  assert (Hget : get_scheduler_by_id (taskmgr_next_scheduler_id w + 1) w1
                 = Some (s, w1)).
  { rewrite (get_scheduler_by_id_scan w1 _ (q ++ [s]) Hq1).
    rewrite (scan_for_scheduler_id_found w1 _ q s []); [reflexivity | | | exact Hid].
    - intros s' Hs'. destruct (Hall s' Hs') as (_ & _ & x & Hx & _).
      exists x. rewrite Hheap1 by (intros ->; contradiction). exact Hx.
    - intros s' Hs'. destruct (Hall s' Hs') as (_ & _ & x & Hx & Hidx).
      unfold scheduler_id_of. rewrite Hheap1 by (intros ->; contradiction).
      rewrite Hx. intros [= E]. lia. }
  destruct (remove_scheduler_tidy w1 (q ++ [s]) s Htidy1 Hq1 Hin1)
    as (x & Hx & Hrem & _ & Htidy2).
  rewrite (queue_remove_first_last q s Hfresh) in Hrem, Htidy2.
  match type of Hrem with _ = Some (_, ?v) => set (w2 := v) in * end.
  exists s, w1, w2, (Scheduler (-1) (scheduler_thread x) false).
  split; [exact Hadd|]. split; [exact Hfresh|]. split; [exact Hq1|].
  split; [exact Hblock|]. split; [exact Hth|]. split; [exact Hside|].
  split; [exact Htidy1|].
  split.
  { rewrite (has_scheduler_some w1 (q ++ [s]) s Hq1).
    destruct (Z.eqb_spec (queue_get_index (q ++ [s]) s) (-1)) as [E|E]; [|reflexivity].
    apply queue_get_index_absent in E. contradiction. }
  split.
  { unfold has_scheduler_by_id. rewrite (bind_some _ _ _ _ _ Hget).
    apply N.eqb_neq in Hnull. rewrite Hnull. reflexivity. }
  split; [exact Hget|].
  split.
  { unfold remove_scheduler_by_id. rewrite (bind_some _ _ _ _ _ Hget).
    apply N.eqb_neq in Hnull. rewrite Hnull. exact Hrem. }
  split; [reflexivity|].
  split; [simpl; apply lookup_insert_eq|].
  split; [reflexivity|].
  split; [exact Hth | exact Htidy2].
Qed.

Lemma started_world_schedulers_tidy : schedulers_tidy started_world.
Proof.
  exists []. split; [reflexivity|]. split; [apply NoDup_nil_2|].
  split; [vm_compute; discriminate | intros s []].
Qed.

Lemma add_find_remove_scheduler_witness :
  exists s w1 w2 x',
    add_scheduler true true started_world = Some (s, w1) /\
    ~ In s [] /\
    taskmgr_scheduler_queue w1 = Some ([] ++ [s]) /\
    scheduler_heap w1 !! s
      = Some (Live (Scheduler (taskmgr_next_scheduler_id started_world + 1)
                      (Some (length (threads started_world))) true)) /\
    threads w1 = threads started_world ++ [s] /\
    task_side w1 = task_side started_world /\
    schedulers_tidy w1 /\
    has_scheduler s w1 = Some (1, w1) /\
    has_scheduler_by_id (taskmgr_next_scheduler_id started_world + 1) w1
      = Some (1, w1) /\
    get_scheduler_by_id (taskmgr_next_scheduler_id started_world + 1) w1
      = Some (s, w1) /\
    remove_scheduler_by_id (taskmgr_next_scheduler_id started_world + 1) w1
      = Some (0, w2) /\
    taskmgr_scheduler_queue w2 = Some [] /\
    scheduler_heap w2 !! s = Some (Freed x') /\
    scheduler_id x' = -1 /\
    threads w2 = threads started_world ++ [s] /\
    schedulers_tidy w2.
Proof.
  apply (add_find_remove_scheduler started_world []).
  - apply started_world_schedulers_tidy.
  - reflexivity.
  - vm_compute. reflexivity.
Defined.

(** ** A callable that shuts the manager down *)

(** The tick of a due task up to the [switch] on the result: the callable
    has returned [result] in state [w2], where the task is live with its
    guard held, and the guard has been released. *)
Lemma taskmgr_tick_to_switch clock invoke w task q' t result w2 t2 :
  taskmgr_task_queue w = Some (task :: q') ->
  task <> NULL ->
  task_heap w !! task = Some (Live t) ->
  task_delayable t = false
    \/ double_lt (double_sub (clock (clock_reads w)) (task_timestamp t))
         (task_delay t) = false ->
  task_mutex t = MutexUnlocked ->
  invoke (task_func t) task (va_view w (task_args t)) (at_invocation w task q' t)
    = Some (result, w2) ->
  task_heap w2 !! task = Some (Live t2) ->
  task_mutex t2 = MutexLocked ->
  taskmgr_tick clock invoke w
  = match result with
    | TASK_RESULT_CONT =>
        t <- load_task task ;;
        store_task task (with_delayable false t) ;;;
        push_task task ;;;
        ret 0
    | TASK_RESULT_WAIT =>
        t <- load_task task ;;
        store_task task (with_delayable true t) ;;;
        now <- get_current_time clock ;;
        t <- load_task task ;;
        store_task task (with_timestamp now t) ;;;
        push_task task ;;;
        ret 0
    | _ =>
        free_task task ;;;
        ret 0
    end
      (set_task_heap
         (<[task := Live (with_mutex MutexUnlocked t2)]> (task_heap w2)) w2).
Proof.
  intros Hq Hnull Ht Hdue Hm Hinv Ht2 Hm2. unfold taskmgr_tick.
  rewrite (bind_some _ _ _ _ _ (the_task_queue_some w _ Hq)). simpl.
  rewrite (bind_some _ _ _ _ (set_task_queue (Some q') w) eq_refl).
  apply N.eqb_neq in Hnull. rewrite Hnull.
  erewrite bind_some by (apply load_task_live; simpl; eassumption).
  erewrite (bind_some _ _ _ false) by (apply due_check_passed; exact Hdue).
  erewrite bind_some
    by (apply pthread_mutex_lock_unlocked with (t := t); [exact Ht | exact Hm]).
  erewrite bind_some by (apply load_task_live; simpl; apply lookup_insert_eq).
  rewrite (bind_some _ _ _ _ _ eq_refl).
  erewrite (bind_some _ _ _ result w2).
  2:{ erewrite call_live by (simpl; apply lookup_insert_eq).
      rewrite <- Hinv. reflexivity. }
  erewrite bind_some
    by (apply pthread_mutex_unlock_locked with (t := t2); [exact Ht2 | exact Hm2]).
  destruct result; reflexivity.
Qed.

(** [taskmgr_shutdown] with the flag set and both queues in place. *)
Lemma taskmgr_shutdown_some v q sq :
  taskmgr_running v = true ->
  taskmgr_task_queue v = Some q ->
  taskmgr_scheduler_queue v = Some sq ->
  taskmgr_shutdown v
  = Some (0, set_scheduler_queue None (set_task_queue None (set_running false v))).
Proof.
  intros Hrun Hq Hsq. unfold taskmgr_shutdown.
  rewrite (bind_some _ _ v true v) by (unfold gets; rewrite Hrun; reflexivity).
  rewrite (bind_some _ _ v tt (set_running false v) eq_refl).
  rewrite (bind_some _ _ _ tt (set_task_queue None (set_running false v)))
    by (unfold queue_free_task_queue, bind, the_task_queue; simpl;
        rewrite Hq; reflexivity).
  rewrite (bind_some _ _ _ tt
             (set_scheduler_queue None (set_task_queue None (set_running false v))))
    by (unfold queue_free_scheduler_queue, bind, the_scheduler_queue; simpl;
        rewrite Hsq; reflexivity).
  reflexivity.
Qed.

(** X12.  A callable may call [taskmgr_shutdown] only if it then returns
    DONE (or an unknown result).  Let the run loop be active, both queues in
    place and a due task at the front whose callable calls
    [taskmgr_shutdown] and returns [result].  If [result] is CONTINUE or
    WAIT, the tick pushes the task onto the released Ready Queue, which is
    undefined.  Otherwise the tick is defined: it frees the task, the flag
    is clear and the queues are released, and the loop of [taskmgr_run]
    returns 0 at its next test of the flag. *)
Theorem shutdown_from_callable
  (clock : nat -> double)
  (invoke : callable_func_t -> addr -> option (list Z) -> world
            -> option (task_result_t * world))
  (w : world) (task : addr) (q' sq : queue_t) (t : task_t)
  (result : task_result_t) :
  taskmgr_running w = true ->
  taskmgr_task_queue w = Some (task :: q') ->
  taskmgr_scheduler_queue w = Some sq ->
  task <> NULL ->
  task_heap w !! task = Some (Live t) ->
  task_delayable t = false
    \/ double_lt (double_sub (clock (clock_reads w)) (task_timestamp t))
         (task_delay t) = false ->
  task_mutex t = MutexUnlocked ->
  (forall a v,
      invoke (task_func t) task a v
      = Some (result, state_after taskmgr_shutdown v)) ->
  match result with
  | TASK_RESULT_CONT | TASK_RESULT_WAIT =>
      taskmgr_tick clock invoke w = None /\
      forall n, taskmgr_run_loop clock invoke (S n) w = None
  | _ =>
      exists w' t',
        taskmgr_tick clock invoke w = Some (0, w') /\
        taskmgr_running w' = false /\
        taskmgr_task_queue w' = None /\
        taskmgr_scheduler_queue w' = None /\
        task_heap w' !! task = Some (Freed t') /\
        task_id t' = -1 /\
        forall n, taskmgr_run_loop clock invoke (S (S n)) w = Some (Returned 0, w')
  end.
Proof.
  intros Hrun Hq Hsq Hnull Ht Hdue Hm Hinv.
  set (w2 := set_scheduler_queue None
               (set_task_queue None
                  (set_running false (at_invocation w task q' t)))).
  assert (Hshut : state_after taskmgr_shutdown (at_invocation w task q' t) = w2).
  { unfold state_after.
    rewrite (taskmgr_shutdown_some (at_invocation w task q' t) q' sq);
      [reflexivity | exact Hrun | reflexivity | exact Hsq]. }
  pose proof (taskmgr_tick_to_switch clock invoke w task q' t result w2
                (with_mutex MutexLocked t) Hq Hnull Ht Hdue Hm) as Htick.
  rewrite Hinv, Hshut in Htick.
  specialize (Htick eq_refl ltac:(simpl; apply lookup_insert_eq) eq_refl).
  assert (Hloop : forall n,
            taskmgr_run_loop clock invoke (S n) w
            = match taskmgr_tick clock invoke w with
              | Some (r', w') =>
                  if r' =? 0 then taskmgr_run_loop clock invoke n w'
                  else Some (Returned 1, w')
              | None => None
              end).
  { intros n. simpl. unfold bind at 1. unfold gets. rewrite Hrun.
    unfold bind. destruct (taskmgr_tick clock invoke w) as [[r' w']|]; [|reflexivity].
    destruct (r' =? 0); reflexivity. }
  assert (Hfree :
    (free_task task ;;; ret 0)
      (set_task_heap
         (<[task := Live (with_mutex MutexUnlocked (with_mutex MutexLocked t))]>
            (task_heap w2)) w2)
    = Some (0, set_task_heap
                 (<[task := Freed (with_mutex MutexDestroyed (invalidate t))]>
                    (task_heap w2)) w2)).
  { erewrite bind_some.
    2:{ apply free_task_live with
          (t := with_mutex MutexUnlocked (with_mutex MutexLocked t));
          [simpl; apply lookup_insert_eq | discriminate]. }
    unfold ret. simpl. rewrite insert_insert_eq. reflexivity. }
  assert (Hstop : forall n v, taskmgr_running v = false ->
            taskmgr_run_loop clock invoke (S n) v = Some (Returned 0, v)).
  { intros n v Hv. simpl. unfold bind, gets. rewrite Hv. reflexivity. }
  destruct result.
  - assert (E : taskmgr_tick clock invoke w = None).
    { rewrite Htick.
      erewrite bind_some by (apply load_task_live; simpl; apply lookup_insert_eq).
      erewrite bind_some by (eapply store_task_live; simpl; apply lookup_insert_eq).
      reflexivity. }
    split; [exact E|]. intros n. rewrite (Hloop n), E. reflexivity.
  - assert (E : taskmgr_tick clock invoke w = None).
    { rewrite Htick.
      erewrite bind_some by (apply load_task_live; simpl; apply lookup_insert_eq).
      erewrite bind_some by (eapply store_task_live; simpl; apply lookup_insert_eq).
      rewrite (bind_some _ _ _ _ _ eq_refl).
      erewrite bind_some by (apply load_task_live; simpl; apply lookup_insert_eq).
      erewrite bind_some by (eapply store_task_live; simpl; apply lookup_insert_eq).
      reflexivity. }
    split; [exact E|]. intros n. rewrite (Hloop n), E. reflexivity.
  - rewrite Hfree in Htick. eexists _, _. split; [exact Htick|].
    split; [reflexivity|]. split; [reflexivity|]. split; [reflexivity|].
    split; [simpl; apply lookup_insert_eq|]. split; [reflexivity|].
    intros n. rewrite (Hloop (S n)), Htick. simpl Z.eqb. cbv iota.
    apply Hstop. reflexivity.
  - rewrite Hfree in Htick. eexists _, _. split; [exact Htick|].
    split; [reflexivity|]. split; [reflexivity|]. split; [reflexivity|].
    split; [simpl; apply lookup_insert_eq|]. split; [reflexivity|].
    intros n. rewrite (Hloop (S n)), Htick. simpl Z.eqb. cbv iota.
    apply Hstop. reflexivity.
Qed.

Lemma shutdown_from_callable_witness :
  exists w' t',
    taskmgr_tick second_clock (shutting_down TASK_RESULT_DONE)
      (set_running true (one_task_world (double_of_Z 0))) = Some (0, w') /\
    taskmgr_running w' = false /\
    taskmgr_task_queue w' = None /\
    taskmgr_scheduler_queue w' = None /\
    task_heap w' !! 1%N = Some (Freed t') /\
    task_id t' = -1 /\
    forall n,
      taskmgr_run_loop second_clock (shutting_down TASK_RESULT_DONE) (S (S n))
        (set_running true (one_task_world (double_of_Z 0))) = Some (Returned 0, w').
Proof.
  apply (shutdown_from_callable second_clock (shutting_down TASK_RESULT_DONE)
           (set_running true (one_task_world (double_of_Z 0))) 1%N [] []
           (first_task (double_of_Z 0))
           TASK_RESULT_DONE).
  - reflexivity.
  - reflexivity.
  - reflexivity.
  - discriminate.
  - reflexivity.
  - right. vm_compute. reflexivity.
  - reflexivity.
  - intros a v. reflexivity.
Defined.

(** * Properties of [net.c] *)

Lemma net_start_server_threaded clock delay resync run seed_mode nw q :
  g_net_server_running nw = false ->
  taskmgr_task_queue (tm nw) = Some q ->
  net_start_server clock delay resync run true seed_mode nw
  = Some (0,
      NetWorld
        (state_after (add_task clock resync delay []) (tm nw))
        true seed_mode (g_net_gossip nw) (N.succ (heap_top (tm nw)))
        (S (net_threads nw))).
Proof.
  intros Hrun Hq. unfold net_start_server, in_tm, state_after. rewrite Hrun. simpl.
  rewrite (add_task_some clock resync delay [] (tm nw) q Hq). reflexivity.
Qed.

(** X13.  [net_start_server] registers the resync task and
    [net_stop_server] never takes it back.  In a tidy state with the server
    stopped, a threaded [net_start_server] returns 0, sets the flag and the
    seed mode, starts one thread and queues one new task with callable
    [resync_chain] and delay [RESYNC_CHAIN_TASK_DELAY], whose handle it
    keeps.  Called again while the flag is set it returns 1 and changes
    nothing.  [net_stop_server] clears the flag and leaves the task manager
    as it is, the resync task still queued.  The next [net_start_server]
    queues a second resync task next to the first and overwrites the handle
    it kept. *)
Theorem net_start_stop_start
  (clock : nat -> double) (delay : double) (resync : callable_func_t)
  (run : NM Z) (seed1 seed2 : Z) (nw : net_world) (q : queue_t) :
  g_net_server_running nw = false ->
  tasks_tidy (tm nw) ->
  taskmgr_task_queue (tm nw) = Some q ->
  taskmgr_next_task_id (tm nw) + 1 < INT_MAX ->
  exists p1 p2 nw1 nw2 nw3 t1 t2,
    net_start_server clock delay resync run true seed1 nw = Some (0, nw1) /\
    g_net_server_running nw1 = true /\
    g_net_seed_mode nw1 = seed1 /\
    g_net_resync_chain_task nw1 = p1 /\
    net_threads nw1 = S (net_threads nw) /\
    taskmgr_task_queue (tm nw1) = Some (q ++ [p1]) /\
    task_heap (tm nw1) !! p1 = Some (Live t1) /\
    task_func t1 = resync /\ task_delay t1 = delay /\ task_delayable t1 = true /\
    (forall threaded seed,
        net_start_server clock delay resync run threaded seed nw1 = Some (1, nw1)) /\
    net_stop_server nw1 = Some (tt, nw2) /\
    g_net_server_running nw2 = false /\
    tm nw2 = tm nw1 /\
    g_net_resync_chain_task nw2 = p1 /\
    net_start_server clock delay resync run true seed2 nw2 = Some (0, nw3) /\
    g_net_resync_chain_task nw3 = p2 /\
    p2 <> p1 /\
    taskmgr_task_queue (tm nw3) = Some (q ++ [p1; p2]) /\
    task_heap (tm nw3) !! p1 = Some (Live t1) /\
    task_heap (tm nw3) !! p2 = Some (Live t2) /\
    task_func t2 = resync /\ task_delay t2 = delay /\
    tasks_tidy (tm nw3).
Proof.
  intros Hrun Htidy Hq Hmax.
  destruct (add_task_tidy clock resync delay [] (tm nw) q Htidy Hq ltac:(lia))
    as (p1 & w1 & Hadd1 & Hp1 & Hfresh1 & Hq1 & _ & Hc1 & Htop1 & _ & _ & Htidy1).
  destruct (add_task_tidy clock resync delay [] w1 (q ++ [p1]) Htidy1 Hq1
              ltac:(lia))
    as (p2 & w2 & Hadd2 & Hp2 & Hfresh2 & Hq2 & _ & _ & _ & _ & Hheap2 & Htidy2).
  assert (Hne : p2 <> p1).
  { intros E. apply Hfresh2. apply in_or_app. right. left. congruence. }
  pose proof (add_task_some clock resync delay [] (tm nw) q Hq) as Hs1.
  cbv zeta in Hs1. rewrite Hadd1 in Hs1. injection Hs1 as Hp1' Hw1.
  pose proof (add_task_some clock resync delay [] w1 (q ++ [p1]) Hq1) as Hs2.
  cbv zeta in Hs2. rewrite Hadd2 in Hs2. injection Hs2 as Hp2' Hw2.
  set (nw1 := NetWorld w1 true seed1 (g_net_gossip nw) p1 (S (net_threads nw))).
  set (nw2 := NetWorld w1 false seed1 (g_net_gossip nw) p1 (S (net_threads nw))).
  set (nw3 := NetWorld w2 true seed2 (g_net_gossip nw) p2 (S (S (net_threads nw)))).
  assert (Ht1 : exists t1, task_heap w1 !! p1 = Some (Live t1) /\
                  task_func t1 = resync /\ task_delay t1 = delay /\
                  task_delayable t1 = true).
  { rewrite Hw1, Hp1'. simpl. rewrite lookup_insert_eq.
    eexists. split; [reflexivity|]. repeat split. }
  destruct Ht1 as (t1 & Ht1 & Hf1 & Hd1 & Hdl1).
  assert (Ht2 : exists t2, task_heap w2 !! p2 = Some (Live t2) /\
                  task_func t2 = resync /\ task_delay t2 = delay).
  { rewrite Hw2, Hp2'. simpl. rewrite lookup_insert_eq.
    eexists. split; [reflexivity|]. repeat split. }
  destruct Ht2 as (t2 & Ht2 & Hf2 & Hd2).
  exists p1, p2, nw1, nw2, nw3, t1, t2.
  split.
  { unfold net_start_server, in_tm. rewrite Hrun. simpl. rewrite Hadd1. reflexivity. }
  split; [reflexivity|]. split; [reflexivity|]. split; [reflexivity|].
  split; [reflexivity|]. split; [exact Hq1|]. split; [exact Ht1|].
  split; [exact Hf1|]. split; [exact Hd1|]. split; [exact Hdl1|].
  split; [intros threaded seed; reflexivity|].
  split; [reflexivity|]. split; [reflexivity|]. split; [reflexivity|].
  split; [reflexivity|].
  split.
  { unfold net_start_server, in_tm. simpl. rewrite Hadd2. reflexivity. }
  split; [reflexivity|]. split; [exact Hne|].
  split; [simpl; rewrite Hq2, <- app_assoc; reflexivity|].
  split; [simpl; rewrite Hheap2 by congruence; exact Ht1|].
  split; [exact Ht2|]. split; [exact Hf2|]. split; [exact Hd2 | exact Htidy2].
Qed.

Lemma net_start_stop_start_witness :
  exists p1 p2 nw1 nw2 nw3 t1 t2,
    net_start_server second_clock (double_of_Z 10) 5%nat (fun nw => Some (0, nw)) true 0
      (NetWorld started_world false 0 NULL NULL 0) = Some (0, nw1) /\
    g_net_server_running nw1 = true /\
    g_net_seed_mode nw1 = 0 /\
    g_net_resync_chain_task nw1 = p1 /\
    net_threads nw1 = S (net_threads (NetWorld started_world false 0 NULL NULL 0)) /\
    taskmgr_task_queue (tm nw1) = Some ([] ++ [p1]) /\
    task_heap (tm nw1) !! p1 = Some (Live t1) /\
    task_func t1 = 5%nat /\ task_delay t1 = double_of_Z 10 /\ task_delayable t1 = true /\
    (forall threaded seed,
        net_start_server second_clock (double_of_Z 10) 5%nat (fun nw => Some (0, nw))
          threaded seed nw1 = Some (1, nw1)) /\
    net_stop_server nw1 = Some (tt, nw2) /\
    g_net_server_running nw2 = false /\
    tm nw2 = tm nw1 /\
    g_net_resync_chain_task nw2 = p1 /\
    net_start_server second_clock (double_of_Z 10) 5%nat (fun nw => Some (0, nw)) true 1 nw2
      = Some (0, nw3) /\
    g_net_resync_chain_task nw3 = p2 /\
    p2 <> p1 /\
    taskmgr_task_queue (tm nw3) = Some ([] ++ [p1; p2]) /\
    task_heap (tm nw3) !! p1 = Some (Live t1) /\
    task_heap (tm nw3) !! p2 = Some (Live t2) /\
    task_func t2 = 5%nat /\ task_delay t2 = double_of_Z 10 /\
    tasks_tidy (tm nw3).
Proof.
  apply (net_start_stop_start second_clock (double_of_Z 10) 5%nat (fun nw => Some (0, nw)) 0 1
           (NetWorld started_world false 0 NULL NULL 0) []).
  - reflexivity.
  - exists []. split; [reflexivity|]. split; [apply NoDup_nil_2|].
    split; [vm_compute; discriminate | intros p []].
  - reflexivity.
  - vm_compute. reflexivity.
Defined.

Lemma drive_ticks_tidy clock invoke :
  pure_callables invoke ->
  returning_callables invoke ->
  forall n w,
    tasks_tidy w ->
    exists wn, drive_ticks clock invoke n w = Some (tt, wn) /\ tasks_tidy wn.
Proof.
  intros Hpure Hret. induction n as [|n IH]; intros w Htidy.
  - exists w. split; [reflexivity | exact Htidy].
  - destruct (taskmgr_tick_defined clock invoke w Hpure Hret Htidy) as (w1 & Htick).
    destruct (tick_case_tidy clock invoke w 0 w1
                (taskmgr_tick_cases clock invoke w 0 w1 Hpure Htick) Htidy)
      as (Htidy1 & _).
    destruct (IH w1 Htidy1) as (wn & Hrun & Htidyn).
    exists wn. split; [|exact Htidyn].
    simpl. rewrite (bind_some _ _ _ _ _ Htick). exact Hrun.
Qed.

(** X14.  The resync task is a recurring timer that never retires.  After
    a threaded [net_start_server] in a tidy state, with [resync_chain]
    returning WAIT and callables that leave the task manager alone and
    return whatever argument list they are passed, any number of ticks is
    defined; the
    invocations of the resync task among them are [well_spaced] by
    [RESYNC_CHAIN_TASK_DELAY] in the arithmetic of the dispatcher (the
    rounded [double] difference of the reading before an invocation and the
    reading after the one before it, or the reading at registration, is not
    below the delay); and the task is still live, delayable and queued
    afterwards. *)
Theorem resync_task_recurs
  (clock : nat -> double)
  (invoke : callable_func_t -> addr -> option (list Z) -> world
            -> option (task_result_t * world))
  (delay : double) (resync : callable_func_t) (run : NM Z) (seed : Z)
  (nw : net_world) :
  pure_callables invoke ->
  returning_callables invoke ->
  resync_chain_waits invoke resync ->
  g_net_server_running nw = false ->
  tasks_tidy (tm nw) ->
  taskmgr_next_task_id (tm nw) < INT_MAX ->
  exists nw1,
    net_start_server clock delay resync run true seed nw = Some (0, nw1) /\
    forall n,
      exists wn evs t q,
        drive_ticks clock invoke n (tm nw1) = Some (tt, wn) /\
        call_log wn = evs ++ call_log (tm nw) /\
        well_spaced clock delay (clock_reads (tm nw))
          (invocations_of (g_net_resync_chain_task nw1) evs) /\
        task_heap wn !! g_net_resync_chain_task nw1 = Some (Live t) /\
        task_delayable t = true /\
        task_delay t = delay /\
        taskmgr_task_queue wn = Some q /\
        In (g_net_resync_chain_task nw1) q.
Proof.
  intros Hpure Hret Hwait Hrun Htidy Hmax.
  pose proof Htidy as (q & Hq & _).
  destruct (add_task_tidy clock resync delay [] (tm nw) q Htidy Hq Hmax)
    as (p & w1 & Hadd & Hp & _ & Hq1 & _ & _ & _ & _ & _ & Htidy1).
  exists (NetWorld w1 true seed (g_net_gossip nw) p (S (net_threads nw))).
  split.
  { unfold net_start_server, in_tm. rewrite Hrun. simpl. rewrite Hadd. reflexivity. }
  intros n. simpl.
  destruct (drive_ticks_tidy clock invoke Hpure Hret n w1 Htidy1)
    as (wn & Hdrive & Htidyn).
  assert (Hinit : timer_invariant clock resync delay p (call_log (tm nw))
                    (clock_reads (tm nw)) w1).
  { pose proof (add_task_some clock resync delay [] (tm nw) q Hq) as Hs.
    cbv zeta in Hs. rewrite Hadd in Hs. injection Hs as Hp' Hw1.
    exists [], (Task (int_wrap (taskmgr_next_task_id (tm nw) + 1)) resync
                  (frame_count (tm nw)) true delay
                  (clock (clock_reads (tm nw))) MutexUnlocked).
    rewrite Hw1, Hp'. simpl. repeat split; try reflexivity.
    - apply lookup_insert_eq.
    - lia. }
  assert (Hwait' : forall x a v r v',
            invoke resync x a v = Some (r, v') -> r = TASK_RESULT_WAIT)
    by (intros x a v r v' H; rewrite Hwait in H; congruence).
  destruct (timer_invariant_drive clock invoke resync delay p _ _ n Hpure Hwait'
              w1 wn Hinit Hdrive)
    as (evs & t & Hlog & Ht & Hf & HD & Hd & Hts & Hlt & Hsp).
  (* the task is still queued: a waiting task is only ever requeued *)
  assert (Hqueued : forall k v vk,
            timer_invariant clock resync delay p (call_log (tm nw))
              (clock_reads (tm nw)) v ->
            (exists qv, taskmgr_task_queue v = Some qv /\ In p qv) ->
            drive_ticks clock invoke k v = Some (tt, vk) ->
            exists qk, taskmgr_task_queue vk = Some qk /\ In p qk).
  { induction k as [|k IHk]; intros v vk Hinv Hin Hk.
    - injection Hk as <-. exact Hin.
    - simpl in Hk. unfold bind in Hk at 1.
      destruct (taskmgr_tick clock invoke v) as [[r v1]|] eqn:Htick; [|discriminate].
      pose proof (taskmgr_tick_cases clock invoke v r v1 Hpure Htick) as Hcase.
      apply (IHk v1 vk); [| |exact Hk].
      + eapply timer_invariant_tick; [exact Hwait' | exact Hcase | exact Hinv].
      + destruct Hin as (qv & Hqv & Hinp).
        destruct Hinv as (_ & tv & _ & Htv & Hfv & _).
        destruct Hcase as [Hq0 | q' Hq0 | task q' t0 Hq0 Hnull Ht0 Hd0 Hearly
                          | task q' t0 result Hq0 Hnull Ht0 Hdue Hm Hinv].
        * eauto.
        * exists q'. split; [reflexivity|].
          assert (qv = NULL :: q') by congruence. subst qv.
          destruct Hinp as [E|Hinp]; [|exact Hinp].
          exfalso. rewrite <- E in Hp. unfold NULL in Hp. lia.
        * exists (q' ++ [task]). split; [reflexivity|].
          assert (qv = task :: q') by congruence. subst qv.
          apply in_or_app. destruct Hinp as [E|Hinp]; [right; left; exact E | left; exact Hinp].
        * assert (qv = task :: q') by congruence. subst qv.
          unfold after_invocation.
          destruct Hinp as [E|Hinp].
          -- subst task. assert (t0 = tv) by congruence. subst t0.
             rewrite Hfv in Hinv. apply Hwait' in Hinv. subst result.
             eexists. split; [reflexivity|].
             apply in_or_app. right. left. reflexivity.
          -- destruct result;
               eexists; (split; [reflexivity|]);
               first [ apply in_or_app; left; exact Hinp | exact Hinp ]. }
  destruct (Hqueued n w1 wn Hinit) as (qn & Hqn & Hinn).
  { exists (q ++ [p]). split; [exact Hq1|]. apply in_or_app. right. left. reflexivity. }
  { exact Hdrive. }
  exists wn, evs, t, qn. repeat split; assumption.
Qed.

Lemma resync_task_recurs_witness :
  exists nw1,
    net_start_server second_clock (double_of_Z 10) 5%nat (fun nw => Some (0, nw)) true 0
      (NetWorld started_world false 0 NULL NULL 0) = Some (0, nw1) /\
    forall n,
      exists wn evs t q,
        drive_ticks second_clock (always TASK_RESULT_WAIT) n (tm nw1)
          = Some (tt, wn) /\
        call_log wn
          = evs ++ call_log (tm (NetWorld started_world false 0 NULL NULL 0)) /\
        well_spaced second_clock (double_of_Z 10)
          (clock_reads (tm (NetWorld started_world false 0 NULL NULL 0)))
          (invocations_of (g_net_resync_chain_task nw1) evs) /\
        task_heap wn !! g_net_resync_chain_task nw1 = Some (Live t) /\
        task_delayable t = true /\
        task_delay t = double_of_Z 10 /\
        taskmgr_task_queue wn = Some q /\
        In (g_net_resync_chain_task nw1) q.
Proof.
  apply (resync_task_recurs second_clock (always TASK_RESULT_WAIT) (double_of_Z 10) 5%nat
           (fun nw => Some (0, nw)) 0 (NetWorld started_world false 0 NULL NULL 0)).
  - intros f p a v r v' [= _ <-]. reflexivity.
  - intros f p a v. eexists _, _. reflexivity.
  - intros p a v. reflexivity.
  - reflexivity.
  - exists []. split; [reflexivity|]. split; [apply NoDup_nil_2|].
    split; [vm_compute; discriminate | intros p []].
  - vm_compute. reflexivity.
Defined.

(** * Further edge cases of [task.c] *)

Lemma free_task_inv task w r w' :
  free_task task w = Some (r, w') ->
  exists t,
    task_heap w !! task = Some (Live t) /\
    r = 0 /\
    w' = set_task_heap
           (<[task := Freed (with_mutex MutexDestroyed (invalidate t))]>
              (task_heap w)) w.
Proof.
  intros H.
  destruct (task_heap w !! task) as [[t|t]|] eqn:Ht;
    try (unfold free_task, bind, load_task in H; rewrite Ht in H; discriminate).
  exists t. split; [reflexivity|].
  destruct (task_mutex t) eqn:Hm.
  - rewrite (free_task_live task w t Ht) in H by congruence.
    injection H as <- <-. split; reflexivity.
  - exfalso. revert H. unfold free_task, pthread_mutex_destroy.
    rewrite (bind_some _ _ _ _ _ (load_task_live task w t Ht)).
    rewrite (bind_some _ _ _ _ _ (store_task_live task w t _ Ht)).
    unfold bind, load_task. simpl. rewrite lookup_insert_eq. simpl.
    rewrite Hm. discriminate.
  - rewrite (free_task_live task w t Ht) in H by congruence.
    injection H as <- <-. split; reflexivity.
Qed.

(** X15.  [free_task] may be called once per task: whenever it is defined
    it returns 0 and releases the block, its id set to -1, without touching
    the Ready Queue or any other block.  A second [free_task] on the same
    handle is undefined (the block has been released), unlike a second
    [remove_task]; and if the handle is queued, [remove_task] on it is
    undefined as well, since it takes the handle out and then frees the
    released block again. *)
Theorem free_task_only_once (w : world) (task : addr) (r : Z) (w' : world) :
  free_task task w = Some (r, w') ->
  r = 0 /\
  taskmgr_task_queue w' = taskmgr_task_queue w /\
  (exists t', task_heap w' !! task = Some (Freed t') /\ task_id t' = -1) /\
  (forall p, p <> task -> task_heap w' !! p = task_heap w !! p) /\
  free_task task w' = None /\
  (forall q, taskmgr_task_queue w = Some q -> In task q ->
             remove_task task w' = None).
Proof.
  intros H. destruct (free_task_inv task w r w' H) as (t & Ht & -> & ->).
  split; [reflexivity|]. split; [reflexivity|].
  split; [eexists; split; [simpl; apply lookup_insert_eq | reflexivity]|].
  split; [intros p Hp; simpl; apply lookup_insert_ne; congruence|].
  assert (Hfree : forall v,
            task_heap v = <[task := Freed (with_mutex MutexDestroyed (invalidate t))]>
                            (task_heap w) ->
            free_task task v = None).
  { intros v Hv. unfold free_task, bind, load_task. rewrite Hv.
    rewrite lookup_insert_eq. reflexivity. }
  split; [apply Hfree; reflexivity|].
  intros q Hq Hin. unfold remove_task, queue_remove_object.
  erewrite bind_some by (apply the_task_queue_some; simpl; exact Hq).
  destruct (Z.eqb_spec (queue_get_index q task) (-1)) as [E|E].
  { apply queue_get_index_absent in E. contradiction. }
  erewrite bind_some by reflexivity.
  simpl. unfold bind at 1. rewrite Hfree by reflexivity. reflexivity.
Qed.

Lemma free_task_only_once_witness :
  0 = 0 /\
  taskmgr_task_queue (state_after (free_task 1%N) (one_task_world (double_of_Z 0)))
    = taskmgr_task_queue (one_task_world (double_of_Z 0)) /\
  (exists t',
      task_heap (state_after (free_task 1%N) (one_task_world (double_of_Z 0))) !! 1%N
        = Some (Freed t') /\ task_id t' = -1) /\
  (forall p, p <> 1%N ->
      task_heap (state_after (free_task 1%N) (one_task_world (double_of_Z 0))) !! p
      = task_heap (one_task_world (double_of_Z 0)) !! p) /\
  free_task 1%N (state_after (free_task 1%N) (one_task_world (double_of_Z 0)))
    = None /\
  (forall q,
      taskmgr_task_queue (one_task_world (double_of_Z 0)) = Some q ->
      In 1%N q ->
      remove_task 1%N (state_after (free_task 1%N) (one_task_world (double_of_Z 0)))
      = None).
Proof.
  apply (free_task_only_once (one_task_world (double_of_Z 0)) 1%N 0
           (state_after (free_task 1%N) (one_task_world (double_of_Z 0)))).
  vm_compute. reflexivity.
Defined.

Lemma scan_for_scheduler_id_released w id pre s suf x' :
  (forall s', In s' pre -> exists x, scheduler_heap w !! s' = Some (Live x)) ->
  (forall s', In s' pre -> scheduler_id_of w s' <> Some id) ->
  scheduler_heap w !! s = Some (Freed x') ->
  scan_for_scheduler_id w id (pre ++ s :: suf) = None.
Proof.
  intros Hlive Hpre Hs. induction pre as [|s' pre IH]; simpl.
  - rewrite Hs. reflexivity.
  - destruct (Hlive s' (or_introl eq_refl)) as (x & Hx).
    pose proof (Hpre s' (or_introl eq_refl)) as Hne.
    unfold scheduler_id_of in Hne. rewrite Hx in *.
    destruct (Z.eqb_spec (scheduler_id x) id) as [E|E]; [congruence|].
    apply IH; intros y Hy; [apply Hlive | apply Hpre]; right; exact Hy.
Qed.

(** X16.  [free_scheduler_by_id] has the defect of [free_task_by_id]: for
    the first registered scheduler with the id, in a registry of live
    records, it returns 0 and releases the record with the id set to -1,
    but leaves the handle registered and the thread running.
    [has_scheduler] still answers 1 for it, and a later lookup of that id,
    as well as [remove_scheduler] on the handle, reads the released record
    and is undefined. *)
Theorem free_scheduler_by_id_stays_registered
  (w : world) (pre : queue_t) (s : addr) (suf : queue_t) (id : Z) :
  taskmgr_scheduler_queue w = Some (pre ++ s :: suf) ->
  s <> NULL ->
  (forall s', In s' pre -> exists x, scheduler_heap w !! s' = Some (Live x)) ->
  (forall s', In s' pre -> scheduler_id_of w s' <> Some id) ->
  (forall s', In s' pre -> s' <> s) ->
  scheduler_id_of w s = Some id ->
  exists w' x',
    free_scheduler_by_id id w = Some (0, w') /\
    scheduler_heap w' !! s = Some (Freed x') /\
    scheduler_id x' = -1 /\
    taskmgr_scheduler_queue w' = Some (pre ++ s :: suf) /\
    threads w' = threads w /\
    has_scheduler s w' = Some (1, w') /\
    get_scheduler_by_id id w' = None /\
    has_scheduler_by_id id w' = None /\
    remove_scheduler_by_id id w' = None /\
    free_scheduler_by_id id w' = None /\
    remove_scheduler s w' = None.
Proof.
  intros Hq Hnull Hlive Hpre Hdiff Hid.
  assert (Hx : exists x, scheduler_heap w !! s = Some (Live x)).
  { unfold scheduler_id_of in Hid.
    destruct (scheduler_heap w !! s) as [[x|x]|]; try discriminate. eauto. }
  destruct Hx as (x & Hx).
  assert (Hget : get_scheduler_by_id id w = Some (s, w)).
  { rewrite (get_scheduler_by_id_scan w id _ Hq).
    rewrite (scan_for_scheduler_id_found w id pre s suf Hlive Hpre Hid). reflexivity. }
  set (w' := set_scheduler_heap
               (<[s := Freed (Scheduler (-1) (scheduler_thread x) false)]>
                  (scheduler_heap w)) w).
  assert (Hq' : taskmgr_scheduler_queue w' = Some (pre ++ s :: suf)) by exact Hq.
  assert (Hin : In s (pre ++ s :: suf)) by (apply in_or_app; right; left; reflexivity).
  assert (Hscan : scan_for_scheduler_id w' id (pre ++ s :: suf) = None).
  { apply (scan_for_scheduler_id_released w' id pre s suf
             (Scheduler (-1) (scheduler_thread x) false)).
    - intros s' Hs'. destruct (Hlive s' Hs') as (x0 & Hx0). exists x0.
      simpl. rewrite lookup_insert_ne by (apply not_eq_sym, Hdiff, Hs'). exact Hx0.
    - intros s' Hs'. pose proof (Hpre s' Hs') as Hne.
      unfold scheduler_id_of in *. simpl.
      rewrite lookup_insert_ne by (apply not_eq_sym, Hdiff, Hs'). exact Hne.
    - simpl. apply lookup_insert_eq. }
  assert (Hget' : get_scheduler_by_id id w' = None).
  { rewrite (get_scheduler_by_id_scan w' id _ Hq'), Hscan. reflexivity. }
  exists w', (Scheduler (-1) (scheduler_thread x) false).
  split.
  { unfold free_scheduler_by_id. rewrite (bind_some _ _ _ _ _ Hget).
    apply N.eqb_neq in Hnull. rewrite Hnull. apply free_scheduler_live. exact Hx. }
  split; [simpl; apply lookup_insert_eq|].
  split; [reflexivity|]. split; [exact Hq'|]. split; [reflexivity|].
  split.
  { rewrite (has_scheduler_some w' _ s Hq').
    destruct (Z.eqb_spec (queue_get_index (pre ++ s :: suf) s) (-1)) as [E|E];
      [|reflexivity].
    apply queue_get_index_absent in E. contradiction. }
  split; [exact Hget'|].
  split; [unfold has_scheduler_by_id, bind; rewrite Hget'; reflexivity|].
  split; [unfold remove_scheduler_by_id, bind; rewrite Hget'; reflexivity|].
  split; [unfold free_scheduler_by_id, bind; rewrite Hget'; reflexivity|].
  unfold remove_scheduler, queue_remove_object.
  rewrite (bind_some _ _ _ _ _ (the_scheduler_queue_some w' _ Hq')).
  destruct (Z.eqb_spec (queue_get_index (pre ++ s :: suf) s) (-1)) as [E|E].
  { apply queue_get_index_absent in E. contradiction. }
  rewrite (bind_some _ _ _ _
             (set_scheduler_queue (Some (queue_remove_first (pre ++ s :: suf) s)) w')
             eq_refl).
  simpl. unfold bind, free_scheduler, bind, load_scheduler. simpl.
  rewrite lookup_insert_eq. reflexivity.
Qed.

Lemma free_scheduler_by_id_stays_registered_witness :
  exists w' x',
    free_scheduler_by_id 0 (state_after (add_scheduler true true) started_world)
      = Some (0, w') /\
    scheduler_heap w' !! 1%N = Some (Freed x') /\
    scheduler_id x' = -1 /\
    taskmgr_scheduler_queue w' = Some ([] ++ 1%N :: []) /\
    threads w' = threads (state_after (add_scheduler true true) started_world) /\
    has_scheduler 1%N w' = Some (1, w') /\
    get_scheduler_by_id 0 w' = None /\
    has_scheduler_by_id 0 w' = None /\
    remove_scheduler_by_id 0 w' = None /\
    free_scheduler_by_id 0 w' = None /\
    remove_scheduler 1%N w' = None.
Proof.
  apply (free_scheduler_by_id_stays_registered
           (state_after (add_scheduler true true) started_world) [] 1%N [] 0).
  - vm_compute. reflexivity.
  - vm_compute. discriminate.
  - intros s' [].
  - intros s' [].
  - intros s' [].
  - vm_compute. reflexivity.
Defined.

(** X17.  A tick that finds a [NULL] handle at the front of the Ready Queue
    drops it and fails, and [taskmgr_run] then returns 1 without clearing
    the running flag and without invoking anything.  From that state
    [taskmgr_run] and [taskmgr_init] both refuse with 1 and change nothing;
    only [taskmgr_shutdown] clears the flag. *)
Theorem failed_tick_leaves_running_set
  (clock : nat -> double)
  (invoke : callable_func_t -> addr -> option (list Z) -> world
            -> option (task_result_t * world))
  (w : world) (q sq : queue_t) (n : nat) :
  taskmgr_running w = false ->
  taskmgr_task_queue w = Some (NULL :: q) ->
  taskmgr_scheduler_queue w = Some sq ->
  exists w',
    taskmgr_run clock invoke (S n) w = Some (Returned 1, w') /\
    taskmgr_running w' = true /\
    taskmgr_task_queue w' = Some q /\
    call_log w' = call_log w /\
    task_heap w' = task_heap w /\
    (forall m, taskmgr_run clock invoke m w' = Some (Returned 1, w')) /\
    taskmgr_init w' = Some (1, w') /\
    exists w'', taskmgr_shutdown w' = Some (0, w'') /\ taskmgr_running w'' = false.
Proof.
  intros Hrun Hq Hsq.
  exists (set_task_queue (Some q) (set_running true w)).
  split.
  { unfold taskmgr_run, bind, gets, modify. rewrite Hrun. simpl.
    unfold bind, gets. simpl. unfold taskmgr_tick, bind, the_task_queue.
    simpl. rewrite Hq. simpl. reflexivity. }
  split; [reflexivity|]. split; [reflexivity|]. split; [reflexivity|].
  split; [reflexivity|].
  split; [intros m; reflexivity|]. split; [reflexivity|].
  eexists. split.
  - apply (taskmgr_shutdown_some (set_task_queue (Some q) (set_running true w)) q sq);
      [reflexivity | reflexivity | exact Hsq].
  - reflexivity.
Qed.

Lemma failed_tick_leaves_running_set_witness :
  exists w',
    taskmgr_run second_clock (always TASK_RESULT_CONT) 3
      (set_task_queue (Some [NULL; 1%N]) (one_task_world (double_of_Z 0)))
      = Some (Returned 1, w') /\
    taskmgr_running w' = true /\
    taskmgr_task_queue w' = Some [1%N] /\
    call_log w' = call_log (set_task_queue (Some [NULL; 1%N]) (one_task_world (double_of_Z 0))) /\
    task_heap w' = task_heap (set_task_queue (Some [NULL; 1%N]) (one_task_world (double_of_Z 0))) /\
    (forall m, taskmgr_run second_clock (always TASK_RESULT_CONT) m w'
               = Some (Returned 1, w')) /\
    taskmgr_init w' = Some (1, w') /\
    exists w'', taskmgr_shutdown w' = Some (0, w'') /\ taskmgr_running w'' = false.
Proof.
  apply (failed_tick_leaves_running_set second_clock (always TASK_RESULT_CONT)
           (set_task_queue (Some [NULL; 1%N]) (one_task_world (double_of_Z 0))) [1%N] [] 2).
  - vm_compute. reflexivity.
  - vm_compute. reflexivity.
  - vm_compute. reflexivity.
Defined.
